(** * protect-python-app: the encrypt / decrypt / load pipeline

    A shallow embedding of [encrypt_compiled.py], [runtime_loader.py],
    [app_launcher.py], [cythonize_app.py] and [build_encrypted_app.py],
    together with the part of their run-time environment their behaviour
    depends on: [cryptography.fernet.Fernet] (base64url, PKCS7,
    AES-128-CBC, HMAC-SHA256), files, [tempfile], [sys.modules] and the
    import machinery. The build tools ([subprocess], [shutil], directory
    listings) are parameters.

    Byte strings are [list byte]; Python exceptions are values of [exn];
    a Python function that performs I/O is a function on [Proc] in the
    monad [M]. *)

From Stdlib Require Import NArith ZArith List Bool Strings.Byte Strings.Ascii Strings.String Lia Btauto.
From stdpp Require Import gmap strings list pretty.
Import ListNotations.

#[global] Instance byte_eq_decision : EqDecision byte := byte_eq_dec.

Abbreviation bytes := (list byte).

(** ** Bytes as numbers *)

Module Bytes.
Local Open Scope N_scope.

(** Storing an integer into an unsigned 8-bit cell. *)
Definition byte_of_N (n : N) : byte :=
  match Byte.of_N (n mod 256) with Some b => b | None => x00 end.

Definition all_bytes : list byte :=
  map (fun n => byte_of_N (N.of_nat n)) (seq 0 256).

(** Exhaustive checks over the 256 byte values. *)
Definition byte_forall (P : byte -> bool) : bool := forallb P all_bytes.
Definition byte_forall2 (P : byte -> byte -> bool) : bool :=
  byte_forall (fun a => byte_forall (P a)).

Lemma byte_of_to_N b : byte_of_N (Byte.to_N b) = b.
Proof.
  unfold byte_of_N. pose proof (Byte.to_N_bounded b).
  rewrite N.mod_small by lia. now rewrite Byte.of_to_N.
Qed.

Lemma to_N_byte_of_N n : Byte.to_N (byte_of_N n) = n mod 256.
Proof.
  unfold byte_of_N. destruct (Byte.of_N (n mod 256)) eqn:E.
  - now apply Byte.to_of_N.
  - apply Byte.of_N_None_iff in E.
    pose proof (N.mod_upper_bound n 256). lia.
Qed.

Lemma byte_forall_spec P : byte_forall P = true -> forall b, P b = true.
Proof.
  unfold byte_forall. rewrite forallb_forall. intros H b. apply H.
  unfold all_bytes. apply in_map_iff. exists (N.to_nat (Byte.to_N b)). split.
  - rewrite N2Nat.id. apply byte_of_to_N.
  - apply in_seq. pose proof (Byte.to_N_bounded b). lia.
Qed.

Lemma byte_forall2_spec P :
  byte_forall2 P = true -> forall a b, P a b = true.
Proof.
  intros H a. apply byte_forall_spec. revert a. now apply byte_forall_spec.
Qed.

(** [int.to_bytes(length, byteorder="big")] for a value below [256^length]. *)
Fixpoint to_bytes_be (len : nat) (n : N) : bytes :=
  match len with
  | O => []
  | S len' => to_bytes_be len' (n / 256) ++ [byte_of_N n]
  end.

(** [int.from_bytes(b, byteorder="big")]. *)
Definition from_bytes_be (b : bytes) : N :=
  fold_left (fun acc x => acc * 256 + Byte.to_N x) b 0.

Lemma to_bytes_be_length len n : length (to_bytes_be len n) = len.
Proof.
  revert n. induction len as [|len IH]; intros n; simpl; [reflexivity|].
  rewrite length_app, IH. simpl. lia.
Qed.


End Bytes.
Export Bytes.

(** ** Base64, as [base64.urlsafe_b64encode] / [base64.urlsafe_b64decode]

    [urlsafe_b64encode(s)] is [binascii.b2a_base64] followed by the
    translation of [+/] to [-_]; [urlsafe_b64decode(s)] translates [-_] back
    and calls [binascii.a2b_base64] in its default, non-strict mode, which
    skips characters outside the alphabet and does not look at the unused
    low bits of the last character before the padding. *)

Module Base64.
Local Open Scope N_scope.

Definition BASE64_PAD : byte := "="%byte.

Definition table_b2a_base64 : bytes :=
  list_byte_of_string
    "ABCDEFGHIJKLMNOPQRSTUVWXYZabcdefghijklmnopqrstuvwxyz0123456789+/".

Definition b2a (i : N) : byte :=
  nth (N.to_nat (N.land i 63)) table_b2a_base64 BASE64_PAD.

(** The value of a character of the alphabet; [None] for the others
    (the entries the C table marks as invalid). *)
Definition table_a2b_base64 (c : byte) : option N :=
  let n := Byte.to_N c in
  if (65 <=? n) && (n <=? 90) then Some (n - 65)
  else if (97 <=? n) && (n <=? 122) then Some (n - 71)
  else if (48 <=? n) && (n <=? 57) then Some (n + 4)
  else if n =? 43 then Some 62
  else if n =? 47 then Some 63
  else None.

(** The four characters of a group of three bytes. *)
Definition enc0 (a : byte) : byte := b2a (N.shiftr (Byte.to_N a) 2).
Definition enc1 (a b : byte) : byte :=
  b2a (N.lor (N.shiftl (N.land (Byte.to_N a) 3) 4) (N.shiftr (Byte.to_N b) 4)).
Definition enc2 (b c : byte) : byte :=
  b2a (N.lor (N.shiftl (N.land (Byte.to_N b) 15) 2) (N.shiftr (Byte.to_N c) 6)).
Definition enc3 (c : byte) : byte := b2a (N.land (Byte.to_N c) 63).

Fixpoint b64encode (s : bytes) : bytes :=
  match s with
  | [] => []
  | [a] => [enc0 a; enc1 a x00; BASE64_PAD; BASE64_PAD]
  | [a; b] => [enc0 a; enc1 a b; enc2 b x00; BASE64_PAD]
  | a :: b :: c :: rest => enc0 a :: enc1 a b :: enc2 b c :: enc3 c :: b64encode rest
  end.

Definition urlsafe_encode_translation (c : byte) : byte :=
  if decide (c = "+"%byte) then "-"%byte
  else if decide (c = "/"%byte) then "_"%byte else c.

Definition urlsafe_decode_translation (c : byte) : byte :=
  if decide (c = "-"%byte) then "+"%byte
  else if decide (c = "_"%byte) then "/"%byte else c.

Definition urlsafe_b64encode (s : bytes) : bytes :=
  map urlsafe_encode_translation (b64encode s).

(** The loop of [binascii.a2b_base64] with [strict_mode] off. The state is
    [quad_pos], [leftchar], [pads] and the bytes written so far; [None] is
    [binascii.Error]. *)
Fixpoint a2b_loop (s : bytes) (quad_pos : N) (leftchar : N) (pads : N)
    (out : bytes) : option bytes :=
  match s with
  | [] => if quad_pos =? 0 then Some out else None
  | this_ch :: s' =>
      if decide (this_ch = BASE64_PAD) then
        if (2 <=? quad_pos) && (4 <=? quad_pos + (pads + 1)) then Some out
        else a2b_loop s' quad_pos leftchar
               (if 2 <=? quad_pos then pads + 1 else pads) out
      else
        match table_a2b_base64 this_ch with
        | None => a2b_loop s' quad_pos leftchar pads out
        | Some v =>
            if quad_pos =? 0 then a2b_loop s' 1 v 0 out
            else if quad_pos =? 1 then
              a2b_loop s' 2 (N.land v 15) 0
                (out ++ [byte_of_N (N.lor (N.shiftl leftchar 2) (N.shiftr v 4))])
            else if quad_pos =? 2 then
              a2b_loop s' 3 (N.land v 3) 0
                (out ++ [byte_of_N (N.lor (N.shiftl leftchar 4) (N.shiftr v 2))])
            else
              a2b_loop s' 0 0 0
                (out ++ [byte_of_N (N.lor (N.shiftl leftchar 6) v)])
        end
  end.

Definition a2b_base64 (s : bytes) : option bytes := a2b_loop s 0 0 0 [].

Definition urlsafe_b64decode (s : bytes) : option bytes :=
  a2b_base64 (map urlsafe_decode_translation s).

(** *** Facts about single characters, by exhaustive check *)

Definition val0 (a : byte) : N := N.shiftr (Byte.to_N a) 2.
Definition val1 (a b : byte) : N :=
  N.lor (N.shiftl (N.land (Byte.to_N a) 3) 4) (N.shiftr (Byte.to_N b) 4).
Definition val2 (b c : byte) : N :=
  N.lor (N.shiftl (N.land (Byte.to_N b) 15) 2) (N.shiftr (Byte.to_N c) 6).
Definition val3 (c : byte) : N := N.land (Byte.to_N c) 63.

Definition opt_N_eqb (x : option N) (y : N) : bool :=
  match x with Some v => v =? y | None => false end.

Lemma opt_N_eqb_eq x y : opt_N_eqb x y = true -> x = Some y.
Proof. destruct x; simpl; [|discriminate]. intros ->%N.eqb_eq. reflexivity. Qed.

Definition is_data_char (c : byte) (v : N) : bool :=
  negb (bool_decide (c = BASE64_PAD))
  && opt_N_eqb (table_a2b_base64 c) v
  && bool_decide (urlsafe_decode_translation (urlsafe_encode_translation c) = c).

Lemma is_data_char_spec c v :
  is_data_char c v = true ->
  c <> BASE64_PAD /\ table_a2b_base64 c = Some v
  /\ urlsafe_decode_translation (urlsafe_encode_translation c) = c.
Proof.
  unfold is_data_char. rewrite !andb_true_iff, negb_true_iff.
  intros [[H1 H2] H3]. apply bool_decide_eq_false in H1.
  apply bool_decide_eq_true in H3. apply opt_N_eqb_eq in H2. auto.
Qed.

Lemma enc0_data a : is_data_char (enc0 a) (val0 a) = true.
Proof. revert a. apply byte_forall_spec. vm_compute. reflexivity. Qed.

Lemma enc1_data a b : is_data_char (enc1 a b) (val1 a b) = true.
Proof. revert a b. apply byte_forall2_spec. vm_compute. reflexivity. Qed.

Lemma enc2_data b c : is_data_char (enc2 b c) (val2 b c) = true.
Proof. revert b c. apply byte_forall2_spec. vm_compute. reflexivity. Qed.

Lemma enc3_data c : is_data_char (enc3 c) (val3 c) = true.
Proof. revert c. apply byte_forall_spec. vm_compute. reflexivity. Qed.

Lemma out0 a b :
  byte_of_N (N.lor (N.shiftl (val0 a) 2) (N.shiftr (val1 a b) 4)) = a.
Proof.
  apply (bool_decide_eq_true_1 _). revert a b. apply byte_forall2_spec.
  vm_compute. reflexivity.
Qed.

Lemma val1_low a b : N.land (val1 a b) 15 = N.shiftr (Byte.to_N b) 4.
Proof.
  apply N.eqb_eq. revert a b. apply byte_forall2_spec. vm_compute. reflexivity.
Qed.

Lemma val2_high b c : N.shiftr (val2 b c) 2 = N.land (Byte.to_N b) 15.
Proof.
  apply N.eqb_eq. revert b c. apply byte_forall2_spec. vm_compute. reflexivity.
Qed.

Lemma nibbles b :
  byte_of_N (N.lor (N.shiftl (N.shiftr (Byte.to_N b) 4) 4)
               (N.land (Byte.to_N b) 15)) = b.
Proof.
  apply (bool_decide_eq_true_1 _). revert b. apply byte_forall_spec.
  vm_compute. reflexivity.
Qed.

Lemma out1 a b c :
  byte_of_N (N.lor (N.shiftl (N.land (val1 a b) 15) 4) (N.shiftr (val2 b c) 2)) = b.
Proof. rewrite val1_low, val2_high. apply nibbles. Qed.

Lemma out2 b c :
  byte_of_N (N.lor (N.shiftl (N.land (val2 b c) 3) 6) (val3 c)) = c.
Proof.
  apply (bool_decide_eq_true_1 _). revert b c. apply byte_forall2_spec.
  vm_compute. reflexivity.
Qed.
(** *** Decoding inverts encoding *)

Lemma list_ind3 {A} (P : list A -> Prop) :
  P [] -> (forall a, P [a]) -> (forall a b, P [a; b]) ->
  (forall a b c l, P l -> P (a :: b :: c :: l)) -> forall l, P l.
Proof.
  intros H0 H1 H2 H3. fix IH 1.
  intros [|a [|b [|c l]]];
    [exact H0 | exact (H1 a) | exact (H2 a b) | exact (H3 a b c l (IH l))].
Qed.

Lemma a2b_loop_data c v s quad_pos leftchar pads out :
  is_data_char c v = true ->
  a2b_loop (c :: s) quad_pos leftchar pads out =
    if quad_pos =? 0 then a2b_loop s 1 v 0 out
    else if quad_pos =? 1 then
      a2b_loop s 2 (N.land v 15) 0
        (out ++ [byte_of_N (N.lor (N.shiftl leftchar 2) (N.shiftr v 4))])
    else if quad_pos =? 2 then
      a2b_loop s 3 (N.land v 3) 0
        (out ++ [byte_of_N (N.lor (N.shiftl leftchar 4) (N.shiftr v 2))])
    else a2b_loop s 0 0 0 (out ++ [byte_of_N (N.lor (N.shiftl leftchar 6) v)]).
Proof.
  intros (Hpad & Hv & _)%is_data_char_spec. cbn [a2b_loop].
  destruct (decide (c = BASE64_PAD)); [contradiction|]. now rewrite Hv.
Qed.

Lemma a2b_loop_pad2 leftchar out :
  a2b_loop [BASE64_PAD; BASE64_PAD] 2 leftchar 0 out = Some out.
Proof.
  cbn [a2b_loop]. destruct (decide (BASE64_PAD = BASE64_PAD)); [|congruence].
  reflexivity.
Qed.

Lemma a2b_loop_pad3 leftchar out :
  a2b_loop [BASE64_PAD] 3 leftchar 0 out = Some out.
Proof.
  cbn [a2b_loop]. destruct (decide (BASE64_PAD = BASE64_PAD)); [|congruence].
  reflexivity.
Qed.

Ltac a2b_data H := rewrite (a2b_loop_data _ _ _ _ _ _ _ H); cbn [N.eqb Pos.eqb].

Lemma a2b_loop_b64encode s : forall leftchar pads out,
  a2b_loop (b64encode s) 0 leftchar pads out = Some (out ++ s).
Proof.
  induction s as [|a|a b|a b c s IH] using list_ind3; intros leftchar pads out.
  - cbn. now rewrite app_nil_r.
  - cbn [b64encode].
    a2b_data (enc0_data a). a2b_data (enc1_data a x00).
    now rewrite a2b_loop_pad2, (out0 a x00).
  - cbn [b64encode].
    a2b_data (enc0_data a). a2b_data (enc1_data a b). a2b_data (enc2_data b x00).
    rewrite a2b_loop_pad3, (out0 a b), (out1 a b x00), <- app_assoc. reflexivity.
  - cbn [b64encode].
    a2b_data (enc0_data a). a2b_data (enc1_data a b).
    a2b_data (enc2_data b c). a2b_data (enc3_data c).
    rewrite IH, (out0 a b), (out1 a b c), (out2 b c), <- !app_assoc. reflexivity.
Qed.

Lemma translation_data c v :
  is_data_char c v = true ->
  urlsafe_decode_translation (urlsafe_encode_translation c) = c.
Proof. now intros (_ & _ & H)%is_data_char_spec. Qed.

Lemma translation_b64encode s :
  map urlsafe_decode_translation (map urlsafe_encode_translation (b64encode s))
  = b64encode s.
Proof.
  induction s as [|a|a b|a b c s IH] using list_ind3; cbn [b64encode map].
  - reflexivity.
  - now rewrite (translation_data _ _ (enc0_data a)),
      (translation_data _ _ (enc1_data a x00)).
  - now rewrite (translation_data _ _ (enc0_data a)),
      (translation_data _ _ (enc1_data a b)),
      (translation_data _ _ (enc2_data b x00)).
  - now rewrite IH, (translation_data _ _ (enc0_data a)),
      (translation_data _ _ (enc1_data a b)),
      (translation_data _ _ (enc2_data b c)),
      (translation_data _ _ (enc3_data c)).
Qed.

Lemma urlsafe_b64decode_encode s :
  urlsafe_b64decode (urlsafe_b64encode s) = Some s.
Proof.
  unfold urlsafe_b64decode, urlsafe_b64encode, a2b_base64.
  rewrite translation_b64encode. apply a2b_loop_b64encode.
Qed.


Lemma b64encode_length s :
  length (b64encode s) = (4 * ((length s + 2) / 3))%nat.
Proof.
  induction s as [|a|a b|a b c s IH] using list_ind3; cbn [b64encode length];
    try reflexivity.
  rewrite IH. replace (S (S (S (length s))) + 2)%nat with (1 * 3 + (length s + 2))%nat by lia.
  rewrite Nat.div_add_l by lia. lia.
Qed.

Lemma urlsafe_b64encode_length s :
  length (urlsafe_b64encode s) = (4 * ((length s + 2) / 3))%nat.
Proof. unfold urlsafe_b64encode. now rewrite length_map, b64encode_length. Qed.

Example b64encode_hello :
  urlsafe_b64encode (list_byte_of_string "hello") = list_byte_of_string "aGVsbG8=".
Proof. reflexivity. Qed.

Example b64decode_lenient :
  urlsafe_b64decode (list_byte_of_string "aGVsbG9=")
  = Some (list_byte_of_string "hello").
Proof. reflexivity. Qed.
(** *** Decoding a text in which one character was replaced *)

(** At the start of a group the decoder's result does not depend on the
    left-over bits or on the padding count. *)
Lemma a2b_loop_group_start s : forall leftchar pads out,
  a2b_loop s 0 leftchar pads out = a2b_loop s 0 0 0 out.
Proof.
  induction s as [|c s IH]; intros leftchar pads out; [reflexivity|].
  cbn [a2b_loop]. destruct (decide (c = BASE64_PAD)).
  - cbn [N.leb N.compare andb]. rewrite IH. symmetry. apply IH.
  - destruct (table_a2b_base64 c) as [v|]; [reflexivity|].
    rewrite IH. symmetry. apply IH.
Qed.

Lemma b64encode_app s1 s2 :
  (length s1 mod 3 = 0)%nat -> b64encode (s1 ++ s2) = b64encode s1 ++ b64encode s2.
Proof.
  induction s1 as [|a|a b|a b c s1 IH] using list_ind3; intros Hlen.
  - reflexivity.
  - discriminate Hlen.
  - discriminate Hlen.
  - cbn [app b64encode]. rewrite IH; [reflexivity|].
    change (length (a :: b :: c :: s1)) with (1 * 3 + length s1)%nat in Hlen.
    now rewrite Nat.add_comm, Nat.Div0.mod_add in Hlen.
Qed.

Lemma a2b_loop_b64encode_app s rest :
  (length s mod 3 = 0)%nat -> forall leftchar pads out,
  a2b_loop (b64encode s ++ rest) 0 leftchar pads out = a2b_loop rest 0 0 0 (out ++ s).
Proof.
  induction s as [|a|a b|a b c s IH] using list_ind3; intros Hlen leftchar pads out.
  - cbn [b64encode app]. rewrite app_nil_r. apply a2b_loop_group_start.
  - discriminate Hlen.
  - discriminate Hlen.
  - cbn [b64encode app].
    a2b_data (enc0_data a). a2b_data (enc1_data a b).
    a2b_data (enc2_data b c). a2b_data (enc3_data c).
    rewrite IH.
    + rewrite (out0 a b), (out1 a b c), (out2 b c), <- !app_assoc. reflexivity.
    + change (length (a :: b :: c :: s)) with (1 * 3 + length s)%nat in Hlen.
      now rewrite Nat.add_comm, Nat.Div0.mod_add in Hlen.
Qed.

(** The three bytes a group of four values decodes to. *)
Definition dec0 (v0 v1 : N) : byte := byte_of_N (N.lor (N.shiftl v0 2) (N.shiftr v1 4)).
Definition dec1 (v1 v2 : N) : byte :=
  byte_of_N (N.lor (N.shiftl (N.land v1 15) 4) (N.shiftr v2 2)).
Definition dec2 (v2 v3 : N) : byte := byte_of_N (N.lor (N.shiftl (N.land v2 3) 6) v3).

Lemma a2b_loop_group c0 c1 c2 c3 v0 v1 v2 v3 rest leftchar pads out :
  c0 <> BASE64_PAD -> table_a2b_base64 c0 = Some v0 ->
  c1 <> BASE64_PAD -> table_a2b_base64 c1 = Some v1 ->
  c2 <> BASE64_PAD -> table_a2b_base64 c2 = Some v2 ->
  c3 <> BASE64_PAD -> table_a2b_base64 c3 = Some v3 ->
  a2b_loop (c0 :: c1 :: c2 :: c3 :: rest) 0 leftchar pads out
  = a2b_loop rest 0 0 0 (out ++ [dec0 v0 v1; dec1 v1 v2; dec2 v2 v3]).
Proof.
  intros H0 T0 H1 T1 H2 T2 H3 T3. cbn [a2b_loop].
  repeat match goal with
         | |- context [decide (?c = BASE64_PAD)] =>
             destruct (decide (c = BASE64_PAD)); [contradiction|]
         end.
  rewrite T0. cbn [N.eqb Pos.eqb]. rewrite T1. cbn [N.eqb Pos.eqb].
  rewrite T2. cbn [N.eqb Pos.eqb]. rewrite T3. cbn [N.eqb Pos.eqb].
  unfold dec0, dec1, dec2. now rewrite <- !app_assoc.
Qed.

Definition sextets : list N := map N.of_nat (seq 0 64).

Definition sextet_forall2 (P : N -> N -> bool) : bool :=
  forallb (fun v => forallb (P v) sextets) sextets.

Lemma sextet_forall2_spec P :
  sextet_forall2 P = true -> forall v w, (v < 64)%N -> (w < 64)%N -> P v w = true.
Proof.
  unfold sextet_forall2. rewrite forallb_forall. intros H v w Hv Hw.
  assert (Hin : forall x, (x < 64)%N -> In x sextets).
  { intros x Hx. unfold sextets. apply in_map_iff. exists (N.to_nat x).
    split; [apply N2Nat.id | apply in_seq; lia]. }
  specialize (H v (Hin v Hv)). rewrite forallb_forall in H. exact (H w (Hin w Hw)).
Qed.

Lemma table_a2b_base64_bound c v : table_a2b_base64 c = Some v -> (v < 64)%N.
Proof.
  enough (H : match table_a2b_base64 c with Some v => v <? 64 | None => true end = true).
  { intros E. rewrite E in H. now apply N.ltb_lt. }
  revert c. apply byte_forall_spec. vm_compute. reflexivity.
Qed.

Lemma join_nibbles v :
  (v < 64)%N -> N.lor (N.shiftl (N.shiftr v 4) 4) (N.land v 15) = v.
Proof.
  intros H. apply N.eqb_eq.
  apply (sextet_forall2_spec
           (fun _ v => N.lor (N.shiftl (N.shiftr v 4) 4) (N.land v 15) =? v))
    with (v := 0); [vm_compute; reflexivity | lia | assumption].
Qed.

Lemma join_pairs v :
  (v < 64)%N -> N.lor (N.shiftl (N.shiftr v 2) 2) (N.land v 3) = v.
Proof.
  intros H. apply N.eqb_eq.
  apply (sextet_forall2_spec
           (fun _ v => N.lor (N.shiftl (N.shiftr v 2) 2) (N.land v 3) =? v))
    with (v := 0); [vm_compute; reflexivity | lia | assumption].
Qed.

(** Encoding the bytes of a decoded group gives the four values back. *)
Lemma val0_dec v0 v1 : (v0 < 64)%N -> (v1 < 64)%N -> val0 (dec0 v0 v1) = v0.
Proof.
  intros H0 H1. apply N.eqb_eq. revert v0 v1 H0 H1. apply sextet_forall2_spec.
  vm_compute. reflexivity.
Qed.

Lemma dec0_low v0 v1 :
  (v0 < 64)%N -> (v1 < 64)%N -> N.land (Byte.to_N (dec0 v0 v1)) 3 = N.shiftr v1 4.
Proof.
  intros H0 H1. apply N.eqb_eq. revert v0 v1 H0 H1. apply sextet_forall2_spec.
  vm_compute. reflexivity.
Qed.

Lemma dec1_high v1 v2 :
  (v1 < 64)%N -> (v2 < 64)%N -> N.shiftr (Byte.to_N (dec1 v1 v2)) 4 = N.land v1 15.
Proof.
  intros H1 H2. apply N.eqb_eq. revert v1 v2 H1 H2. apply sextet_forall2_spec.
  vm_compute. reflexivity.
Qed.

Lemma dec1_low v1 v2 :
  (v1 < 64)%N -> (v2 < 64)%N -> N.land (Byte.to_N (dec1 v1 v2)) 15 = N.shiftr v2 2.
Proof.
  intros H1 H2. apply N.eqb_eq. revert v1 v2 H1 H2. apply sextet_forall2_spec.
  vm_compute. reflexivity.
Qed.

Lemma dec2_high v2 v3 :
  (v2 < 64)%N -> (v3 < 64)%N -> N.shiftr (Byte.to_N (dec2 v2 v3)) 6 = N.land v2 3.
Proof.
  intros H2 H3. apply N.eqb_eq. revert v2 v3 H2 H3. apply sextet_forall2_spec.
  vm_compute. reflexivity.
Qed.

Lemma val1_dec v0 v1 v2 :
  (v0 < 64)%N -> (v1 < 64)%N -> (v2 < 64)%N -> val1 (dec0 v0 v1) (dec1 v1 v2) = v1.
Proof.
  intros H0 H1 H2. unfold val1.
  rewrite dec0_low, dec1_high by assumption. now apply join_nibbles.
Qed.

Lemma val2_dec v1 v2 v3 :
  (v1 < 64)%N -> (v2 < 64)%N -> (v3 < 64)%N -> val2 (dec1 v1 v2) (dec2 v2 v3) = v2.
Proof.
  intros H1 H2 H3. unfold val2.
  rewrite dec1_low, dec2_high by assumption. now apply join_pairs.
Qed.

Lemma val3_dec v2 v3 : (v2 < 64)%N -> (v3 < 64)%N -> val3 (dec2 v2 v3) = v3.
Proof.
  intros H2 H3. apply N.eqb_eq. revert v2 v3 H2 H3. apply sextet_forall2_spec.
  vm_compute. reflexivity.
Qed.

(** The values of the characters of an encoded group. *)
Lemma enc_values a b c :
  table_a2b_base64 (enc0 a) = Some (val0 a)
  /\ table_a2b_base64 (enc1 a b) = Some (val1 a b)
  /\ table_a2b_base64 (enc2 b c) = Some (val2 b c)
  /\ table_a2b_base64 (enc3 c) = Some (val3 c).
Proof.
  pose proof (is_data_char_spec _ _ (enc0_data a)) as (_ & H0 & _).
  pose proof (is_data_char_spec _ _ (enc1_data a b)) as (_ & H1 & _).
  pose proof (is_data_char_spec _ _ (enc2_data b c)) as (_ & H2 & _).
  pose proof (is_data_char_spec _ _ (enc3_data c)) as (_ & H3 & _).
  auto.
Qed.

(** One character of a full group replaced by a character of the alphabet
    with another value: the group decodes to other bytes. *)
Lemma a2b_loop_group_replaced a b c j x v rest leftchar pads out :
  (j < 4)%nat ->
  table_a2b_base64 x = Some v ->
  (forall y, [enc0 a; enc1 a b; enc2 b c; enc3 c] !! j = Some y ->
             table_a2b_base64 y <> Some v) ->
  exists a' b' c',
    a2b_loop (<[j := x]> [enc0 a; enc1 a b; enc2 b c; enc3 c] ++ rest) 0 leftchar pads out
    = a2b_loop rest 0 0 0 (out ++ [a'; b'; c'])
    /\ [a'; b'; c'] <> [a; b; c].
Proof.
  intros Hj Hx Hne.
  destruct (enc_values a b c) as (T0 & T1 & T2 & T3).
  pose proof (is_data_char_spec _ _ (enc0_data a)) as (P0 & _).
  pose proof (is_data_char_spec _ _ (enc1_data a b)) as (P1 & _).
  pose proof (is_data_char_spec _ _ (enc2_data b c)) as (P2 & _).
  pose proof (is_data_char_spec _ _ (enc3_data c)) as (P3 & _).
  assert (Px : x <> BASE64_PAD) by (intros ->; discriminate Hx).
  pose proof (table_a2b_base64_bound _ _ Hx) as Bx.
  pose proof (table_a2b_base64_bound _ _ T0) as B0.
  pose proof (table_a2b_base64_bound _ _ T1) as B1.
  pose proof (table_a2b_base64_bound _ _ T2) as B2.
  pose proof (table_a2b_base64_bound _ _ T3) as B3.
  destruct j as [|[|[|[|j]]]]; [| | | |lia]; cbn [insert list_insert app].
  - exists (dec0 v (val1 a b)), (dec1 (val1 a b) (val2 b c)), (dec2 (val2 b c) (val3 c)).
    split; [now apply a2b_loop_group|].
    intros E. injection E as Ea Eb Ec.
    apply (Hne (enc0 a) eq_refl). rewrite T0. f_equal.
    rewrite <- Ea. now rewrite val0_dec.
  - exists (dec0 (val0 a) v), (dec1 v (val2 b c)), (dec2 (val2 b c) (val3 c)).
    split; [now apply a2b_loop_group|].
    intros E. injection E as Ea Eb Ec.
    apply (Hne (enc1 a b) eq_refl). rewrite T1. f_equal.
    rewrite <- Ea, <- Eb. now rewrite val1_dec.
  - exists (dec0 (val0 a) (val1 a b)), (dec1 (val1 a b) v), (dec2 v (val3 c)).
    split; [now apply a2b_loop_group|].
    intros E. injection E as Ea Eb Ec.
    apply (Hne (enc2 b c) eq_refl). rewrite T2. f_equal.
    rewrite <- Eb, <- Ec. now rewrite val2_dec.
  - exists (dec0 (val0 a) (val1 a b)), (dec1 (val1 a b) (val2 b c)), (dec2 (val2 b c) v).
    split; [now apply a2b_loop_group|].
    intros E. injection E as Ea Eb Ec.
    apply (Hne (enc3 c) eq_refl). rewrite T3. f_equal.
    rewrite <- Ec. now rewrite val3_dec.
Qed.
(** The same for a whole text: character [4 g + j] of the encoding of
    [token], in a full group, replaced by a character of the alphabet with
    another value. The decoded bytes differ from [token] in that group and
    nowhere else. *)
Lemma urlsafe_b64decode_replaced token g j x v :
  (j < 4)%nat -> (3 * g + 3 <= length token)%nat ->
  table_a2b_base64 (urlsafe_decode_translation x) = Some v ->
  (forall y, urlsafe_b64encode token !! (4 * g + j)%nat = Some y ->
             table_a2b_base64 (urlsafe_decode_translation y) <> Some v) ->
  exists group',
    urlsafe_b64decode (<[(4 * g + j)%nat := x]> (urlsafe_b64encode token))
    = Some (take (3 * g) token ++ group' ++ drop (3 * g + 3) token)
    /\ length group' = 3%nat
    /\ group' <> take 3 (drop (3 * g) token).
Proof.
  intros Hj Hlen Hx Hne.
  set (T1 := take (3 * g) token).
  assert (HT1 : length T1 = (3 * g)%nat) by (subst T1; rewrite length_take; lia).
  assert (HT1mod : (length T1 mod 3 = 0)%nat)
    by (rewrite HT1, Nat.mul_comm; apply Nat.Div0.mod_mul).
  destruct (drop (3 * g) token) as [|a [|b [|c T2]]] eqn:Hdrop;
    try (apply (f_equal length) in Hdrop; rewrite length_drop in Hdrop;
         simpl in Hdrop; lia).
  assert (Htoken : token = T1 ++ a :: b :: c :: T2)
    by (subst T1; rewrite <- Hdrop; symmetry; apply take_drop).
  assert (HT2 : drop (3 * g + 3) token = T2).
  { rewrite <- drop_drop, Hdrop. reflexivity. }
  rewrite HT2. cbn [take].
  assert (Henc : b64encode token
                 = b64encode T1 ++ [enc0 a; enc1 a b; enc2 b c; enc3 c] ++ b64encode T2).
  { rewrite Htoken at 1. now rewrite b64encode_app by assumption. }
  assert (HL1 : length (b64encode T1) = (4 * g)%nat).
  { rewrite b64encode_length, HT1.
    replace (3 * g + 2)%nat with (2 + g * 3)%nat by lia.
    rewrite Nat.div_add by lia. reflexivity. }
  destruct (a2b_loop_group_replaced a b c j (urlsafe_decode_translation x) v
              (b64encode T2) 0 0 ([] ++ T1) Hj Hx) as (a' & b' & c' & Hloop & Hdiff).
  { intros y Hy.
    assert (Hy' : urlsafe_b64encode token !! (4 * g + j)%nat
                  = Some (urlsafe_encode_translation y)).
    { unfold urlsafe_b64encode. rewrite list_lookup_fmap, Henc.
      rewrite lookup_app_r by lia. rewrite HL1.
      replace (4 * g + j - 4 * g)%nat with j by lia.
      rewrite lookup_app_l by (simpl; lia). now rewrite Hy. }
    specialize (Hne _ Hy').
    assert (Hdata : exists w, is_data_char y w = true).
    { destruct j as [|[|[|[|j]]]]; [| | | |lia]; injection Hy as <-.
      - exists (val0 a). apply enc0_data.
      - exists (val1 a b). apply enc1_data.
      - exists (val2 b c). apply enc2_data.
      - exists (val3 c). apply enc3_data. }
    destruct Hdata as [w Hw]. now rewrite (translation_data _ _ Hw) in Hne. }
  exists [a'; b'; c']. split; [|split; [reflexivity | exact Hdiff]].
  unfold urlsafe_b64decode, a2b_base64, urlsafe_b64encode.
  rewrite list_fmap_insert, translation_b64encode, Henc.
  rewrite insert_app_r_alt by lia. rewrite HL1.
  replace (4 * g + j - 4 * g)%nat with j by lia.
  rewrite insert_app_l by (simpl; lia).
  rewrite a2b_loop_b64encode_app by assumption.
  rewrite Hloop, a2b_loop_b64encode. cbn [app]. now rewrite <- !app_assoc.
Qed.
(** *** A character replaced by one outside the alphabet *)

(** The number of characters the decoder takes for data. *)
Fixpoint data_count (s : bytes) : nat :=
  match s with
  | [] => 0
  | c :: s' =>
      match table_a2b_base64 c with
      | Some _ => S (data_count s')
      | None => data_count s'
      end
  end.

(** Over a stretch without padding the decoder only counts data characters:
    it comes out at the group position the count gives. *)
Lemma a2b_loop_no_pad X : Forall (fun c => c <> BASE64_PAD) X ->
  forall rest quad_pos leftchar out, quad_pos < 4 ->
  exists leftchar' out',
    a2b_loop (X ++ rest) quad_pos leftchar 0 out
    = a2b_loop rest ((quad_pos + N.of_nat (data_count X)) mod 4) leftchar' 0 out'.
Proof.
  induction 1 as [|c X Hc _ IH]; intros rest quad_pos leftchar out Hq.
  - exists leftchar, out. cbn [app data_count]. rewrite N.add_0_r.
    now rewrite N.mod_small.
  - cbn [app a2b_loop data_count].
    destruct (decide (c = BASE64_PAD)); [contradiction|].
    destruct (table_a2b_base64 c) as [v|]; [|now apply IH].
    assert (Hstep : forall q1, q1 < 4 -> q1 = (quad_pos + 1) mod 4 ->
              forall l o, exists leftchar' out',
                a2b_loop (X ++ rest) q1 l 0 o
                = a2b_loop rest
                    ((quad_pos + N.of_nat (S (data_count X))) mod 4) leftchar' 0 out').
    { intros q1 Hq1 -> l o.
      destruct (IH rest ((quad_pos + 1) mod 4) l o Hq1) as (l' & o' & ->).
      exists l', o'. f_equal.
      rewrite N.Div0.add_mod_idemp_l. f_equal. lia. }
    assert (quad_pos = 0 \/ quad_pos = 1 \/ quad_pos = 2 \/ quad_pos = 3)
      as [->|[->|[->| ->]]] by lia; cbn [N.eqb Pos.eqb];
      apply Hstep; (reflexivity || lia).
Qed.

(** Too little padding for the position the data ends at. *)
Lemma a2b_loop_pads_short p : forall quad_pos leftchar out,
  quad_pos = 1 \/ (quad_pos = 2 /\ (p <= 1)%nat) \/ (quad_pos = 3 /\ p = 0%nat) ->
  a2b_loop (repeat BASE64_PAD p) quad_pos leftchar 0 out = None.
Proof.
  assert (H1 : forall n leftchar pads out,
            a2b_loop (repeat BASE64_PAD n) 1 leftchar pads out = None).
  { intros n. induction n as [|n IH]; intros leftchar pads out; [reflexivity|].
    cbn [repeat a2b_loop]. destruct (decide (BASE64_PAD = BASE64_PAD)); [|congruence].
    cbn [N.leb N.compare Pos.compare Pos.compare_cont andb]. apply IH. }
  intros quad_pos leftchar out [->|[[-> Hp]|[-> ->]]].
  - apply H1.
  - destruct p as [|[|p]]; [reflexivity | | lia].
    cbn [repeat a2b_loop]. destruct (decide (BASE64_PAD = BASE64_PAD)); [|congruence].
    reflexivity.
  - reflexivity.
Qed.

(** An encoded text is data characters followed by the padding. *)
Lemma b64encode_shape s :
  exists X p,
    b64encode s = X ++ repeat BASE64_PAD p
    /\ Forall (fun c => exists v, is_data_char c v = true) X
    /\ (((length X mod 4 = 0)%nat /\ p = 0%nat)
        \/ ((length X mod 4 = 2)%nat /\ p = 2%nat)
        \/ ((length X mod 4 = 3)%nat /\ p = 1%nat)).
Proof.
  induction s as [|a|a b|a b c s IH] using list_ind3.
  - exists [], 0%nat. repeat split; [constructor | now left].
  - exists [enc0 a; enc1 a x00], 2%nat. split; [reflexivity|]. split.
    + repeat constructor; eauto using enc0_data, enc1_data.
    + right. left. now split.
  - exists [enc0 a; enc1 a b; enc2 b x00], 1%nat. split; [reflexivity|]. split.
    + repeat constructor; eauto using enc0_data, enc1_data, enc2_data.
    + right. right. now split.
  - destruct IH as (X & p & HX & Hdata & Hshape).
    exists (enc0 a :: enc1 a b :: enc2 b c :: enc3 c :: X), p.
    split; [cbn [b64encode app]; now rewrite HX|]. split.
    + repeat constructor; eauto using enc0_data, enc1_data, enc2_data, enc3_data.
    + change (length (enc0 a :: enc1 a b :: enc2 b c :: enc3 c :: X))
        with (1 * 4 + length X)%nat.
      now rewrite Nat.add_comm, Nat.Div0.mod_add.
Qed.

Lemma data_count_replaced X : Forall (fun c => exists v, is_data_char c v = true) X ->
  forall i x, (i < length X)%nat -> table_a2b_base64 x = None ->
  S (data_count (<[i := x]> X)) = length X.
Proof.
  induction 1 as [|c X [v Hc] HX IH]; intros i x Hi Hx; [simpl in Hi; lia|].
  apply is_data_char_spec in Hc as (_ & Hc & _).
  destruct i as [|i]; cbn [insert list_insert data_count length].
  - rewrite Hx. f_equal.
    clear IH Hi. induction HX as [|d X [w Hd] _ IHX]; [reflexivity|].
    apply is_data_char_spec in Hd as (_ & Hd & _).
    cbn [data_count length]. now rewrite Hd, IHX.
  - rewrite Hc. f_equal. apply IH; [simpl in Hi; lia | assumption].
Qed.

(** A data character of an encoded text replaced by a character that is
    neither in the alphabet nor the padding: the text no longer decodes. *)
Lemma urlsafe_b64decode_invalid token i x y :
  urlsafe_b64encode token !! i = Some y -> y <> BASE64_PAD ->
  table_a2b_base64 (urlsafe_decode_translation x) = None ->
  urlsafe_decode_translation x <> BASE64_PAD ->
  urlsafe_b64decode (<[i := x]> (urlsafe_b64encode token)) = None.
Proof.
  intros Hy Hypad Hx Hxpad.
  destruct (b64encode_shape token) as (X & p & HX & Hdata & Hshape).
  assert (Hi : (i < length X)%nat).
  { destruct (le_lt_dec (length X) i) as [Hge|]; [|assumption].
    exfalso. apply Hypad.
    unfold urlsafe_b64encode in Hy. rewrite list_lookup_fmap, HX in Hy.
    rewrite lookup_app_r in Hy by assumption.
    destruct (repeat BASE64_PAD p !! (i - length X)%nat) as [z|] eqn:Hz;
      [|discriminate Hy].
    apply list_elem_of_lookup_2, list_elem_of_In, repeat_spec in Hz. subst z.
    now inversion Hy. }
  unfold urlsafe_b64decode, a2b_base64, urlsafe_b64encode.
  rewrite list_fmap_insert, translation_b64encode, HX.
  rewrite insert_app_l by assumption.
  assert (Hnopad : Forall (fun c => c <> BASE64_PAD)
                     (<[i := urlsafe_decode_translation x]> X)).
  { apply Forall_insert; [|assumption].
    eapply Forall_impl; [exact Hdata|].
    now intros c [v (Hc & _)%is_data_char_spec]. }
  destruct (a2b_loop_no_pad _ Hnopad (repeat BASE64_PAD p) 0 0 [] ltac:(lia))
    as (l' & o' & ->).
  pose proof (data_count_replaced X Hdata i _ Hi Hx) as Hcount.
  apply a2b_loop_pads_short.
  rewrite N.add_0_l.
  set (n := data_count (<[i := urlsafe_decode_translation x]> X)) in *.
  assert (Hmod : N.of_nat n mod 4 = N.of_nat (n mod 4)).
  { change 4 with (N.of_nat 4). now rewrite <- Nat2N.inj_mod. }
  rewrite Hmod.
  assert (Hn : (length X mod 4 = S (n mod 4) mod 4)%nat).
  { rewrite <- Hcount.
    replace (S n) with (n + 1)%nat by lia.
    replace (S (n mod 4)) with (n mod 4 + 1)%nat by lia.
    symmetry. apply Nat.Div0.add_mod_idemp_l. }
  pose proof (Nat.mod_upper_bound n 4 ltac:(lia)) as Hlt.
  destruct Hshape as [[HXm ->]|[[HXm ->]|[HXm ->]]]; rewrite HXm in Hn.
  - right. right. split; [|reflexivity].
    assert ((n mod 4 = 3)%nat) as ->; [|reflexivity].
    destruct (n mod 4)%nat as [|[|[|[|k]]]]; try discriminate Hn; [reflexivity | lia].
  - left.
    assert ((n mod 4 = 1)%nat) as ->; [|reflexivity].
    destruct (n mod 4)%nat as [|[|[|[|k]]]]; try discriminate Hn; [reflexivity | lia].
  - right. left. split; [|lia].
    assert ((n mod 4 = 2)%nat) as ->; [|reflexivity].
    destruct (n mod 4)%nat as [|[|[|[|k]]]]; try discriminate Hn; [reflexivity | lia].
Qed.

(** *** Characters the decoder passes over *)

(** A byte that is neither of the alphabet nor the padding. *)
Definition skipped (c : byte) : Prop :=
  c <> BASE64_PAD /\ table_a2b_base64 c = None.

Lemma a2b_loop_skipped junk : Forall skipped junk ->
  forall rest quad_pos leftchar pads out,
  a2b_loop (junk ++ rest) quad_pos leftchar pads out
  = a2b_loop rest quad_pos leftchar pads out.
Proof.
  induction 1 as [|c junk [Hpad Hnone] _ IH]; intros rest quad_pos leftchar pads out;
    [reflexivity|].
  cbn [app a2b_loop]. destruct (decide (c = BASE64_PAD)); [contradiction|].
  rewrite Hnone. apply IH.
Qed.

(** Such bytes can stand anywhere in the text: the decoder's state does
    not change over them. *)
Lemma a2b_loop_insert_skipped s1 junk s2 : Forall skipped junk ->
  forall quad_pos leftchar pads out,
  a2b_loop (s1 ++ junk ++ s2) quad_pos leftchar pads out
  = a2b_loop (s1 ++ s2) quad_pos leftchar pads out.
Proof.
  intros Hjunk. induction s1 as [|c s1 IH]; intros quad_pos leftchar pads out.
  - cbn [app]. now apply a2b_loop_skipped.
  - cbn [app a2b_loop]. destruct (decide (c = BASE64_PAD)).
    + destruct (_ && _); [reflexivity | apply IH].
    + destruct (table_a2b_base64 c) as [v|]; [|apply IH].
      destruct (quad_pos =? 0); [apply IH|].
      destruct (quad_pos =? 1); [apply IH|].
      destruct (quad_pos =? 2); apply IH.
Qed.

Lemma urlsafe_b64decode_insert_skipped s1 junk s2 :
  Forall (fun c => skipped (urlsafe_decode_translation c)) junk ->
  urlsafe_b64decode (s1 ++ junk ++ s2) = urlsafe_b64decode (s1 ++ s2).
Proof.
  intros Hjunk. unfold urlsafe_b64decode, a2b_base64.
  rewrite !map_app. apply a2b_loop_insert_skipped.
  now apply Forall_map.
Qed.

(** *** The length of what is decoded *)

(** The bytes still owed to the characters of a group already read. *)
Definition owed (quad_pos : N) : nat :=
  if quad_pos =? 0 then 0%nat
  else if quad_pos =? 1 then 3%nat
  else if quad_pos =? 2 then 2%nat else 1%nat.

Lemma a2b_loop_length s : forall quad_pos leftchar pads out r,
  a2b_loop s quad_pos leftchar pads out = Some r ->
  (4 * length r <= 4 * length out + 3 * length s + owed quad_pos)%nat.
Proof.
  induction s as [|c s IH]; intros quad_pos leftchar pads out r; cbn [a2b_loop length].
  - destruct (quad_pos =? 0); [|discriminate]. intros [= <-]. lia.
  - destruct (decide (c = BASE64_PAD)).
    + destruct (_ && _).
      * intros [= <-]. lia.
      * intros H%IH. lia.
    + destruct (table_a2b_base64 c) as [v|]; [|intros H%IH; lia].
      unfold owed. destruct (quad_pos =? 0).
      { intros H%IH. cbn in H. lia. }
      destruct (quad_pos =? 1).
      { intros H%IH. rewrite length_app in H. cbn in H. lia. }
      destruct (quad_pos =? 2); intros H%IH; rewrite length_app in H; cbn in H; lia.
Qed.

(** Four characters for every three bytes, at least. *)
Lemma urlsafe_b64decode_length s r :
  urlsafe_b64decode s = Some r -> (4 * length r <= 3 * length s)%nat.
Proof.
  unfold urlsafe_b64decode, a2b_base64. intros H%a2b_loop_length.
  rewrite length_map in H. cbn in H. lia.
Qed.

(** *** The characters of an encoded text *)

Definition urlsafe_alphabet : bytes :=
  list_byte_of_string
    "ABCDEFGHIJKLMNOPQRSTUVWXYZabcdefghijklmnopqrstuvwxyz0123456789-_".

Definition in_urlsafe_alphabet (c : byte) : bool :=
  existsb (fun x => bool_decide (x = c)) urlsafe_alphabet.

Lemma data_char_urlsafe c v :
  is_data_char c v = true -> in_urlsafe_alphabet (urlsafe_encode_translation c) = true.
Proof.
  intros (Hpad & Hv & _)%is_data_char_spec.
  enough (H : (bool_decide (c = BASE64_PAD)
               || match table_a2b_base64 c with Some _ => false | None => true end
               || in_urlsafe_alphabet (urlsafe_encode_translation c)) = true).
  { rewrite Hv, bool_decide_eq_false_2 in H by assumption. exact H. }
  revert c Hpad Hv. intros c _ _. revert c. apply byte_forall_spec.
  vm_compute. reflexivity.
Qed.

Lemma urlsafe_b64encode_alphabet s :
  Forall (fun c => in_urlsafe_alphabet c = true \/ c = BASE64_PAD) (urlsafe_b64encode s).
Proof.
  unfold urlsafe_b64encode.
  induction s as [|a|a b|a b c s IH] using list_ind3; cbn [b64encode map].
  - constructor.
  - constructor; [left; eapply data_char_urlsafe, enc0_data|].
    constructor; [left; eapply data_char_urlsafe, enc1_data|].
    constructor; [now right|]. constructor; [now right|]. constructor.
  - constructor; [left; eapply data_char_urlsafe, enc0_data|].
    constructor; [left; eapply data_char_urlsafe, enc1_data|].
    constructor; [left; eapply data_char_urlsafe, enc2_data|].
    constructor; [now right|]. constructor.
  - constructor; [left; eapply data_char_urlsafe, enc0_data|].
    constructor; [left; eapply data_char_urlsafe, enc1_data|].
    constructor; [left; eapply data_char_urlsafe, enc2_data|].
    constructor; [left; eapply data_char_urlsafe, enc3_data|].
    exact IH.
Qed.
End Base64.

(** ** Splitting a byte string into blocks *)

Module Blocks.
Fixpoint chunks_fuel {A} (fuel n : nat) (l : list A) : list (list A) :=
  match fuel with
  | O => []
  | S fuel' =>
      match l with
      | [] => []
      | _ => take n l :: chunks_fuel fuel' n (drop n l)
      end
  end.

(** [l[0:n], l[n:2n], ...]; the last block may be short. *)
Definition chunks {A} (n : nat) (l : list A) : list (list A) :=
  chunks_fuel (length l) n l.

Lemma chunks_fuel_app {A} (n : nat) (b : list A) : forall fuel l,
  (0 < n)%nat -> length b = n -> (length (b ++ l) <= fuel)%nat ->
  chunks_fuel fuel n (b ++ l) = b :: chunks_fuel (fuel - 1) n l.
Proof.
  intros [|fuel] l Hn Hb Hf.
  - rewrite length_app in Hf. lia.
  - destruct b as [|x b]; [simpl in Hb; lia|].
    change (chunks_fuel (S fuel) n ((x :: b) ++ l))
      with (take n ((x :: b) ++ l) :: chunks_fuel fuel n (drop n ((x :: b) ++ l))).
    rewrite take_app_length', drop_app_length' by (assumption || (symmetry; assumption)).
    now replace (S fuel - 1)%nat with fuel by lia.
Qed.

Lemma chunks_fuel_enough {A} (n : nat) : forall fuel fuel' (l : list A),
  (0 < n)%nat -> (length l <= fuel)%nat -> (length l <= fuel')%nat ->
  chunks_fuel fuel n l = chunks_fuel fuel' n l.
Proof.
  induction fuel as [|fuel IH]; intros fuel' l Hn H1 H2.
  - destruct l; [|simpl in H1; lia]. now destruct fuel'.
  - destruct fuel' as [|fuel']; [destruct l; [reflexivity | simpl in H2; lia]|].
    cbn [chunks_fuel]. destruct l as [|x l]; [reflexivity|]. f_equal.
    apply IH; [assumption | |]; rewrite length_drop; simpl in *; lia.
Qed.

Lemma chunks_app {A} (n : nat) (b l : list A) :
  (0 < n)%nat -> length b = n -> chunks n (b ++ l) = b :: chunks n l.
Proof.
  intros Hn Hb. unfold chunks. rewrite chunks_fuel_app by (assumption || lia).
  f_equal. apply chunks_fuel_enough; [assumption | | lia].
  rewrite length_app. lia.
Qed.

Lemma chunks_concat {A} (n : nat) (bs : list (list A)) :
  (0 < n)%nat -> Forall (fun b => length b = n) bs -> chunks n (concat bs) = bs.
Proof.
  intros Hn. induction 1 as [|b bs Hb _ IH]; [reflexivity|].
  cbn [concat]. now rewrite chunks_app, IH.
Qed.
Lemma concat_chunks_fuel {A} (n : nat) : forall fuel (l : list A),
  (0 < n)%nat -> (length l <= fuel)%nat -> concat (chunks_fuel fuel n l) = l.
Proof.
  induction fuel as [|fuel IH]; intros l Hn Hl.
  - destruct l; [reflexivity | simpl in Hl; lia].
  - destruct l as [|x l]; [reflexivity|].
    change (concat (take n (x :: l) :: chunks_fuel fuel n (drop n (x :: l))) = x :: l).
    cbn [concat]. rewrite IH; [apply take_drop | assumption |].
    rewrite length_drop. simpl in *. lia.
Qed.

Lemma concat_chunks {A} (n : nat) (l : list A) :
  (0 < n)%nat -> concat (chunks n l) = l.
Proof. intros Hn. now apply concat_chunks_fuel. Qed.

Lemma chunks_fuel_Forall_length {A} (n : nat) : forall fuel (l : list A),
  (0 < n)%nat -> (length l <= fuel)%nat -> (length l mod n = 0)%nat ->
  Forall (fun b => length b = n) (chunks_fuel fuel n l).
Proof.
  induction fuel as [|fuel IH]; intros l Hn Hl Hmod; [constructor|].
  destruct l as [|x l]; [constructor|].
  change (Forall (fun b => length b = n)
            (take n (x :: l) :: chunks_fuel fuel n (drop n (x :: l)))).
  assert (Hge : (n <= length (x :: l))%nat).
  { destruct (le_lt_dec n (length (x :: l))) as [|Hlt]; [assumption|].
    rewrite Nat.mod_small in Hmod by assumption. simpl in Hmod. lia. }
  constructor.
  - rewrite length_take. lia.
  - apply IH; [assumption | |]; rewrite length_drop.
    + simpl in *. lia.
    + replace (length (x :: l)) with ((length (x :: l) - n) + 1 * n)%nat in Hmod by lia.
      now rewrite Nat.Div0.mod_add in Hmod.
Qed.

Lemma chunks_Forall_length {A} (n : nat) (l : list A) :
  (0 < n)%nat -> (length l mod n = 0)%nat ->
  Forall (fun b => length b = n) (chunks n l).
Proof. intros Hn Hmod. now apply chunks_fuel_Forall_length. Qed.
End Blocks.
Export Blocks.

(** ** SHA-256 (FIPS 180-4) and HMAC (RFC 2104), the tag of a Fernet token *)

Module SHA256.
Local Open Scope N_scope.

Definition mask32 : N := 0xFFFFFFFF.
Definition add32 (x y : N) : N := N.land (x + y) mask32.
Definition rotr (n x : N) : N :=
  N.lor (N.shiftr x n) (N.land (N.shiftl x (32 - n)) mask32).
Definition Ch (x y z : N) : N :=
  N.lxor (N.land x y) (N.land (N.lxor x mask32) z).
Definition Maj (x y z : N) : N :=
  N.lxor (N.lxor (N.land x y) (N.land x z)) (N.land y z).
Definition Sigma0 (x : N) : N := N.lxor (N.lxor (rotr 2 x) (rotr 13 x)) (rotr 22 x).
Definition Sigma1 (x : N) : N := N.lxor (N.lxor (rotr 6 x) (rotr 11 x)) (rotr 25 x).
Definition sigma0 (x : N) : N := N.lxor (N.lxor (rotr 7 x) (rotr 18 x)) (N.shiftr x 3).
Definition sigma1 (x : N) : N := N.lxor (N.lxor (rotr 17 x) (rotr 19 x)) (N.shiftr x 10).

(** The first [n] primes, by trial division. *)
Fixpoint primes_from (fuel : nat) (candidate : N) (found : list N) (n : nat) : list N :=
  match fuel, n with
  | O, _ | _, O => []
  | S fuel', S n' =>
      if forallb (fun p => negb (candidate mod p =? 0)) found
      then candidate :: primes_from fuel' (candidate + 1) (found ++ [candidate]) n'
      else primes_from fuel' (candidate + 1) found n
  end.

Definition first_primes (n : nat) : list N := primes_from 400 2 [] n.

(** The integer cube root, one bit at a time. *)
Fixpoint cube_root_bits (bits : nat) (n r : N) : N :=
  match bits with
  | O => r
  | S bits' =>
      let r' := r + 2 ^ N.of_nat bits' in
      cube_root_bits bits' n (if r' * r' * r' <=? n then r' else r)
  end.

(** The round constants: the first 32 bits of the fractional parts of the
    cube roots of the first 64 primes. *)
Definition K : list N :=
  Eval vm_compute in
    map (fun p => N.land (cube_root_bits 36 (p * 2 ^ 96) 0) mask32) (first_primes 64).

Record hash_state := HashState {
  ha : N; hb : N; hc : N; hd : N; he : N; hf : N; hg : N; hh : N
}.

(** The initial hash value: the first 32 bits of the fractional parts of the
    square roots of the first 8 primes. *)
Definition H0 : hash_state :=
  Eval vm_compute in
    match map (fun p => N.land (N.sqrt (p * 2 ^ 64)) mask32) (first_primes 8) with
    | [a; b; c; d; e; f; g; h] => HashState a b c d e f g h
    | _ => HashState 0 0 0 0 0 0 0 0
    end.

(** The message schedule [W_0 .. W_63]: [w] holds the last sixteen words. *)
Fixpoint schedule (rounds : nat) (w : list N) : list N :=
  match rounds with
  | O => []
  | S rounds' =>
      let w0 := nth 0 w 0 in
      let next :=
        add32 (add32 (add32 (sigma1 (nth 14 w 0)) (nth 9 w 0)) (sigma0 (nth 1 w 0))) w0 in
      w0 :: schedule rounds' (tl w ++ [next])
  end.

Definition round (s : hash_state) (kw : N * N) : hash_state :=
  let (k, w) := kw in
  let t1 := add32 (add32 (add32 (add32 (hh s) (Sigma1 (he s))) (Ch (he s) (hf s) (hg s))) k) w in
  let t2 := add32 (Sigma0 (ha s)) (Maj (ha s) (hb s) (hc s)) in
  HashState (add32 t1 t2) (ha s) (hb s) (hc s) (add32 (hd s) t1) (he s) (hf s) (hg s).

Definition compress (s : hash_state) (block : bytes) : hash_state :=
  let w := map from_bytes_be (chunks 4 block) in
  let r := fold_left round (combine K (schedule 64 w)) s in
  HashState (add32 (ha s) (ha r)) (add32 (hb s) (hb r)) (add32 (hc s) (hc r))
            (add32 (hd s) (hd r)) (add32 (he s) (he r)) (add32 (hf s) (hf r))
            (add32 (hg s) (hg r)) (add32 (hh s) (hh r)).

Definition pad (msg : bytes) : bytes :=
  let len := length msg in
  msg ++ [x80] ++ repeat x00 ((64 - (len + 9) mod 64) mod 64)
      ++ to_bytes_be 8 (N.of_nat len * 8).

Definition digest_of (s : hash_state) : bytes :=
  to_bytes_be 4 (ha s) ++ to_bytes_be 4 (hb s) ++ to_bytes_be 4 (hc s)
  ++ to_bytes_be 4 (hd s) ++ to_bytes_be 4 (he s) ++ to_bytes_be 4 (hf s)
  ++ to_bytes_be 4 (hg s) ++ to_bytes_be 4 (hh s).

Definition sha256 (msg : bytes) : bytes :=
  digest_of (fold_left compress (chunks 64 (pad msg)) H0).

Lemma sha256_length msg : length (sha256 msg) = 32%nat.
Proof.
  unfold sha256, digest_of. now rewrite !length_app, !to_bytes_be_length.
Qed.

Definition block_size : nat := 64.

Definition xor_byte (c : N) (b : byte) : byte := byte_of_N (N.lxor (Byte.to_N b) c).

(** [hmac.HMAC(key, SHA256)] over [msg]. *)
Definition hmac_sha256 (key msg : bytes) : bytes :=
  let key' := if (block_size <? length key)%nat then sha256 key else key in
  let key0 := key' ++ repeat x00 (block_size - length key') in
  sha256 (map (xor_byte 0x5c) key0 ++ sha256 (map (xor_byte 0x36) key0 ++ msg)).

Lemma hmac_sha256_length key msg : length (hmac_sha256 key msg) = 32%nat.
Proof. apply sha256_length. Qed.

Definition hex_digit (n : N) : byte :=
  nth (N.to_nat n) (list_byte_of_string "0123456789abcdef") x00.

Definition hexlify (b : bytes) : string :=
  string_of_list_byte
    (flat_map (fun x => [hex_digit (Byte.to_N x / 16); hex_digit (Byte.to_N x mod 16)]) b).

Example sha256_abc :
  hexlify (sha256 (list_byte_of_string "abc"))
  = "ba7816bf8f01cfea414140de5dae2223b00361a396177a9cb410ff61f20015ad"%string.
Proof. vm_compute. reflexivity. Qed.

Example sha256_two_blocks :
  hexlify (sha256 (list_byte_of_string
     "abcdbcdecdefdefgefghfghighijhijkijkljklmklmnlmnomnopnopq"))
  = "248d6a61d20638b8e5c026930c3e6039a33ce45964ff2167f6ecedd419db06c1"%string.
Proof. vm_compute. reflexivity. Qed.

(** RFC 4231, test case 2. *)
Example hmac_sha256_rfc4231 :
  hexlify (hmac_sha256 (list_byte_of_string "Jefe")
             (list_byte_of_string "what do ya want for nothing?"))
  = "5bdcc146bf60754e6a042426089575c75a003f089d2739839dec58b964ec3843"%string.
Proof. vm_compute. reflexivity. Qed.
End SHA256.

(** ** AES-128 (FIPS 197), the block cipher of a Fernet token *)

Module AES.
Definition bits8 : Type :=
  (bool * (bool * (bool * (bool * (bool * (bool * (bool * bool)))))))%type.

(** Bits are listed from the least significant one, as [Byte.to_bits]. *)
Definition xor8 (x y : bits8) : bits8 :=
  let '(x0, (x1, (x2, (x3, (x4, (x5, (x6, x7))))))) := x in
  let '(y0, (y1, (y2, (y3, (y4, (y5, (y6, y7))))))) := y in
  (xorb x0 y0, (xorb x1 y1, (xorb x2 y2, (xorb x3 y3,
    (xorb x4 y4, (xorb x5 y5, (xorb x6 y6, xorb x7 y7))))))).

(** Multiplication by [x] in GF(2^8) modulo [x^8 + x^4 + x^3 + x + 1]. *)
Definition xtime8 (x : bits8) : bits8 :=
  let '(x0, (x1, (x2, (x3, (x4, (x5, (x6, x7))))))) := x in
  (x7, (xorb x0 x7, (x1, (xorb x2 x7, (xorb x3 x7, (x4, (x5, x6))))))).

Definition rotl8 (x : bits8) : bits8 :=
  let '(x0, (x1, (x2, (x3, (x4, (x5, (x6, x7))))))) := x in
  (x7, (x0, (x1, (x2, (x3, (x4, (x5, x6))))))).

Definition bxor (a b : byte) : byte :=
  Byte.of_bits (xor8 (Byte.to_bits a) (Byte.to_bits b)).
Definition xtime (a : byte) : byte := Byte.of_bits (xtime8 (Byte.to_bits a)).
Definition rotl (a : byte) : byte := Byte.of_bits (rotl8 (Byte.to_bits a)).

Infix "⊕" := bxor (at level 50, left associativity).

(** [a * b] in GF(2^8): the sum of [x^i * a] over the bits [i] set in [b]. *)
Definition gmul (a b : byte) : byte :=
  let '(b0, (b1, (b2, (b3, (b4, (b5, (b6, b7))))))) := Byte.to_bits b in
  let sel (c : bool) (v : byte) := if c then v else x00 in
  let a1 := xtime a in let a2 := xtime a1 in let a3 := xtime a2 in
  let a4 := xtime a3 in let a5 := xtime a4 in let a6 := xtime a5 in
  let a7 := xtime a6 in
  sel b0 a ⊕ sel b1 a1 ⊕ sel b2 a2 ⊕ sel b3 a3
  ⊕ sel b4 a4 ⊕ sel b5 a5 ⊕ sel b6 a6 ⊕ sel b7 a7.

Fixpoint gpow (a : byte) (n : nat) : byte :=
  match n with O => x01 | S n' => gmul a (gpow a n') end.

(** The S-box: the affine map applied to the multiplicative inverse
    [a^254]. *)
Definition sbox_table : bytes :=
  Eval vm_compute in
    map (fun a => let i := gpow a 254 in
                  i ⊕ rotl i ⊕ rotl (rotl i) ⊕ rotl (rotl (rotl i))
                  ⊕ rotl (rotl (rotl (rotl i))) ⊕ x63) all_bytes.

Definition sbox (a : byte) : byte :=
  nth (N.to_nat (Byte.to_N a)) sbox_table x00.

Definition inv_sbox_table : bytes :=
  Eval vm_compute in
    map (fun y => default x00 (List.find (fun x => bool_decide (sbox x = y)) all_bytes))
        all_bytes.

Definition inv_sbox (a : byte) : byte :=
  nth (N.to_nat (Byte.to_N a)) inv_sbox_table x00.

Definition col : Type := (byte * byte * byte * byte)%type.
Definition state : Type := (col * col * col * col)%type.

Definition col_map (f : byte -> byte) (c : col) : col :=
  let '(a0, a1, a2, a3) := c in (f a0, f a1, f a2, f a3).
Definition col_xor (c d : col) : col :=
  let '(a0, a1, a2, a3) := c in
  let '(b0, b1, b2, b3) := d in (a0 ⊕ b0, a1 ⊕ b1, a2 ⊕ b2, a3 ⊕ b3).
Definition state_map (f : col -> col) (s : state) : state :=
  let '(c0, c1, c2, c3) := s in (f c0, f c1, f c2, f c3).

Definition sub_bytes : state -> state := state_map (col_map sbox).
Definition inv_sub_bytes : state -> state := state_map (col_map inv_sbox).

Definition shift_rows (s : state) : state :=
  let '((a0, a1, a2, a3), (b0, b1, b2, b3), (c0, c1, c2, c3), (d0, d1, d2, d3)) := s in
  ((a0, b1, c2, d3), (b0, c1, d2, a3), (c0, d1, a2, b3), (d0, a1, b2, c3)).

Definition inv_shift_rows (s : state) : state :=
  let '((a0, a1, a2, a3), (b0, b1, b2, b3), (c0, c1, c2, c3), (d0, d1, d2, d3)) := s in
  ((a0, d1, c2, b3), (b0, a1, d2, c3), (c0, b1, a2, d3), (d0, c1, b2, a3)).

Definition mul2 (a : byte) : byte := xtime a.
Definition mul3 (a : byte) : byte := xtime a ⊕ a.
Definition mul9 (a : byte) : byte := xtime (xtime (xtime a)) ⊕ a.
Definition mul11 (a : byte) : byte := xtime (xtime (xtime a)) ⊕ xtime a ⊕ a.
Definition mul13 (a : byte) : byte := xtime (xtime (xtime a)) ⊕ xtime (xtime a) ⊕ a.
Definition mul14 (a : byte) : byte :=
  xtime (xtime (xtime a)) ⊕ xtime (xtime a) ⊕ xtime a.

Definition mix_column (c : col) : col :=
  let '(a0, a1, a2, a3) := c in
  (mul2 a0 ⊕ mul3 a1 ⊕ a2 ⊕ a3,
   a0 ⊕ mul2 a1 ⊕ mul3 a2 ⊕ a3,
   a0 ⊕ a1 ⊕ mul2 a2 ⊕ mul3 a3,
   mul3 a0 ⊕ a1 ⊕ a2 ⊕ mul2 a3).

Definition inv_mix_column (c : col) : col :=
  let '(a0, a1, a2, a3) := c in
  (mul14 a0 ⊕ mul11 a1 ⊕ mul13 a2 ⊕ mul9 a3,
   mul9 a0 ⊕ mul14 a1 ⊕ mul11 a2 ⊕ mul13 a3,
   mul13 a0 ⊕ mul9 a1 ⊕ mul14 a2 ⊕ mul11 a3,
   mul11 a0 ⊕ mul13 a1 ⊕ mul9 a2 ⊕ mul14 a3).

Definition mix_columns : state -> state := state_map mix_column.
Definition inv_mix_columns : state -> state := state_map inv_mix_column.

Definition add_round_key (rk s : state) : state :=
  let '(k0, k1, k2, k3) := rk in
  let '(c0, c1, c2, c3) := s in
  (col_xor c0 k0, col_xor c1 k1, col_xor c2 k2, col_xor c3 k3).

(** One step of the key expansion: the next four words from the last
    four and the round constant. *)
Definition next_round_key (rcon : byte) (rk : state) : state :=
  let '(k0, k1, k2, k3) := rk in
  let '(t0, t1, t2, t3) := k3 in
  let k0' := col_xor k0 (sbox t1 ⊕ rcon, sbox t2, sbox t3, sbox t0) in
  let k1' := col_xor k1 k0' in
  let k2' := col_xor k2 k1' in
  let k3' := col_xor k3 k2' in
  (k0', k1', k2', k3').

Fixpoint expand (n : nat) (rcon : byte) (rk : state) : list state :=
  match n with
  | O => []
  | S n' => let rk' := next_round_key rcon rk in rk' :: expand n' (xtime rcon) rk'
  end.

Definition round (s rk : state) : state :=
  add_round_key rk (mix_columns (shift_rows (sub_bytes s))).
Definition inv_round (rk s : state) : state :=
  inv_sub_bytes (inv_shift_rows (inv_mix_columns (add_round_key rk s))).
Definition final_round (rk s : state) : state :=
  add_round_key rk (shift_rows (sub_bytes s)).
Definition inv_final_round (rk s : state) : state :=
  inv_sub_bytes (inv_shift_rows (add_round_key rk s)).

Definition cipher (key s : state) : state :=
  let rks := expand 10 x01 key in
  final_round (nth 9 rks key) (fold_left round (take 9 rks) (add_round_key key s)).

Definition inv_cipher (key s : state) : state :=
  let rks := expand 10 x01 key in
  add_round_key key (fold_right inv_round (inv_final_round (nth 9 rks key) s) (take 9 rks)).

Definition zero_col : col := (x00, x00, x00, x00).

Definition state_of_bytes (l : bytes) : state :=
  match l with
  | [a0; a1; a2; a3; b0; b1; b2; b3; c0; c1; c2; c3; d0; d1; d2; d3] =>
      ((a0, a1, a2, a3), (b0, b1, b2, b3), (c0, c1, c2, c3), (d0, d1, d2, d3))
  | _ => (zero_col, zero_col, zero_col, zero_col)
  end.

Definition bytes_of_state (s : state) : bytes :=
  let '((a0, a1, a2, a3), (b0, b1, b2, b3), (c0, c1, c2, c3), (d0, d1, d2, d3)) := s in
  [a0; a1; a2; a3; b0; b1; b2; b3; c0; c1; c2; c3; d0; d1; d2; d3].

Definition aes128_encrypt_block (key block : bytes) : bytes :=
  bytes_of_state (cipher (state_of_bytes key) (state_of_bytes block)).

Definition aes128_decrypt_block (key block : bytes) : bytes :=
  bytes_of_state (inv_cipher (state_of_bytes key) (state_of_bytes block)).

Definition unhex_digit (c : byte) : N :=
  let n := Byte.to_N c in
  if (97 <=? n)%N then (n - 87)%N else (n - 48)%N.

Fixpoint unhexlify_bytes (l : bytes) : bytes :=
  match l with
  | h :: l0 :: rest => byte_of_N (unhex_digit h * 16 + unhex_digit l0) :: unhexlify_bytes rest
  | _ => []
  end.

Definition unhexlify (s : string) : bytes := unhexlify_bytes (list_byte_of_string s).

(** FIPS 197, appendix B and appendix C.1. *)
Example aes128_fips197_b :
  aes128_encrypt_block (unhexlify "2b7e151628aed2a6abf7158809cf4f3c")
                       (unhexlify "3243f6a8885a308d313198a2e0370734")
  = unhexlify "3925841d02dc09fbdc118597196a0b32".
Proof. vm_compute. reflexivity. Qed.

Example aes128_fips197_c1 :
  aes128_encrypt_block (unhexlify "000102030405060708090a0b0c0d0e0f")
                       (unhexlify "00112233445566778899aabbccddeeff")
  = unhexlify "69c4e0d86a7b0430d8cdb78070b4c55a".
Proof. vm_compute. reflexivity. Qed.

Example aes128_fips197_c1_inv :
  aes128_decrypt_block (unhexlify "000102030405060708090a0b0c0d0e0f")
                       (unhexlify "69c4e0d86a7b0430d8cdb78070b4c55a")
  = unhexlify "00112233445566778899aabbccddeeff".
Proof. vm_compute. reflexivity. Qed.
(** *** The inverse cipher inverts the cipher *)

Lemma to_bits_inj a b : Byte.to_bits a = Byte.to_bits b -> a = b.
Proof.
  intros H. rewrite <- (Byte.of_bits_to_bits a), <- (Byte.of_bits_to_bits b).
  now rewrite H.
Qed.

Lemma to_bits_bxor a b :
  Byte.to_bits (a ⊕ b) = xor8 (Byte.to_bits a) (Byte.to_bits b).
Proof. apply Byte.to_bits_of_bits. Qed.

Lemma to_bits_xtime a : Byte.to_bits (xtime a) = xtime8 (Byte.to_bits a).
Proof. apply Byte.to_bits_of_bits. Qed.

Ltac bits_of b :=
  generalize (Byte.to_bits b);
  intros (? & ? & ? & ? & ? & ? & ? & ?).

Ltac bitwise :=
  apply to_bits_inj;
  repeat first [rewrite to_bits_bxor | rewrite to_bits_xtime];
  repeat match goal with
         | |- context [Byte.to_bits ?b] => bits_of b
         end;
  cbv [xor8 xtime8]; repeat f_equal; btauto.

Lemma bxor_cancel a k : a ⊕ k ⊕ k = a.
Proof. bitwise. Qed.

Lemma inv_sbox_sbox a : inv_sbox (sbox a) = a.
Proof.
  apply (bool_decide_eq_true_1 _). revert a. apply byte_forall_spec.
  vm_compute. reflexivity.
Qed.

Lemma inv_sub_bytes_sub_bytes s : inv_sub_bytes (sub_bytes s) = s.
Proof.
  destruct s as [[[[[[a0 a1] a2] a3] [[[b0 b1] b2] b3]] [[[c0 c1] c2] c3]]
                   [[[d0 d1] d2] d3]].
  cbv [inv_sub_bytes sub_bytes state_map col_map].
  now rewrite !inv_sbox_sbox.
Qed.

Lemma inv_shift_rows_shift_rows s : inv_shift_rows (shift_rows s) = s.
Proof.
  now destruct s as [[[[[[a0 a1] a2] a3] [[[b0 b1] b2] b3]] [[[c0 c1] c2] c3]]
                       [[[d0 d1] d2] d3]].
Qed.

Lemma inv_mix_column_mix_column c : inv_mix_column (mix_column c) = c.
Proof.
  destruct c as [[[a0 a1] a2] a3].
  cbv [inv_mix_column mix_column mul2 mul3 mul9 mul11 mul13 mul14].
  repeat apply f_equal2; bitwise.
Qed.

Lemma inv_mix_columns_mix_columns s : inv_mix_columns (mix_columns s) = s.
Proof.
  destruct s as [[[c0 c1] c2] c3]. cbv [inv_mix_columns mix_columns state_map].
  now rewrite !inv_mix_column_mix_column.
Qed.

Lemma col_xor_cancel c k : col_xor (col_xor c k) k = c.
Proof.
  destruct c as [[[a0 a1] a2] a3], k as [[[k0 k1] k2] k3].
  cbv [col_xor]. now rewrite !bxor_cancel.
Qed.

Lemma add_round_key_cancel rk s : add_round_key rk (add_round_key rk s) = s.
Proof.
  destruct s as [[[c0 c1] c2] c3], rk as [[[k0 k1] k2] k3].
  cbv [add_round_key]. now rewrite !col_xor_cancel.
Qed.

Lemma inv_round_round rk s : inv_round rk (round s rk) = s.
Proof.
  unfold inv_round, round.
  now rewrite add_round_key_cancel, inv_mix_columns_mix_columns,
    inv_shift_rows_shift_rows, inv_sub_bytes_sub_bytes.
Qed.

Lemma inv_final_round_final_round rk s : inv_final_round rk (final_round rk s) = s.
Proof.
  unfold inv_final_round, final_round.
  now rewrite add_round_key_cancel, inv_shift_rows_shift_rows,
    inv_sub_bytes_sub_bytes.
Qed.

Lemma inv_rounds_rounds rks : forall s,
  fold_right inv_round (fold_left round rks s) rks = s.
Proof.
  induction rks as [|rk rks IH]; intros s; [reflexivity|].
  cbn [fold_left fold_right]. now rewrite IH, inv_round_round.
Qed.

Lemma inv_cipher_cipher key s : inv_cipher key (cipher key s) = s.
Proof.
  unfold inv_cipher, cipher.
  now rewrite inv_final_round_final_round, inv_rounds_rounds,
    add_round_key_cancel.
Qed.

Lemma bytes_of_state_length s : length (bytes_of_state s) = 16.
Proof.
  now destruct s as [[[[[[a0 a1] a2] a3] [[[b0 b1] b2] b3]] [[[c0 c1] c2] c3]]
                       [[[d0 d1] d2] d3]].
Qed.

Lemma state_of_bytes_of_state s : state_of_bytes (bytes_of_state s) = s.
Proof.
  now destruct s as [[[[[[a0 a1] a2] a3] [[[b0 b1] b2] b3]] [[[c0 c1] c2] c3]]
                       [[[d0 d1] d2] d3]].
Qed.

Lemma bytes_of_state_of_bytes l :
  length l = 16 -> bytes_of_state (state_of_bytes l) = l.
Proof.
  intros H.
  do 16 (destruct l as [|? l]; [discriminate H|]).
  destruct l; [reflexivity | discriminate H].
Qed.

Lemma aes128_encrypt_block_length key block :
  length (aes128_encrypt_block key block) = 16.
Proof. apply bytes_of_state_length. Qed.

Lemma aes128_decrypt_block_length key block :
  length (aes128_decrypt_block key block) = 16.
Proof. apply bytes_of_state_length. Qed.

Lemma aes128_decrypt_encrypt_block key block :
  length block = 16 ->
  aes128_decrypt_block key (aes128_encrypt_block key block) = block.
Proof.
  intros H. unfold aes128_decrypt_block, aes128_encrypt_block.
  now rewrite state_of_bytes_of_state, inv_cipher_cipher, bytes_of_state_of_bytes.
Qed.
End AES.

(** ** PKCS7 padding and CBC mode, as [cryptography] applies them *)

Module CBC.
Import AES.

(** [padding.PKCS7(128).padder()]: one to sixteen bytes, each holding the
    number of bytes added. *)
Definition pkcs7_pad (data : bytes) : bytes :=
  let n := 16 - length data mod 16 in
  data ++ repeat (byte_of_N (N.of_nat n)) n.

(** [padding.PKCS7(128).unpadder()]: [None] is the [ValueError] of
    [finalize]. *)
Definition pkcs7_unpad (data : bytes) : option bytes :=
  if decide (length data = 0 \/ length data mod 16 <> 0) then None
  else
    let pad_size := N.to_nat (Byte.to_N (List.last data x00)) in
    if decide (1 <= pad_size <= 16
               /\ drop (length data - pad_size) data
                  = repeat (List.last data x00) pad_size)
    then Some (take (length data - pad_size) data)
    else None.

Definition xor_bytes (a b : bytes) : bytes := zip_with bxor a b.

Fixpoint cbc_encrypt_blocks (key prev : bytes) (blocks : list bytes) : list bytes :=
  match blocks with
  | [] => []
  | p :: rest =>
      let c := aes128_encrypt_block key (xor_bytes p prev) in
      c :: cbc_encrypt_blocks key c rest
  end.

Fixpoint cbc_decrypt_blocks (key prev : bytes) (blocks : list bytes) : list bytes :=
  match blocks with
  | [] => []
  | c :: rest =>
      xor_bytes (aes128_decrypt_block key c) prev :: cbc_decrypt_blocks key c rest
  end.

(** [Cipher(algorithms.AES(key), modes.CBC(iv)).encryptor()] over data
    whose length is a multiple of the block length. *)
Definition aes_cbc_encrypt (key iv data : bytes) : bytes :=
  concat (cbc_encrypt_blocks key iv (chunks 16 data)).

(** The decryptor; [None] is the [ValueError] for an IV that is not
    sixteen bytes or data that is not a whole number of blocks. *)
Definition aes_cbc_decrypt (key iv data : bytes) : option bytes :=
  if decide (length iv = 16 /\ length data mod 16 = 0)
  then Some (concat (cbc_decrypt_blocks key iv (chunks 16 data)))
  else None.

Lemma pkcs7_pad_length data : length (pkcs7_pad data) = 16 * (length data / 16 + 1).
Proof.
  unfold pkcs7_pad. rewrite length_app, repeat_length.
  pose proof (Nat.div_mod_eq (length data) 16).
  pose proof (Nat.mod_upper_bound (length data) 16). lia.
Qed.

Lemma pkcs7_pad_mod data : length (pkcs7_pad data) mod 16 = 0.
Proof. rewrite pkcs7_pad_length, Nat.mul_comm. apply Nat.Div0.mod_mul. Qed.

Lemma pkcs7_unpad_pad data : pkcs7_unpad (pkcs7_pad data) = Some data.
Proof.
  unfold pkcs7_unpad.
  pose proof (pkcs7_pad_mod data) as Hmod.
  pose proof (pkcs7_pad_length data) as Hlen.
  destruct (decide _) as [[H|H]|_]; [lia | contradiction|].
  unfold pkcs7_pad in *.
  pose proof (Nat.mod_upper_bound (length data) 16 ltac:(lia)) as Hlt.
  set (n := 16 - length data mod 16) in *.
  assert (Hn : 1 <= n <= 16) by (subst n; lia).
  assert (Hlast : List.last (data ++ repeat (byte_of_N (N.of_nat n)) n) x00
                  = byte_of_N (N.of_nat n)).
  { destruct n as [|m]; [lia|].
    cbn [repeat]. rewrite repeat_cons, app_assoc. apply last_last. }
  rewrite Hlast, to_N_byte_of_N, N.mod_small, Nat2N.id by lia.
  rewrite length_app, repeat_length.
  replace (length data + n - n) with (length data) by lia.
  rewrite drop_app_length, take_app_length.
  destruct (decide _) as [_|H]; [reflexivity|].
  exfalso. apply H. split; [assumption | reflexivity].
Qed.

Lemma xor_bytes_length a b :
  length a = length b -> length (xor_bytes a b) = length a.
Proof. intros H. unfold xor_bytes. rewrite length_zip_with. lia. Qed.

Lemma xor_bytes_cancel a : forall b,
  length a = length b -> xor_bytes (xor_bytes a b) b = a.
Proof.
  unfold xor_bytes. induction a as [|x a IH]; intros [|y b] H; try discriminate H.
  - reflexivity.
  - cbn [zip_with]. rewrite bxor_cancel, IH; [reflexivity|]. now inversion H.
Qed.

Lemma cbc_encrypt_blocks_length key blocks : forall prev,
  Forall (fun b => length b = 16) (cbc_encrypt_blocks key prev blocks).
Proof.
  induction blocks as [|p rest IH]; intros prev; cbn [cbc_encrypt_blocks].
  - constructor.
  - constructor; [apply aes128_encrypt_block_length | apply IH].
Qed.

Lemma cbc_decrypt_encrypt_blocks key blocks : forall prev,
  length prev = 16 -> Forall (fun b => length b = 16) blocks ->
  cbc_decrypt_blocks key prev (cbc_encrypt_blocks key prev blocks) = blocks.
Proof.
  induction blocks as [|p rest IH]; intros prev Hprev Hall; [reflexivity|].
  inversion Hall as [|? ? Hp Hrest]; subst.
  cbn [cbc_encrypt_blocks cbc_decrypt_blocks].
  rewrite aes128_decrypt_encrypt_block
    by (rewrite xor_bytes_length; congruence).
  rewrite xor_bytes_cancel by congruence.
  rewrite IH; [reflexivity | apply aes128_encrypt_block_length | assumption].
Qed.

Lemma aes_cbc_encrypt_length key iv data :
  length data mod 16 = 0 -> length (aes_cbc_encrypt key iv data) = length data.
Proof.
  intros Hmod. unfold aes_cbc_encrypt.
  pose proof (chunks_Forall_length 16 data ltac:(lia) Hmod) as Hall.
  rewrite <- (concat_chunks 16 data) at 2 by lia.
  revert iv. induction Hall as [|b bs Hb _ IH]; intros iv; [reflexivity|].
  cbn [cbc_encrypt_blocks concat]. rewrite !length_app, IH.
  now rewrite aes128_encrypt_block_length, Hb.
Qed.

Lemma aes_cbc_decrypt_encrypt key iv data :
  length iv = 16 -> length data mod 16 = 0 ->
  aes_cbc_decrypt key iv (aes_cbc_encrypt key iv data) = Some data.
Proof.
  intros Hiv Hmod. unfold aes_cbc_decrypt.
  rewrite aes_cbc_encrypt_length by assumption.
  destruct (decide _) as [_|H]; [|exfalso; apply H; now split].
  unfold aes_cbc_encrypt.
  rewrite chunks_concat by (lia || apply cbc_encrypt_blocks_length).
  rewrite cbc_decrypt_encrypt_blocks
    by (assumption || apply chunks_Forall_length; lia || assumption).
  now rewrite concat_chunks by lia.
Qed.
End CBC.

(** ** Python exceptions and results *)

Inductive exn : Type :=
  | FileNotFoundError (msg : string)
  | FileExistsError (msg : string)
  | PermissionError (msg : string)
  | OSError (msg : string)
  | ValueError (msg : string)
  | ImportError (msg : string)
  | InvalidToken
  | Exception (msg : string)      (* any other subclass of [Exception] *)
  | SystemExit (code : Z)
  | KeyboardInterrupt.

(** [isinstance(e, Exception)]: what [except Exception] catches. *)
Definition is_Exception (e : exn) : bool :=
  match e with
  | SystemExit _ | KeyboardInterrupt => false
  | _ => true
  end.

(** [str(e)], as an f-string formats it. *)
Definition str_exn (e : exn) : string :=
  match e with
  | FileNotFoundError msg | FileExistsError msg | PermissionError msg
  | OSError msg | ValueError msg | ImportError msg | Exception msg => msg
  | InvalidToken | KeyboardInterrupt => ""
  | SystemExit code => pretty code
  end.

Inductive result (A : Type) : Type :=
  | Ok (a : A)
  | Raise (e : exn).
Arguments Ok {A} a.
Arguments Raise {A} e.

Definition is_Ok {A} (r : result A) : bool :=
  match r with Ok _ => true | Raise _ => false end.

(** ** [cryptography.fernet.Fernet] *)

Module Fernet.
Import Base64 SHA256 CBC.

Record t := mk {
  _signing_key : bytes;
  _encryption_key : bytes
}.

Definition key_error : exn :=
  ValueError "Fernet key must be 32 url-safe base64-encoded bytes.".

(** [Fernet(key)]. *)
Definition new (key : bytes) : result t :=
  match urlsafe_b64decode key with
  | None => Raise key_error
  | Some k =>
      if decide (length k = 32) then Ok (mk (take 16 k) (drop 16 k))
      else Raise key_error
  end.

(** [Fernet._encrypt_from_parts(data, current_time, iv)]: [encrypt] calls
    it with [int(time.time())] and [os.urandom(16)]. *)
Definition _encrypt_from_parts (f : t) (data : bytes) (current_time : N)
    (iv : bytes) : bytes :=
  let padded_data := pkcs7_pad data in
  let ciphertext := aes_cbc_encrypt (_encryption_key f) iv padded_data in
  let basic_parts := [x80] ++ to_bytes_be 8 current_time ++ iv ++ ciphertext in
  let hmac := hmac_sha256 (_signing_key f) basic_parts in
  urlsafe_b64encode (basic_parts ++ hmac).

(** [Fernet._get_unverified_token_data(token)]. *)
Definition _get_unverified_token_data (token : bytes) : result (N * bytes) :=
  match urlsafe_b64decode token with
  | None => Raise InvalidToken
  | Some data =>
      match data with
      | [] => Raise InvalidToken
      | first :: _ =>
          if decide (first <> x80) then Raise InvalidToken
          else if decide (length data < 9) then Raise InvalidToken
          else Ok (from_bytes_be (drop 1 (take 9 data)), data)
      end
  end.

(** [Fernet._verify_signature(data)]: the last 32 bytes against the HMAC
    of the rest. *)
Definition _verify_signature (f : t) (data : bytes) : bool :=
  bool_decide (hmac_sha256 (_signing_key f) (take (length data - 32) data)
               = drop (length data - 32) data).

(** [Fernet._decrypt_data(data, timestamp, None)]. *)
Definition _decrypt_data (f : t) (data : bytes) : result bytes :=
  if negb (_verify_signature f data) then Raise InvalidToken
  else
    let iv := drop 9 (take 25 data) in
    let ciphertext := drop 25 (take (length data - 32) data) in
    if decide (length iv <> 16)
    then Raise (ValueError ("Invalid IV size (" +:+ pretty (length iv) +:+ ") for CBC."))
    else
      match aes_cbc_decrypt (_encryption_key f) iv ciphertext with
      | None => Raise InvalidToken
      | Some plaintext_padded =>
          match pkcs7_unpad plaintext_padded with
          | None => Raise InvalidToken
          | Some unpadded => Ok unpadded
          end
      end.

(** [Fernet.decrypt(token)] with no [ttl]. *)
Definition decrypt (f : t) (token : bytes) : result bytes :=
  match _get_unverified_token_data token with
  | Raise e => Raise e
  | Ok (_, data) => _decrypt_data f data
  end.

(** The token of the Fernet specification's test vector
    ([generate.json]). *)
Example spec_generate :
  option_map
    (fun f => _encrypt_from_parts f (list_byte_of_string "hello") 499162800
                (AES.unhexlify "000102030405060708090a0b0c0d0e0f"))
    (match new (list_byte_of_string "cw_0x689RpI-jtRR7oE8h_eQsKImvJapLeSbXpwF4e4=") with
     | Ok f => Some f | Raise _ => None end)
  = Some (list_byte_of_string
      "gAAAAAAdwJ6wAAECAwQFBgcICQoLDA0ODy021cpGVWKZ_eEwCGM4BLLF_5CV9dOPmrhuVUPgJobwOz7JcbmrR64jVmpU4IwqDA==").
Proof. vm_compute. reflexivity. Qed.
(** *** Properties *)

Definition valid_key (key : bytes) : Prop :=
  exists k, urlsafe_b64decode key = Some k /\ length k = 32.

Lemma new_valid key : valid_key key -> exists f, new key = Ok f.
Proof.
  intros (k & Hk & Hlen). unfold new. rewrite Hk.
  destruct (decide _); [eauto | contradiction].
Qed.

Lemma new_invalid key : ~ valid_key key -> new key = Raise key_error.
Proof.
  intros H. unfold new. destruct (urlsafe_b64decode key) as [k|] eqn:Hk; [|reflexivity].
  destruct (decide _) as [Hlen|]; [|reflexivity].
  exfalso. apply H. now exists k.
Qed.

Lemma new_Ok_valid key f : new key = Ok f -> valid_key key.
Proof.
  unfold new. destruct (urlsafe_b64decode key) as [k|] eqn:Hk; [|discriminate].
  destruct (decide _) as [Hlen|]; [|discriminate]. intros _. now exists k.
Qed.

Definition basic_parts (f : t) (data : bytes) (current_time : N) (iv : bytes) : bytes :=
  [x80] ++ to_bytes_be 8 current_time ++ iv
    ++ aes_cbc_encrypt (_encryption_key f) iv (pkcs7_pad data).

Lemma _encrypt_from_parts_eq f data current_time iv :
  _encrypt_from_parts f data current_time iv
  = urlsafe_b64encode
      (basic_parts f data current_time iv
       ++ hmac_sha256 (_signing_key f) (basic_parts f data current_time iv)).
Proof. reflexivity. Qed.

Lemma take_signed (body tag : bytes) :
  length tag = 32 -> take (length (body ++ tag) - 32) (body ++ tag) = body.
Proof.
  intros H. rewrite length_app, H.
  replace (length body + 32 - 32) with (length body) by lia.
  apply take_app_length.
Qed.

Lemma drop_signed (body tag : bytes) :
  length tag = 32 -> drop (length (body ++ tag) - 32) (body ++ tag) = tag.
Proof.
  intros H. rewrite length_app, H.
  replace (length body + 32 - 32) with (length body) by lia.
  apply drop_app_length.
Qed.

Lemma _verify_signature_signed f body :
  _verify_signature f (body ++ hmac_sha256 (_signing_key f) body) = true.
Proof.
  unfold _verify_signature.
  rewrite take_signed, drop_signed by apply hmac_sha256_length.
  now apply bool_decide_eq_true_2.
Qed.

Lemma _decrypt_data_signed f data current_time iv :
  length iv = 16 ->
  _decrypt_data f
    (basic_parts f data current_time iv
     ++ hmac_sha256 (_signing_key f) (basic_parts f data current_time iv))
  = Ok data.
Proof.
  intros Hiv. unfold _decrypt_data.
  rewrite _verify_signature_signed. cbn [negb].
  rewrite take_signed by apply hmac_sha256_length.
  set (ct := aes_cbc_encrypt (_encryption_key f) iv (pkcs7_pad data)).
  assert (Hhead : length ([x80] ++ to_bytes_be 8 current_time) = 9)
    by (rewrite length_app, to_bytes_be_length; reflexivity).
  assert (Hiv' : drop 9 (take 25 (basic_parts f data current_time iv
                   ++ hmac_sha256 (_signing_key f) (basic_parts f data current_time iv)))
                 = iv).
  { unfold basic_parts. fold ct.
    rewrite (app_assoc [x80]), (app_assoc _ iv), <- (app_assoc _ ct).
    rewrite take_app_length' by (rewrite length_app, Hhead, Hiv; reflexivity).
    now rewrite drop_app_length' by assumption. }
  assert (Hct : drop 25 (basic_parts f data current_time iv) = ct).
  { unfold basic_parts. fold ct.
    rewrite (app_assoc [x80]), (app_assoc _ iv).
    now rewrite drop_app_length' by (rewrite length_app, Hhead, Hiv; reflexivity). }
  rewrite Hiv', Hct.
  destruct (decide _) as [H|_]; [contradiction|].
  subst ct. rewrite aes_cbc_decrypt_encrypt by (assumption || apply pkcs7_pad_mod).
  now rewrite pkcs7_unpad_pad.
Qed.

Lemma basic_parts_length f data current_time iv :
  length iv = 16 ->
  length (basic_parts f data current_time iv) = 25 + 16 * (length data / 16 + 1).
Proof.
  intros Hiv. unfold basic_parts.
  rewrite !length_app, to_bytes_be_length, Hiv,
    aes_cbc_encrypt_length, pkcs7_pad_length by apply pkcs7_pad_mod.
  reflexivity.
Qed.

(** Decryption inverts encryption, whatever the timestamp and the IV. *)
Lemma decrypt_encrypt f data current_time iv :
  length iv = 16 ->
  decrypt f (_encrypt_from_parts f data current_time iv) = Ok data.
Proof.
  intros Hiv. unfold decrypt, _get_unverified_token_data.
  rewrite _encrypt_from_parts_eq, urlsafe_b64decode_encode.
  pose proof (basic_parts_length f data current_time iv Hiv) as Hlen.
  destruct (basic_parts f data current_time iv ++ _) as [|first rest] eqn:E.
  { apply (f_equal length) in E. rewrite length_app in E. simpl in E. lia. }
  assert (first = x80) as -> by (unfold basic_parts in E; now inversion E).
  destruct (decide (x80 <> x80)) as [H|_]; [contradiction|].
  destruct (decide _) as [H|_].
  { apply (f_equal length) in E. rewrite length_app in E. lia. }
  rewrite <- E. now apply _decrypt_data_signed.
Qed.

(** The length of a token: the spec's fixed overhead. *)
Definition token_length (n : nat) : nat :=
  4 * ((57 + 16 * (n / 16 + 1) + 2) / 3).

Lemma _encrypt_from_parts_length f data current_time iv :
  length iv = 16 ->
  length (_encrypt_from_parts f data current_time iv) = token_length (length data).
Proof.
  intros Hiv. rewrite _encrypt_from_parts_eq, urlsafe_b64encode_length.
  rewrite length_app, hmac_sha256_length, basic_parts_length by assumption.
  unfold token_length. do 3 f_equal. lia.
Qed.

(** Three bytes inside the tag of signed bytes replaced by others. *)
Lemma replaced_in_tag (body tag group' : bytes) (g : nat) :
  length tag = 32 -> length body <= 3 * g -> 3 * g + 3 <= length body + 32 ->
  length group' = 3 ->
  group' <> take 3 (drop (3 * g) (body ++ tag)) ->
  exists tag',
    take (3 * g) (body ++ tag) ++ group' ++ drop (3 * g + 3) (body ++ tag)
    = body ++ tag'
    /\ length tag' = 32 /\ tag' <> tag.
Proof.
  intros Htag Hlo Hhi Hgroup Hdiff.
  set (k := 3 * g - length body).
  rewrite drop_app_ge in Hdiff by assumption. fold k in Hdiff.
  exists (take k tag ++ group' ++ drop (k + 3) tag).
  split; [|split].
  - rewrite take_app_ge by assumption. rewrite drop_app_ge by lia.
    fold k. replace (3 * g + 3 - length body) with (k + 3) by lia.
    now rewrite <- app_assoc.
  - rewrite !length_app, length_take, length_drop. lia.
  - intros E. apply Hdiff.
    rewrite <- (take_drop k tag) in E at 3.
    apply app_inv_head in E.
    rewrite <- (take_drop 3 (drop k tag)) in E.
    rewrite drop_drop in E.
    apply app_inj_1 in E as [E _]; [exact E|].
    rewrite Hgroup, length_take, length_drop. lia.
Qed.
End Fernet.

(** ** The process and its environment

    [World] is what the Python process can observe and change: the files,
    the clock and the entropy source, the temporary names [tempfile] would
    try, [sys.platform], [sys.argv], [os.environ], [sys.modules] with the
    module objects it refers to, what has been printed, and what the
    extension files bound into the process keep between two calls. The
    files are regular files the process may read and write, each named by
    one path: directories, permissions and links are not part of it. *)

(** A module object: [__name__] may have been deleted. *)
Record ModuleObj := mkModule {
  mod___name__ : option string;
  mod___file__ : string
}.

Record World := mkWorld {
  fs : gmap string bytes;          (* regular files, by path *)
  disk_free : nat;                 (* bytes the volume still accepts *)
  undeletable : gset string;       (* paths the OS refuses to unlink *)
  time_now : N;                    (* [int(time.time())] *)
  urandom : nat -> byte;           (* the stream behind [os.urandom] *)
  urandom_pos : nat;
  tmp_candidates : list string;    (* the names [tempfile] draws, in order *)
  sys_platform : string;
  sys_argv : list string;
  environ : gmap string string;
  sys_modules : gmap string nat;   (* name to module object *)
  heap : gmap nat ModuleObj;       (* module objects, by identity *)
  stdout : list string;
  native : gmap string nat         (* extension files that ran their module
                                      body, with the module they ran it for *)
}.

Definition set_fs (f : gmap string bytes -> gmap string bytes) (w : World) : World :=
  mkWorld (f (fs w)) (disk_free w) (undeletable w) (time_now w) (urandom w)
    (urandom_pos w) (tmp_candidates w) (sys_platform w) (sys_argv w) (environ w)
    (sys_modules w) (heap w) (stdout w) (native w).
Definition set_disk_free (n : nat) (w : World) : World :=
  mkWorld (fs w) n (undeletable w) (time_now w) (urandom w)
    (urandom_pos w) (tmp_candidates w) (sys_platform w) (sys_argv w) (environ w)
    (sys_modules w) (heap w) (stdout w) (native w).
Definition set_urandom_pos (n : nat) (w : World) : World :=
  mkWorld (fs w) (disk_free w) (undeletable w) (time_now w) (urandom w)
    n (tmp_candidates w) (sys_platform w) (sys_argv w) (environ w)
    (sys_modules w) (heap w) (stdout w) (native w).
Definition set_tmp_candidates (l : list string) (w : World) : World :=
  mkWorld (fs w) (disk_free w) (undeletable w) (time_now w) (urandom w)
    (urandom_pos w) l (sys_platform w) (sys_argv w) (environ w)
    (sys_modules w) (heap w) (stdout w) (native w).
Definition set_environ (e : gmap string string) (w : World) : World :=
  mkWorld (fs w) (disk_free w) (undeletable w) (time_now w) (urandom w)
    (urandom_pos w) (tmp_candidates w) (sys_platform w) (sys_argv w) e
    (sys_modules w) (heap w) (stdout w) (native w).
Definition set_sys_argv (a : list string) (w : World) : World :=
  mkWorld (fs w) (disk_free w) (undeletable w) (time_now w) (urandom w)
    (urandom_pos w) (tmp_candidates w) (sys_platform w) a (environ w)
    (sys_modules w) (heap w) (stdout w) (native w).
Definition set_sys_modules (f : gmap string nat -> gmap string nat) (w : World) : World :=
  mkWorld (fs w) (disk_free w) (undeletable w) (time_now w) (urandom w)
    (urandom_pos w) (tmp_candidates w) (sys_platform w) (sys_argv w) (environ w)
    (f (sys_modules w)) (heap w) (stdout w) (native w).
Definition set_heap (f : gmap nat ModuleObj -> gmap nat ModuleObj) (w : World) : World :=
  mkWorld (fs w) (disk_free w) (undeletable w) (time_now w) (urandom w)
    (urandom_pos w) (tmp_candidates w) (sys_platform w) (sys_argv w) (environ w)
    (sys_modules w) (f (heap w)) (stdout w) (native w).
Definition set_stdout (f : list string -> list string) (w : World) : World :=
  mkWorld (fs w) (disk_free w) (undeletable w) (time_now w) (urandom w)
    (urandom_pos w) (tmp_candidates w) (sys_platform w) (sys_argv w) (environ w)
    (sys_modules w) (heap w) (f (stdout w)) (native w).
Definition set_native (f : gmap string nat -> gmap string nat) (w : World) : World :=
  mkWorld (fs w) (disk_free w) (undeletable w) (time_now w) (urandom w)
    (urandom_pos w) (tmp_candidates w) (sys_platform w) (sys_argv w) (environ w)
    (sys_modules w) (heap w) (stdout w) (f (native w)).

(** One call of [spec.loader.exec_module(module)]: the module object and
    the [__name__] it had when the call was made. *)
Record ExecCall := mkExecCall {
  call_module : nat;
  call___name__ : option string
}.

(** The state a computation threads: the world, and the log of the
    [exec_module] calls made so far. The log is kept apart from the world
    so that the code being loaded cannot rewrite it. *)
Record Proc := mkProc {
  world : World;
  exec_log : list ExecCall
}.

Definition M (A : Type) : Type := Proc -> result A * Proc.

#[global] Instance M_ret : MRet M := fun A a s => (Ok a, s).
#[global] Instance M_bind : MBind M := fun A B k m s =>
  match m s with
  | (Ok a, s') => k a s'
  | (Raise e, s') => (Raise e, s')
  end.

Definition raise {A} (e : exn) : M A := fun s => (Raise e, s).
Definition lift_result {A} (r : result A) : M A := fun s => (r, s).
Definition get_world : M World := fun s => (Ok (world s), s).
Definition modify_world (f : World -> World) : M unit :=
  fun s => (Ok tt, mkProc (f (world s)) (exec_log s)).

(** [try: body  except Exception as e: handler(e)]. *)
Definition try_except_Exception {A} (body : M A) (handler : exn -> M A) : M A :=
  fun s =>
    match body s with
    | (Raise e, s') => if is_Exception e then handler e s' else (Raise e, s')
    | r => r
    end.

(** [try: body  except: pass]. *)
Definition try_except_pass (body : M unit) : M unit :=
  fun s =>
    match body s with
    | (Raise _, s') => (Ok tt, s')
    | r => r
    end.

(** [try: body  finally: cleanup]. *)
Definition try_finally {A} (body : M A) (cleanup : M unit) : M A :=
  fun s =>
    let (r, s') := body s in
    match cleanup s' with
    | (Ok _, s'') => (r, s'')
    | (Raise e, s'') => (Raise e, s'')
    end.

(** *** Built-ins and library calls *)

Definition print (line : string) : M unit :=
  modify_world (set_stdout (fun out => out ++ [line])).

Definition sys_exit {A} (code : Z) : M A := raise (SystemExit code).

(** The line feed and the double quote, for the texts that hold them. *)
Definition newline : string := String (ascii_of_nat 10) "".
Definition dq : string := String (ascii_of_nat 34) "".

(** [repr(b)] of a [bytes] object, which is also what an f-string puts for
    it: [b'...'], with double quotes instead when the value has a single
    quote and no double quote; the quote and the backslash escaped, tab,
    line feed and carriage return as [\t], [\n], [\r], and every other
    byte outside the printable ASCII range as [\xhh]. *)
Definition hexdigit (n : N) : ascii :=
  nth (N.to_nat n) (list_ascii_of_string "0123456789abcdef") "0"%char.

Definition repr_byte (quote c : byte) : string :=
  if decide (c = quote \/ c = "\"%byte) then String "\" (String (ascii_of_byte c) "")
  else if decide (c = x09) then "\t"
  else if decide (c = x0a) then "\n"
  else if decide (c = x0d) then "\r"
  else if decide (Byte.to_N c < 32 \/ 127 <= Byte.to_N c)%N
       then "\x" +:+ String (hexdigit (Byte.to_N c / 16))
                      (String (hexdigit (Byte.to_N c mod 16)) "")
  else String (ascii_of_byte c) "".

Definition repr_bytes (s : bytes) : string :=
  let quote :=
    if bool_decide ("'"%byte ∈ s) && negb (bool_decide (x22 ∈ s)) then x22 else "'"%byte in
  "b" +:+ String (ascii_of_byte quote)
            (fold_right (fun c acc => repr_byte quote c +:+ acc)
               (String (ascii_of_byte quote) "") s).

(** The exit status of the process whose main program ended with [r]. *)
Definition exit_status {A} (r : result A) : Z :=
  match r with
  | Ok _ => 0
  | Raise (SystemExit code) => code
  | Raise _ => 1
  end.

Definition time_time : M N := w ← get_world; mret (time_now w).

Definition os_urandom (n : nat) : M bytes :=
  w ← get_world;
  modify_world (set_urandom_pos (urandom_pos w + n));;
  mret (map (urandom w) (seq (urandom_pos w) n)).

Definition os_path_exists (path : string) : M bool :=
  w ← get_world; mret (bool_decide (is_Some (fs w !! path))).

(** [open(path, 'rb').read()], for a path that names a regular file the
    process may read, or names nothing: of the errors [open] can raise the
    model has [FileNotFoundError] only. *)
Definition read_file (path : string) : M bytes :=
  w ← get_world;
  match fs w !! path with
  | Some data => mret data
  | None =>
      raise (FileNotFoundError ("[Errno 2] No such file or directory: '" +:+ path +:+ "'"))
  end.

(** [open(path, 'wb')]: the file is created, or emptied when it exists.
    The call always succeeds here, and two paths name the same file only
    when they are the same string. *)
Definition open_wb (path : string) : M unit :=
  modify_world (set_fs (<[path := []]>)).

(** [f.write(data)] up to the close of [f]: the bytes are appended in
    order; when the volume runs out of room the ones that fit stay in the
    file and [OSError] is raised. *)
Definition file_write (path : string) (data : bytes) : M unit :=
  w ← get_world;
  let old := default [] (fs w !! path) in
  if decide (length data <= disk_free w) then
    modify_world (fun w => set_disk_free (disk_free w - length data)
                             (set_fs (<[path := old ++ data]>) w))
  else
    modify_world (fun w => set_disk_free 0
                             (set_fs (<[path := old ++ take (disk_free w) data]>) w));;
    raise (OSError "[Errno 28] No space left on device").

(** [os.unlink(path)]. *)
Definition os_unlink (path : string) : M unit :=
  w ← get_world;
  match fs w !! path with
  | None =>
      raise (FileNotFoundError ("[Errno 2] No such file or directory: '" +:+ path +:+ "'"))
  | Some _ =>
      if decide (path ∈ undeletable w)
      then raise (PermissionError ("[Errno 13] Permission denied: '" +:+ path +:+ "'"))
      else modify_world (set_fs (delete path))
  end.

(** [tempfile.NamedTemporaryFile(suffix=suffix, delete=False)] up to the
    opening of the file: the first candidate name that is free is created
    empty; the names tried are used up. *)
Fixpoint mkstemp (suffix : string) (candidates : list string) (w : World)
    : option string * list string :=
  match candidates with
  | [] => (None, [])
  | c :: rest =>
      if decide (is_Some (fs w !! (c +:+ suffix))) then mkstemp suffix rest w
      else (Some (c +:+ suffix), rest)
  end.

Definition NamedTemporaryFile (suffix : string) : M string :=
  w ← get_world;
  let (name, rest) := mkstemp suffix (tmp_candidates w) w in
  modify_world (set_tmp_candidates rest);;
  match name with
  | None => raise (FileExistsError "[Errno 17] No usable temporary file name found")
  | Some path => modify_world (set_fs (<[path := []]>));; mret path
  end.

(** [Fernet.encrypt(data)]. *)
Definition Fernet_encrypt (f : Fernet.t) (data : bytes) : M bytes :=
  current_time ← time_time;
  iv ← os_urandom 16;
  mret (Fernet._encrypt_from_parts f data current_time iv).

(** [Fernet.generate_key()]. *)
Definition Fernet_generate_key : M bytes :=
  key ← os_urandom 32;
  mret (Base64.urlsafe_b64encode key).

(** *** [os.path], in its POSIX flavour *)

Module os_path.
Definition slash : ascii := "/"%char.
Definition dot : ascii := "."%char.

(** The characters after the last [sep], or all of them. *)
Fixpoint after_last (sep : ascii) (l : list ascii) : list ascii :=
  match l with
  | [] => []
  | c :: l' =>
      if existsb (Ascii.eqb sep) l' then after_last sep l'
      else if Ascii.eqb c sep then l' else c :: l'
  end.

(** [posixpath.basename]. *)
Definition basename (p : string) : string :=
  string_of_list_ascii (after_last slash (list_ascii_of_string p)).

(** [s.rfind(c)], counted from the start; [None] for -1. *)
Fixpoint rfind (c : ascii) (l : list ascii) : option nat :=
  match l with
  | [] => None
  | x :: l' =>
      match rfind c l' with
      | Some i => Some (S i)
      | None => if Ascii.eqb x c then Some 0 else None
      end
  end.

(** [genericpath._splitext(p, '/', None, '.')]: the extension starts at
    the last dot of the last component, unless only dots precede it. *)
Definition splitext (p : string) : string * string :=
  let l := list_ascii_of_string p in
  let sepIndex := rfind slash l in
  match rfind dot l with
  | None => (p, "")
  | Some dotIndex =>
      let filenameIndex := match sepIndex with Some i => S i | None => 0 end in
      if bool_decide (filenameIndex <= dotIndex)
         && existsb (fun c => negb (Ascii.eqb c dot))
              (take (dotIndex - filenameIndex) (drop filenameIndex l))
      then (string_of_list_ascii (take dotIndex l),
            string_of_list_ascii (drop dotIndex l))
      else (p, "")
  end.

(** [posixpath.join(a, b)]. *)
Definition join (a b : string) : string :=
  match b with
  | String c _ =>
      if Ascii.eqb c slash then b
      else if bool_decide (a = "") || Ascii.eqb (List.last (list_ascii_of_string a) dot) slash
           then a +:+ b
           else a +:+ "/" +:+ b
  | EmptyString =>
      if bool_decide (a = "") || Ascii.eqb (List.last (list_ascii_of_string a) dot) slash
      then a
      else a +:+ "/"
  end.

Example basename_dir : basename "dist/app.encrypted" = "app.encrypted".
Proof. reflexivity. Qed.
Example splitext_app : splitext "app.encrypted" = ("app", ".encrypted").
Proof. reflexivity. Qed.
Example splitext_so :
  splitext "app.cpython-311-x86_64-linux-gnu.so.encrypted"
  = ("app.cpython-311-x86_64-linux-gnu.so", ".encrypted").
Proof. reflexivity. Qed.
Example splitext_hidden : splitext ".encrypted" = (".encrypted", "").
Proof. reflexivity. Qed.
End os_path.

(** [s.endswith(suffix)]. *)
Definition endswith (s suffix : string) : bool :=
  bool_decide (drop (String.length s - String.length suffix) (list_ascii_of_string s)
               = list_ascii_of_string suffix).

(** [s.startswith(prefix)]. *)
Definition startswith (s prefix : string) : bool :=
  bool_decide (take (String.length prefix) (list_ascii_of_string s)
               = list_ascii_of_string prefix).

(** [s[:-n]] for [n > 0]. *)
Definition drop_last (n : nat) (s : string) : string :=
  string_of_list_ascii (take (String.length s - n) (list_ascii_of_string s)).

(** *** The import machinery

    What [importlib] and the platform's dynamic loader do with a staged
    file depends on the host and on the native code in the file; both are
    parameters of the model. They act on the world, not on the log. *)

Record ModuleSpec := mkSpec {
  spec_name : string;
  spec_origin : string
}.

Record Host := mkHost {
  (** [importlib.util.spec_from_file_location(name, location)]: [None] when
      no loader handles the file name. *)
  spec_from_file_location : string -> string -> option ModuleSpec;
  (** [spec.loader.create_module(spec)]: binds the file into the process and
      returns the module object its initialisation function makes. *)
  create_module : ModuleSpec -> World -> result ModuleObj * World;
  (** What one call of [spec.loader.exec_module(module)] does: the
      extension's own code decides whether it runs the module body, also
      for a module it has run it for before. *)
  exec_module_code : ModuleSpec -> nat -> World -> result unit * World
}.

Definition lift_world {A} (f : World -> result A * World) : M A :=
  fun s => let (r, w') := f (world s) in (r, mkProc w' (exec_log s)).

Section importlib.
Variable host : Host.

(** [importlib.util.module_from_spec(spec)]: the new module object gets
    [__name__] from the spec unless it already has one. *)
Definition module_from_spec (spec : ModuleSpec) : M nat :=
  obj ← lift_world (create_module host spec);
  w ← get_world;
  let module := fresh (dom (heap w)) in
  let name := match mod___name__ obj with
              | Some n => Some n
              | None => Some (spec_name spec)
              end in
  modify_world (set_heap (<[module := mkModule name (mod___file__ obj)]>));;
  mret module.

(** [spec.loader.exec_module(module)]. *)
Definition exec_module (spec : ModuleSpec) (module : nat) : M unit :=
  w ← get_world;
  (fun s => (Ok tt, mkProc (world s)
               (exec_log s ++ [mkExecCall module (heap w !! module ≫= mod___name__)])));;
  lift_world (exec_module_code host spec module).
End importlib.

(** [hasattr(module, '__name__')]. *)
Definition hasattr___name__ (module : nat) : M bool :=
  w ← get_world; mret (bool_decide (is_Some (heap w !! module ≫= mod___name__))).

(** [module.__name__ = name]. *)
Definition setattr___name__ (module : nat) (name : string) : M unit :=
  modify_world (set_heap (alter (fun o => mkModule (Some name) (mod___file__ o)) module)).

(** ** encrypt_compiled.py *)

Module CompiledEncryptor.
(** The class object: [ENCRYPTION_KEY] is a class attribute. *)
Record cls := Cls { ENCRYPTION_KEY : bytes }.

(** The class as the module defines it. *)
Definition CompiledEncryptor : cls :=
  Cls (list_byte_of_string "2A4cD5H-9n-y2SrQRT3UZ9cPaZFo5a0iAdRQeT7ZnUw=").

Definition generate_key (c : cls) : M bytes :=
  key ← Fernet_generate_key;
  print ("Generated encryption key: " +:+ repr_bytes key);;
  print "Update ENCRYPTION_KEY in both encrypt_compiled.py and runtime_loader.py";;
  mret key.

Definition encrypt_file (c : cls) (file_path : string) (output_path : option string)
    : M string :=
  let output_path :=
    match output_path with
    | None => file_path +:+ ".encrypted"
    | Some p => p
    end in
  (* Read the compiled file *)
  data ← read_file file_path;
  (* Encrypt the data *)
  fernet ← lift_result (Fernet.new (ENCRYPTION_KEY c));
  encrypted_data ← Fernet_encrypt fernet data;
  (* Save encrypted file *)
  open_wb output_path;;
  file_write output_path encrypted_data;;
  print ("File encrypted successfully: " +:+ output_path);;
  mret output_path.
End CompiledEncryptor.

(** The script part of [encrypt_compiled.py]. What the user types at a
    prompt of [input] is a parameter. *)
Module encrypt_compiled.
Import CompiledEncryptor.

Section script.
Variable input : string -> M string.

Definition __main__ : M unit :=
  w ← get_world;
  if decide (length (sys_argv w) = 1) then
    choice ← input ("1. Generate new key" +:+ newline +:+ "2. Encrypt compiled file"
                    +:+ newline +:+ "Choose (1/2): ");
    if decide (choice = "1") then
      generate_key CompiledEncryptor;; mret tt
    else if decide (choice = "2") then
      compiled_file ← input "Enter path to compiled file (.pyd/.so): ";
      found ← os_path_exists compiled_file;
      if (found : bool) return M unit then
        encrypt_file CompiledEncryptor compiled_file None;; mret tt
      else print "File not found!"
    else mret tt
  else if decide (length (sys_argv w) = 2) then
    (* Direct file encryption *)
    let compiled_file := nth 1 (sys_argv w) "" in
    found ← os_path_exists compiled_file;
    if (found : bool) return M unit then
      encrypt_file CompiledEncryptor compiled_file None;; mret tt
    else print "File not found!"
  else mret tt.
End script.
End encrypt_compiled.

(** ** runtime_loader.py *)

Module CythonRuntimeLoader.
Record cls := Cls { DECRYPTION_KEY : bytes }.

Definition CythonRuntimeLoader : cls :=
  Cls (list_byte_of_string "2A4cD5H-9n-y2SrQRT3UZ9cPaZFo5a0iAdRQeT7ZnUw=").

Record t := mk {
  class : cls;
  encrypted_file_path : string;
  module_name : string
}.

Definition __init__ (c : cls) (encrypted_file_path : string)
    (module_name : option string) : t :=
  let derived := fst (os_path.splitext (os_path.basename encrypted_file_path)) in
  let module_name :=
    match module_name with
    | None => derived
    | Some n => if decide (n = "") then derived else n
    end in
  let module_name :=
    if endswith module_name ".encrypted" then drop_last 10 module_name
    else module_name in
  mk c encrypted_file_path module_name.

Definition decrypt_error : exn :=
  ValueError "Failed to decrypt file. Invalid encryption key.".

Definition _decrypt_file (self : t) : M bytes :=
  encrypted_data ← read_file (encrypted_file_path self);
  fernet ← lift_result (Fernet.new (DECRYPTION_KEY (class self)));
  try_except_Exception
    (lift_result (Fernet.decrypt fernet encrypted_data))
    (fun e => raise decrypt_error).

Definition _get_extension_suffix : M string :=
  w ← get_world;
  if decide (sys_platform w = "win32") then mret ".pyd" else mret ".so".

Section load.
Variable host : Host.

(** The body of the inner [try]: load the extension module and execute
    it. *)
Definition load_staged (self : t) (temp_file_path : string) : M nat :=
  match spec_from_file_location host (module_name self) temp_file_path with
  | None => raise (ImportError ("Could not load spec for " +:+ temp_file_path))
  | Some spec =>
      module ← module_from_spec host spec;
      (* Add to sys.modules *)
      modify_world (set_sys_modules (<[module_name self := module]>));;
      (* Execute the module *)
      exec_module host spec module;;
      has_name ← hasattr___name__ module;
      (if (has_name : bool) return M unit then
         setattr___name__ module "__main__";;
         (* Re-execute to trigger __main__ block *)
         exec_module host spec module
       else mret tt);;
      mret module
  end.

Definition load_and_run (self : t) : M nat :=
  try_except_Exception
    ((* Decrypt the compiled extension *)
     decrypted_data ← _decrypt_file self;
     (* Create temporary file with correct extension *)
     suffix ← _get_extension_suffix;
     temp_file_path ← (temp_file ← NamedTemporaryFile suffix;
                       file_write temp_file decrypted_data;;
                       mret temp_file);
     try_finally
       (load_staged self temp_file_path)
       ((* Clean up temporary file *)
        try_except_pass (os_unlink temp_file_path)))
    (fun e =>
       print ("Error loading encrypted extension: " +:+ str_exn e);;
       sys_exit 1).

Definition main : M unit :=
  w ← get_world;
  if decide (length (sys_argv w) <> 2) then
    print "Usage: python runtime_loader.py <encrypted_compiled_file>";;
    sys_exit 1
  else
    let encrypted_file := nth 1 (sys_argv w) "" in
    found ← os_path_exists encrypted_file;
    if negb found then
      print ("Encrypted file not found: " +:+ encrypted_file);;
      sys_exit 1
    else
      let loader := __init__ CythonRuntimeLoader encrypted_file None in
      load_and_run loader;;
      mret tt.
End load.
End CythonRuntimeLoader.

(** ** app_launcher.py *)

Module app_launcher.
Import CythonRuntimeLoader.

Definition ENCRYPTED_APP_NAME : string := "app.encrypted".

Definition main (host : Host) : M unit :=
  (* Check if encrypted file exists *)
  found ← os_path_exists ENCRYPTED_APP_NAME;
  if negb found then
    print ("Encrypted application not found: " +:+ ENCRYPTED_APP_NAME);;
    sys_exit 1
  else
    (* Load and run the encrypted application *)
    let loader := __init__ CythonRuntimeLoader ENCRYPTED_APP_NAME None in
    load_and_run host loader;;
    mret tt.
End app_launcher.

(** ** cythonize_app.py

    The build tools work on directories and start another process; what
    they do is a parameter of the model, as the import machinery is. *)

(** [subprocess.CompletedProcess], with the output captured as text. *)
Record CompletedProcess := mkCompletedProcess {
  returncode : Z;
  completed_stdout : string;
  completed_stderr : string
}.

Record BuildHost := mkBuildHost {
  sys_executable : string;
  os_getcwd : World -> result string * World;
  (** [os.makedirs(path, exist_ok=True)]. *)
  os_makedirs : string -> World -> result unit * World;
  (** [with open(path, 'w') as f: f.write(text)]. *)
  write_text : string -> string -> World -> result unit * World;
  (** [shutil.copy2(src, dst)]. *)
  shutil_copy2 : string -> string -> World -> result unit * World;
  (** [subprocess.run(args, cwd=cwd, capture_output=True, text=True)]. *)
  subprocess_run : list string -> string -> World -> result CompletedProcess * World;
  os_listdir : string -> World -> result (list string) * World;
  shutil_rmtree : string -> World -> result unit * World
}.

Module cythonize_app.
Definition setup_content (base_name source_file : string) : string :=
  String.concat newline
    [ "";
      "import sys";
      "from setuptools import setup, Extension";
      "from Cython.Build import cythonize";
      "from Cython.Compiler import Options";
      "";
      "# Disable docstrings to reduce file size";
      "Options.docstrings = False";
      "";
      "# Define the extension";
      "extensions = [";
      "    Extension(";
      "        " +:+ dq +:+ base_name +:+ dq +:+ ",";
      "        [" +:+ dq +:+ source_file +:+ dq +:+ "],";
      "        language_level=3,  # Use Python 3";
      "    )";
      "]";
      "";
      "# Setup configuration";
      "setup(";
      "    name=" +:+ dq +:+ base_name +:+ dq +:+ ",";
      "    ext_modules=cythonize(";
      "        extensions,";
      "        compiler_directives={";
      "            'language_level': 3,";
      "            'embedsignature': False,";
      "            'boundscheck': False,";
      "            'wraparound': False,";
      "            'initializedcheck': False,";
      "            'nonecheck': False,";
      "        }";
      "    ),";
      "    zip_safe=False,";
      ")";
      "" ].

(** The file a listing entry is taken for the compiled extension. *)
Definition is_compiled_extension (base_name file : string) : bool :=
  startswith file base_name && (endswith file ".pyd" || endswith file ".so").

Section compile.
Variable host : BuildHost.

(** The [try] block of [compile_to_cython] with its [except] clause. *)
Definition run_setup (output_dir base_name setup_file : string) : M (option string) :=
  try_except_Exception
    ((* Run the compilation *)
     print "Compiling with Cython...";;
     result ← lift_world
                (subprocess_run host
                   [sys_executable host; setup_file; "build_ext"; "--inplace"] output_dir);
     if decide (returncode result <> 0%Z) then
       print "Compilation failed!";;
       print ("STDOUT: " +:+ completed_stdout result);;
       print ("STDERR: " +:+ completed_stderr result);;
       mret None
     else
       print "Compilation successful!";;
       (* Find the compiled extension file *)
       files ← lift_world (os_listdir host output_dir);
       match List.find (is_compiled_extension base_name) files with
       | Some file =>
           let compiled_file := os_path.join output_dir file in
           print ("Compiled extension: " +:+ compiled_file);;
           mret (Some compiled_file)
       | None =>
           print "Could not find compiled extension file!";;
           mret None
       end)
    (fun e => print ("Compilation error: " +:+ str_exn e);; mret None).

(** The [finally] block: clean up temporary files. *)
Definition remove_temporary_files (setup_file source_copy : string) : M unit :=
  try_except_pass (os_unlink setup_file;; os_unlink source_copy).

Definition compile_to_cython (source_file : string) (output_dir : option string)
    : M (option string) :=
  let output_dir := default "../build" output_dir in
  found ← os_path_exists source_file;
  if negb found then
    raise (FileNotFoundError ("Source file not found: " +:+ source_file))
  else
    (* Create build directory *)
    lift_world (os_makedirs host output_dir);;
    (* Get base name without extension *)
    let base_name := fst (os_path.splitext (os_path.basename source_file)) in
    (* Write setup script *)
    let setup_file := os_path.join output_dir "setup_temp.py" in
    lift_world (write_text host setup_file (setup_content base_name source_file));;
    (* Copy source file to build directory *)
    let source_copy := os_path.join output_dir (os_path.basename source_file) in
    lift_world (shutil_copy2 host source_file source_copy);;
    try_finally
      (run_setup output_dir base_name setup_file)
      (remove_temporary_files setup_file source_copy).

(** [if compiled_file:] for a value that is [None] or a string. *)
Definition truthy (compiled_file : option string) : bool :=
  match compiled_file with
  | None | Some EmptyString => false
  | Some _ => true
  end.

Definition __main__ : M unit :=
  w ← get_world;
  if decide (length (sys_argv w) <> 2) then
    print "Usage: python cythonize_app.py <python_file>";;
    sys_exit 1
  else
    let source_file := nth 1 (sys_argv w) "" in
    compiled_file ← compile_to_cython source_file None;
    if truthy compiled_file then
      print ("Successfully compiled: " +:+ default "" compiled_file)
    else
      print "Compilation failed!";;
      sys_exit 1.
End compile.
End cythonize_app.

(** ** build_encrypted_app.py *)

Module build_encrypted_app.
Import cythonize_app.

Section build.
Variable host : BuildHost.

Definition build_encrypted_application (source_file : string) (cleanup : bool) : M bool :=
  print ("Building encrypted application from: " +:+ source_file);;
  (* Step 1: Compile to Cython *)
  print (newline +:+ "=== Step 1: Compiling with Cython ===");;
  compiled_file ← compile_to_cython host source_file None;
  if negb (truthy compiled_file) then
    print "Failed to compile with Cython!";;
    mret false
  else
    let compiled_file := default "" compiled_file in
    (* Step 2: Encrypt the compiled file *)
    print (newline +:+ "=== Step 2: Encrypting compiled extension ===");;
    encrypted_file ← CompiledEncryptor.encrypt_file CompiledEncryptor.CompiledEncryptor
                       compiled_file None;
    (* Step 3: Copy encrypted file to main directory *)
    let final_name :=
      fst (os_path.splitext (os_path.basename source_file)) +:+ ".encrypted" in
    cwd ← lift_world (os_getcwd host);
    let final_path := os_path.join cwd final_name in
    lift_world (shutil_copy2 host encrypted_file final_path);;
    print (newline +:+ "=== Build Complete ===");;
    print ("Encrypted application: " +:+ final_path);;
    print ("Run with: python runtime_loader.py " +:+ final_name);;
    (* Cleanup build directory *)
    (if cleanup return M unit then
       try_except_pass
         (lift_world (shutil_rmtree host "build");;
          print "Build directory cleaned up.")
     else mret tt);;
    mret true.

Definition __main__ : M unit :=
  w ← get_world;
  if decide (length (sys_argv w) <> 2) then
    print "Usage: python build_encrypted_app.py <python_file>";;
    print "This will compile your Python file with Cython and encrypt it.";;
    sys_exit 1
  else
    let source_file := nth 1 (sys_argv w) "" in
    found ← os_path_exists source_file;
    if negb found then
      print ("Source file not found: " +:+ source_file);;
      sys_exit 1
    else
      success ← build_encrypted_application source_file true;
      if negb success then
        print "Build failed!";;
        sys_exit 1
      else mret tt.
End build.
End build_encrypted_app.

(** ** A concrete host and world, for running the code *)

Module demo.
Import CompiledEncryptor CythonRuntimeLoader.

Definition K0 : bytes := ENCRYPTION_KEY CompiledEncryptor.
Definition P0 : bytes := list_byte_of_string "hello payload".

(** A Linux host with the source binary [app.so] in the working
    directory. *)
Definition w0 : World :=
  mkWorld {[ "app.so" := P0 ]} 4096 ∅ 499162800
    (fun n => byte_of_N (N.of_nat n)) 0 ["/tmp/tmpk3v9x0aq"; "/tmp/tmp_7dq1m2c"]
    "linux" ["runtime_loader.py"; "app.so.encrypted"] ∅ ∅ ∅ [] ∅.

Definition s0 : Proc := mkProc w0 [].

(** What [exec_module] does for an extension module that Cython built.
    The file keeps the module object it ran its body for. The body runs
    when the file has not run it yet; a later call for the same module
    object returns at once, and a call for another module object raises
    [RuntimeError]. [body] gives the lines the module body prints, from the
    [__name__] the module has while it runs. *)
Definition cython_exec (body : option string -> list string)
    (spec : ModuleSpec) (module : nat) (w : World) : result unit * World :=
  match native w !! spec_origin spec with
  | Some initialised =>
      if bool_decide (initialised = module) then (Ok tt, w)
      else
        (Raise (Exception ("Module '" +:+ spec_name spec +:+
                           "' has already been imported. Re-initialisation is not supported.")),
         w)
  | None =>
      (Ok tt,
       set_stdout (fun out => out ++ body (heap w !! module ≫= mod___name__))
         (set_native <[spec_origin spec := module]> w))
  end.

(** An import system that accepts every staged file and runs it as a
    Cython-built module with the given body. *)
Definition cython_host (body : option string -> list string) : Host :=
  mkHost
    (fun name location => Some (mkSpec name location))
    (fun spec w => (Ok (mkModule (Some (spec_name spec)) (spec_origin spec)), w))
    (cython_exec body).

(** A payload that does its work at module level, as [app.py] does with
    its call of [main()]: it prints the [__name__] it runs under. *)
Definition host0 : Host :=
  cython_host (fun name => ["running as " +:+ default "" name]).


(** The artifact [encrypt_file] writes in [w0]. *)
Definition A0 : bytes :=
  list_byte_of_string
    "gAAAAAAdwJ6wAAECAwQFBgcICQoLDA0OD34oxrEfH_RqzCXQGeqWNnL4Cllh6_ul6nZGkmufws5ie4ngbgTKhWx9T8yabkuBBQ==".

(** The world after [encrypt_file] has run in [w0]. *)
Definition w1 : World :=
  mkWorld {[ "app.so" := P0; "app.so.encrypted" := A0 ]} 3996 ∅ 499162800
    (fun n => byte_of_N (N.of_nat n)) 16 ["/tmp/tmpk3v9x0aq"; "/tmp/tmp_7dq1m2c"]
    "linux" ["runtime_loader.py"; "app.so.encrypted"] ∅ ∅ ∅
    ["File encrypted successfully: app.so.encrypted"] ∅.

Definition s1 : Proc := mkProc w1 [].

(** The cipher object of the key in the source. *)
Definition f0 : Fernet.t :=
  Eval vm_compute in
    match Fernet.new K0 with Ok f => f | Raise _ => Fernet.mk [] [] end.

(** [w0] on a volume with room for 40 more bytes. *)
Definition s_small : Proc := mkProc (set_disk_free 40 w0) [].

(** Another valid key (the one of the Fernet specification's examples),
    its cipher object, and [w0] with that key in the environment and on the
    command line. *)
Definition other_key : string := "cw_0x689RpI-jtRR7oE8h_eQsKImvJapLeSbXpwF4e4=".

Definition f_other : Fernet.t :=
  Eval vm_compute in
    match Fernet.new (list_byte_of_string other_key) with
    | Ok f => f
    | Raise _ => Fernet.mk [] []
    end.

Definition s_configured : Proc :=
  mkProc (set_environ {[ "ENCRYPTION_KEY" := other_key ]}
            (set_sys_argv ["encrypt_compiled.py"; "app.so"; other_key] w0)) [].

(** The loader [main] builds for [app.so.encrypted]. *)
Definition loader : CythonRuntimeLoader.t :=
  __init__ CythonRuntimeLoader "app.so.encrypted" None.

(** The first name [tempfile] draws in [w1], with the suffix of the
    platform. *)
Definition staged_path : string := "/tmp/tmpk3v9x0aq.so".

(** [w1] with other bytes in place of the artifact, and with a set of paths
    the OS will not unlink. *)
Definition w1_with (artifact : bytes) (locked : gset string) : World :=
  mkWorld {[ "app.so" := P0; "app.so.encrypted" := artifact ]} 3996 locked 499162800
    (fun n => byte_of_N (N.of_nat n)) 16 ["/tmp/tmpk3v9x0aq"; "/tmp/tmp_7dq1m2c"]
    "linux" ["runtime_loader.py"; "app.so.encrypted"] ∅ ∅ ∅
    ["File encrypted successfully: app.so.encrypted"] ∅.

(** The artifact replaced by bytes that are no token. *)
Definition s_garbage : Proc :=
  mkProc (w1_with (list_byte_of_string "not a token") ∅) [].

(** The OS refuses to delete the staged file (as for a mapped library on
    Windows, or in a directory that became read-only). *)
Definition s_locked : Proc := mkProc (w1_with A0 {[ staged_path ]}) [].

(** The artifact with its character 97, the last one before the padding,
    changed from [Q] to [R]. *)
Definition A0_tampered : bytes := <[97 := "R"%byte]> A0.

Definition s_tampered : Proc := mkProc (w1_with A0_tampered ∅) [].

(** An import system whose dynamic loader rejects the staged file. *)
Definition host_rejecting : Host :=
  mkHost
    (fun name location => Some (mkSpec name location))
    (fun spec w => (Raise (ImportError "invalid ELF header"), w))
    (fun spec module w => (Ok tt, w)).

(** A payload whose code raises. *)
Definition host_raising : Host :=
  mkHost
    (fun name location => Some (mkSpec name location))
    (fun spec w => (Ok (mkModule (Some (spec_name spec)) (spec_origin spec)), w))
    (fun spec module w => (Raise (Exception "division by zero"), w)).
End demo.

(** * Properties *)

(** ** Stepping through monadic code *)

(** Closed facts about the demo world are settled by running the code. *)
Ltac by_computation :=
  lazymatch goal with
  | |- _ /\ _ => split; [vm_compute; reflexivity | by_computation]
  | |- _ => vm_compute; reflexivity
  end.

Lemma bind_Ok {A B} (m : M A) (k : A -> M B) s a s' :
  m s = (Ok a, s') -> (m ≫= k) s = k a s'.
Proof. intros H. unfold mbind, M_bind. now rewrite H. Qed.

Lemma bind_Raise {A B} (m : M A) (k : A -> M B) s e s' :
  m s = (Raise e, s') -> (m ≫= k) s = (Raise e, s').
Proof. intros H. unfold mbind, M_bind. now rewrite H. Qed.

Lemma bind_inv {A B} (m : M A) (k : A -> M B) s r s' :
  (m ≫= k) s = (r, s') ->
  (exists a s1, m s = (Ok a, s1) /\ k a s1 = (r, s'))
  \/ (exists e, m s = (Raise e, s') /\ r = Raise e).
Proof.
  unfold mbind, M_bind. destruct (m s) as [[a|e] s1]; intros H.
  - left. eauto.
  - right. inversion H; subst. eauto.
Qed.

Lemma proc_eta s : mkProc (world s) (exec_log s) = s.
Proof. now destruct s. Qed.

Lemma read_file_Some path data s :
  fs (world s) !! path = Some data -> read_file path s = (Ok data, s).
Proof. intros H. cbv [read_file get_world mbind M_bind mret M_ret]. now rewrite H. Qed.

Lemma read_file_None path s :
  fs (world s) !! path = None ->
  exists msg, read_file path s = (Raise (FileNotFoundError msg), s).
Proof.
  intros H. cbv [read_file get_world mbind M_bind mret M_ret raise].
  rewrite H. eauto.
Qed.

Lemma read_file_inv path s r s' :
  read_file path s = (r, s') ->
  s' = s /\ match r with
            | Ok data => fs (world s) !! path = Some data
            | Raise e => fs (world s) !! path = None /\ is_Exception e = true
            end.
Proof.
  cbv [read_file get_world mbind M_bind mret M_ret raise].
  destruct (fs (world s) !! path); intros H; inversion H; subst; auto.
Qed.

(** The timestamp and the IV the next [Fernet.encrypt] will draw. *)
Definition next_time (w : World) : N := time_now w.
Definition next_iv (w : World) : bytes := map (urandom w) (seq (urandom_pos w) 16).

Lemma next_iv_length w : length (next_iv w) = 16.
Proof. unfold next_iv. now rewrite length_map, length_seq. Qed.

Lemma Fernet_encrypt_eq f data s :
  Fernet_encrypt f data s
  = (Ok (Fernet._encrypt_from_parts f data (next_time (world s)) (next_iv (world s))),
     mkProc (set_urandom_pos (urandom_pos (world s) + 16) (world s)) (exec_log s)).
Proof. reflexivity. Qed.

(** ** [encrypt_file], step by step *)

Module encrypt_file_facts.
Import CompiledEncryptor.

Definition output_of (file_path : string) (output_path : option string) : string :=
  match output_path with
  | None => file_path +:+ ".encrypted"
  | Some p => p
  end.

(** The artifact a call in world [w] produces for payload [P]. *)
Definition artifact (f : Fernet.t) (P : bytes) (w : World) : bytes :=
  Fernet._encrypt_from_parts f P (next_time w) (next_iv w).

Lemma artifact_length f P w :
  length (artifact f P w) = Fernet.token_length (length P).
Proof. apply Fernet._encrypt_from_parts_length, next_iv_length. Qed.

(** A call that finds its input, for a valid key: the whole artifact is
    written when it fits, a prefix of it otherwise. *)
Lemma encrypt_file_run c file_path output_path s P f :
  fs (world s) !! file_path = Some P ->
  Fernet.new (ENCRYPTION_KEY c) = Ok f ->
  exists s',
    encrypt_file c file_path output_path s
    = (if decide (length (artifact f P (world s)) <= disk_free (world s))
       then Ok (output_of file_path output_path)
       else Raise (OSError "[Errno 28] No space left on device"), s')
    /\ fs (world s')
       = <[output_of file_path output_path :=
             take (disk_free (world s)) (artifact f P (world s))]> (fs (world s))
    /\ undeletable (world s') = undeletable (world s)
    /\ tmp_candidates (world s') = tmp_candidates (world s)
    /\ sys_modules (world s') = sys_modules (world s)
    /\ exec_log s' = exec_log s.
Proof.
  intros Hfs Hnew. unfold encrypt_file. fold (output_of file_path output_path).
  rewrite (bind_Ok _ _ _ _ _ (read_file_Some _ _ _ Hfs)).
  rewrite Hnew.
  erewrite (bind_Ok (lift_result (Ok f))) by reflexivity.
  erewrite bind_Ok by apply Fernet_encrypt_eq.
  fold (artifact f P (world s)).
  cbv [open_wb file_write modify_world get_world mbind M_bind mret M_ret print raise].
  cbn [world exec_log fs disk_free set_urandom_pos set_fs set_disk_free set_stdout].
  rewrite lookup_insert_eq. cbn [default app].
  destruct (decide _) as [Hfit|Hfit]; eexists; (split; [reflexivity|]);
    cbn [world exec_log fs disk_free undeletable tmp_candidates sys_modules
         set_urandom_pos set_fs set_disk_free set_stdout];
    rewrite insert_insert_eq; repeat split.
  now rewrite take_ge by assumption.
Qed.

(** The state [encrypt_file] ends in, for an input that exists and a key
    that is accepted. *)
Lemma encrypt_file_final c file_path output_path s P f :
  fs (world s) !! file_path = Some P ->
  Fernet.new (ENCRYPTION_KEY c) = Ok f ->
  let out := output_of file_path output_path in
  let A := artifact f P (world s) in
  let w1 := set_urandom_pos (urandom_pos (world s) + 16) (world s) in
  encrypt_file c file_path output_path s
  = if decide (length A <= disk_free (world s))
    then (Ok out,
          mkProc (set_stdout (fun o => o ++ ["File encrypted successfully: " +:+ out])
                    (set_disk_free (disk_free (world s) - length A)
                       (set_fs (<[out := A]>) w1)))
                 (exec_log s))
    else (Raise (OSError "[Errno 28] No space left on device"),
          mkProc (set_disk_free 0 (set_fs (<[out := take (disk_free (world s)) A]>) w1))
                 (exec_log s)).
Proof.
  intros Hfs Hnew out A w1. unfold encrypt_file. fold (output_of file_path output_path).
  fold out.
  rewrite (bind_Ok _ _ _ _ _ (read_file_Some _ _ _ Hfs)).
  rewrite Hnew.
  erewrite (bind_Ok (lift_result (Ok f))) by reflexivity.
  erewrite bind_Ok by apply Fernet_encrypt_eq.
  fold (artifact f P (world s)). fold A. fold w1.
  cbv [open_wb file_write modify_world get_world mbind M_bind mret M_ret print raise].
  cbn [world exec_log fs disk_free].
  subst w1. cbn [fs disk_free set_urandom_pos set_fs].
  rewrite lookup_insert_eq. cbn [default app].
  destruct (decide _) as [Hfit|Hfit];
    cbn [world exec_log]; cbv [set_stdout set_disk_free set_fs set_urandom_pos];
    cbn [fs disk_free undeletable time_now urandom urandom_pos tmp_candidates
         sys_platform sys_argv environ sys_modules heap stdout];
    now rewrite insert_insert_eq.
Qed.
End encrypt_file_facts.

(** ** [_decrypt_file], step by step *)

Module decrypt_file_facts.
Import CythonRuntimeLoader.

Lemma Fernet_decrypt_raises f token e :
  Fernet.decrypt f token = Raise e -> is_Exception e = true.
Proof.
  unfold Fernet.decrypt.
  destruct (Fernet._get_unverified_token_data token) as [[ts data]|e0] eqn:E.
  - unfold Fernet._decrypt_data.
    destruct (negb _); [intros H; now inversion H|].
    destruct (decide _); [intros H; now inversion H|].
    destruct (CBC.aes_cbc_decrypt _ _ _) as [padded|]; [|intros H; now inversion H].
    destruct (CBC.pkcs7_unpad padded); intros H; now inversion H.
  - intros H. inversion H; subst. clear H.
    unfold Fernet._get_unverified_token_data in E.
    destruct (Base64.urlsafe_b64decode token) as [[|first rest]|];
      try (now inversion E).
    destruct (decide _); [now inversion E|].
    destruct (decide _); now inversion E.
Qed.

(** What [_decrypt_file] returns once the file is read and the key is
    accepted: the plaintext, or the one [ValueError] that stands for every
    failure of [Fernet.decrypt]. *)
Definition decrypt_outcome (f : Fernet.t) (encrypted_data : bytes) : result bytes :=
  match Fernet.decrypt f encrypted_data with
  | Ok data => Ok data
  | Raise _ => Raise decrypt_error
  end.

Lemma _decrypt_file_run self s encrypted_data f :
  fs (world s) !! encrypted_file_path self = Some encrypted_data ->
  Fernet.new (DECRYPTION_KEY (class self)) = Ok f ->
  _decrypt_file self s = (decrypt_outcome f encrypted_data, s).
Proof.
  intros Hfs Hnew. unfold _decrypt_file.
  rewrite (bind_Ok _ _ _ _ _ (read_file_Some _ _ _ Hfs)), Hnew.
  erewrite (bind_Ok (lift_result (Ok f))) by reflexivity.
  unfold try_except_Exception, lift_result, decrypt_outcome, raise.
  destruct (Fernet.decrypt f encrypted_data) as [data|e] eqn:E; [reflexivity|].
  now rewrite (Fernet_decrypt_raises _ _ _ E).
Qed.

Lemma _decrypt_file_missing self s :
  fs (world s) !! encrypted_file_path self = None ->
  exists msg, _decrypt_file self s = (Raise (FileNotFoundError msg), s).
Proof.
  intros Hfs. unfold _decrypt_file.
  destruct (read_file_None _ _ Hfs) as [msg Hmsg].
  exists msg. now rewrite (bind_Raise _ _ _ _ _ Hmsg).
Qed.

Lemma _decrypt_file_bad_key self s encrypted_data :
  fs (world s) !! encrypted_file_path self = Some encrypted_data ->
  ~ Fernet.valid_key (DECRYPTION_KEY (class self)) ->
  _decrypt_file self s = (Raise Fernet.key_error, s).
Proof.
  intros Hfs Hkey. unfold _decrypt_file.
  rewrite (bind_Ok _ _ _ _ _ (read_file_Some _ _ _ Hfs)).
  rewrite (Fernet.new_invalid _ Hkey).
  now erewrite (bind_Raise (lift_result (Raise Fernet.key_error))) by reflexivity.
Qed.

(** [_decrypt_file] leaves the process as it found it, and what it raises
    is an [Exception]. *)
Lemma _decrypt_file_inv self s r s' :
  _decrypt_file self s = (r, s') ->
  s' = s /\ match r with Ok _ => True | Raise e => is_Exception e = true end.
Proof.
  destruct (fs (world s) !! encrypted_file_path self) as [A|] eqn:Hfs.
  - destruct (Fernet.new (DECRYPTION_KEY (class self))) as [f|e] eqn:Hnew.
    + rewrite (_decrypt_file_run _ _ _ _ Hfs Hnew). intros H. inversion H; subst.
      split; [reflexivity|]. unfold decrypt_outcome. now destruct (Fernet.decrypt f A).
    + assert (~ Fernet.valid_key (DECRYPTION_KEY (class self))) as Hkey.
      { intros [f Hf]%Fernet.new_valid. congruence. }
      rewrite (_decrypt_file_bad_key _ _ _ Hfs Hkey). intros H. now inversion H.
  - destruct (_decrypt_file_missing _ _ Hfs) as [msg ->]. intros H. now inversion H.
Qed.
End decrypt_file_facts.

(** ** Round trip *)

Import CompiledEncryptor CythonRuntimeLoader encrypt_file_facts decrypt_file_facts.

(** C1. For every payload [P] and every valid key [K]: [encrypt_file] under
    [K] succeeds on a readable file holding [P] when the volume has room for
    the artifact, and [_decrypt_file] under the same key, run on the artifact
    it wrote, returns exactly [P]. *)
Theorem encrypt_then_decrypt_roundtrip
    (K P : bytes) (file_path : string) (output_path module_name : option string)
    (s : Proc) :
  Fernet.valid_key K ->
  fs (world s) !! file_path = Some P ->
  Fernet.token_length (length P) <= disk_free (world s) ->
  exists out s',
    encrypt_file (CompiledEncryptor.Cls K) file_path output_path s = (Ok out, s')
    /\ _decrypt_file (__init__ (CythonRuntimeLoader.Cls K) out module_name) s' = (Ok P, s').
Proof.
  intros Hkey Hfs Hroom.
  destruct (Fernet.new_valid _ Hkey) as [f Hf].
  destruct (encrypt_file_run (CompiledEncryptor.Cls K) file_path output_path s P f Hfs Hf)
    as (s' & Hrun & Hfs' & _).
  rewrite artifact_length in Hrun.
  destruct (decide _) as [_|]; [|contradiction].
  exists (output_of file_path output_path), s'. split; [assumption|].
  erewrite _decrypt_file_run; [| |exact Hf].
  2:{ cbn. rewrite Hfs', lookup_insert_eq. reflexivity. }
  unfold decrypt_outcome.
  rewrite take_ge by (rewrite artifact_length; assumption).
  unfold artifact. now rewrite Fernet.decrypt_encrypt by apply next_iv_length.
Qed.

Lemma encrypt_then_decrypt_roundtrip_witness :
  exists out s',
    encrypt_file (CompiledEncryptor.Cls demo.K0) "app.so" None demo.s0 = (Ok out, s')
    /\ _decrypt_file (__init__ (CythonRuntimeLoader.Cls demo.K0) out None) s'
       = (Ok demo.P0, s').
Proof.
  apply encrypt_then_decrypt_roundtrip.
  - eexists. split; [vm_compute; reflexivity | reflexivity].
  - reflexivity.
  - apply Nat.leb_le. reflexivity.
Defined.

(** The run of [encrypt_file] in the demo world. *)
Example demo_encrypt_file :
  encrypt_file CompiledEncryptor "app.so" None demo.s0 = (Ok "app.so.encrypted", demo.s1).
Proof. vm_compute. reflexivity. Qed.

(** ** Key validation *)

(** C9. A key whose base64url decoding is not 32 bytes long (or that does
    not decode at all) is refused by the constructor [Fernet(key)] with the
    key [ValueError]; [encrypt_file] and [_decrypt_file] stop there:
    no timestamp or IV is drawn, nothing is written, and the error is not the
    one that stands for a failed decryption. *)
Theorem wrong_length_key_fails_at_construction (K : bytes) :
  (forall k, Base64.urlsafe_b64decode K = Some k -> length k <> 32) ->
  Fernet.new K = Raise Fernet.key_error
  /\ (forall file_path output_path s P,
        fs (world s) !! file_path = Some P ->
        encrypt_file (CompiledEncryptor.Cls K) file_path output_path s
        = (Raise Fernet.key_error, s))
  /\ (forall path name s A,
        fs (world s) !! path = Some A ->
        _decrypt_file (__init__ (CythonRuntimeLoader.Cls K) path name) s
        = (Raise Fernet.key_error, s))
  /\ Fernet.key_error <> decrypt_error.
Proof.
  intros Hlen.
  assert (Hkey : ~ Fernet.valid_key K).
  { intros (k & Hk & Hk32). exact (Hlen k Hk Hk32). }
  repeat split.
  - now apply Fernet.new_invalid.
  - intros file_path output_path s P Hfs. unfold encrypt_file.
    rewrite (bind_Ok _ _ _ _ _ (read_file_Some _ _ _ Hfs)).
    cbn [ENCRYPTION_KEY]. rewrite (Fernet.new_invalid _ Hkey).
    now erewrite (bind_Raise (lift_result (Raise Fernet.key_error))) by reflexivity.
  - intros path name s A Hfs.
    apply (_decrypt_file_bad_key _ _ A); [exact Hfs | exact Hkey].
  - discriminate.
Qed.

Lemma wrong_length_key_fails_at_construction_witness :
  Fernet.new (list_byte_of_string "AAAAAAAAAAAAAAAAAAAAAAAAAAAAAAAA")
  = Raise Fernet.key_error.
Proof.
  apply (wrong_length_key_fails_at_construction
           (list_byte_of_string "AAAAAAAAAAAAAAAAAAAAAAAAAAAAAAAA")).
  intros k Hk. vm_compute in Hk. inversion Hk. discriminate.
Defined.

(** ** Nonce freshness *)




(** The two artifacts of the demo world, one call after the other. *)
Example consecutive_artifacts_differ :
  let s1 := snd (encrypt_file (CompiledEncryptor.Cls demo.K0) "app.so" None demo.s0) in
  let s2 := snd (encrypt_file (CompiledEncryptor.Cls demo.K0) "app.so"
                   (Some "second.encrypted") s1) in
  fs (world s2) !! "app.so.encrypted" = Some demo.A0
  /\ fs (world s2) !! "second.encrypted"
     = Some (list_byte_of_string
          "gAAAAAAdwJ6wEBESExQVFhcYGRobHB0eH5GFyDlKh2uG6MGaGcwAB63PjCgy0dkqn_RqZSTps5hzCTZ6uUbBJYHs6nDF_AnH-Q==").
Proof. cbv zeta. split; vm_compute; reflexivity. Qed.

(** ** How the artifact reaches the output path *)

(** C5, as the code has it. [encrypt_file] opens the final output path
    itself and writes into it: after the call the output path holds the
    prefix of the artifact that the volume accepted, every other path is as
    it was (no temporary file, no rename), and the call succeeds exactly when
    the whole artifact fitted. *)
Theorem encrypt_file_writes_output_in_place
    (K P : bytes) (file_path : string) (output_path : option string) (s : Proc)
    (f : Fernet.t) :
  Fernet.new K = Ok f ->
  fs (world s) !! file_path = Some P ->
  exists r s',
    encrypt_file (CompiledEncryptor.Cls K) file_path output_path s = (r, s')
    /\ fs (world s')
       = <[output_of file_path output_path :=
             take (disk_free (world s)) (artifact f P (world s))]> (fs (world s))
    /\ (r = Ok (output_of file_path output_path)
        <-> Fernet.token_length (length P) <= disk_free (world s)).
Proof.
  intros Hf Hfs.
  destruct (encrypt_file_run (CompiledEncryptor.Cls K) file_path output_path s P f Hfs Hf)
    as (s' & Hrun & Hfs' & _).
  rewrite artifact_length in Hrun.
  eexists _, s'. split; [exact Hrun|]. split; [exact Hfs'|].
  destruct (decide _) as [Hfit|Hfit]; split; intros H; try reflexivity;
    try assumption; try discriminate H; contradiction.
Qed.

Lemma encrypt_file_writes_output_in_place_witness :
  exists r s',
    encrypt_file (CompiledEncryptor.Cls demo.K0) "app.so" None demo.s0 = (r, s')
    /\ fs (world s')
       = <["app.so.encrypted" := take 4096 (artifact demo.f0 demo.P0 demo.w0)]> (fs demo.w0)
    /\ (r = Ok "app.so.encrypted" <-> Fernet.token_length (length demo.P0) <= 4096).
Proof.
  apply (encrypt_file_writes_output_in_place demo.K0 demo.P0 "app.so" None demo.s0).
  - vm_compute. reflexivity.
  - reflexivity.
Defined.

(** The volume has room for 40 bytes only: the call fails mid-write, and the
    final output path holds the first 40 bytes of the artifact, which do not
    decrypt. *)
Lemma encrypt_file_leaves_partial_artifact :
  fst (encrypt_file CompiledEncryptor "app.so" None demo.s_small)
  = Raise (OSError "[Errno 28] No space left on device")
  /\ fs (world (snd (encrypt_file CompiledEncryptor "app.so" None demo.s_small)))
     = {[ "app.so" := demo.P0; "app.so.encrypted" := take 40 demo.A0 ]}
  /\ fst (_decrypt_file (__init__ CythonRuntimeLoader "app.so.encrypted" None)
            (snd (encrypt_file CompiledEncryptor "app.so" None demo.s_small)))
     = Raise decrypt_error.
Proof. by_computation. Qed.

(** ** Where the key comes from *)

(** The process with other environment variables and arguments. *)
Definition with_config (env : gmap string string) (argv : list string) (s : Proc) : Proc :=
  mkProc (set_environ env (set_sys_argv argv (world s))) (exec_log s).

Definition KEY_LITERAL : bytes :=
  list_byte_of_string "2A4cD5H-9n-y2SrQRT3UZ9cPaZFo5a0iAdRQeT7ZnUw=".

(** C7, as the code has it. The key of both classes is the same literal, and
    neither [encrypt_file] nor [_decrypt_file] consults [os.environ] or
    [sys.argv]: replacing them changes neither the result nor anything else in
    the final state. *)
Theorem key_is_a_literal_independent_of_configuration
    (env : gmap string string) (argv : list string) (s : Proc) :
  ENCRYPTION_KEY CompiledEncryptor = KEY_LITERAL
  /\ DECRYPTION_KEY CythonRuntimeLoader = KEY_LITERAL
  /\ (forall file_path output_path,
        encrypt_file CompiledEncryptor file_path output_path (with_config env argv s)
        = (fst (encrypt_file CompiledEncryptor file_path output_path s),
           with_config env argv (snd (encrypt_file CompiledEncryptor file_path output_path s))))
  /\ (forall path name,
        _decrypt_file (__init__ CythonRuntimeLoader path name) (with_config env argv s)
        = (fst (_decrypt_file (__init__ CythonRuntimeLoader path name) s),
           with_config env argv (snd (_decrypt_file (__init__ CythonRuntimeLoader path name) s)))).
Proof.
  split; [reflexivity|]. split; [reflexivity|]. split.
  - intros file_path output_path. unfold encrypt_file.
    cbv [read_file get_world mbind M_bind mret M_ret raise lift_result].
    cbn [world with_config fs set_environ set_sys_argv].
    destruct (fs (world s) !! file_path) as [P|]; [|reflexivity].
    destruct (Fernet.new (ENCRYPTION_KEY CompiledEncryptor)) as [f|e]; [|reflexivity].
    cbv [Fernet_encrypt time_time os_urandom open_wb file_write print modify_world
         get_world mbind M_bind mret M_ret raise].
    cbn [world exec_log with_config fs disk_free time_now urandom urandom_pos
         set_environ set_sys_argv set_urandom_pos set_fs set_disk_free set_stdout].
    destruct (decide _); reflexivity.
  - intros path name. unfold _decrypt_file.
    cbv [read_file get_world mbind M_bind mret M_ret raise lift_result try_except_Exception].
    cbn [world with_config fs set_environ set_sys_argv].
    destruct (fs (world s) !! _) as [A|]; [|reflexivity].
    destruct (Fernet.new _) as [f|e]; [|reflexivity].
    destruct (Fernet.decrypt f A) as [data|e]; [reflexivity|].
    destruct (is_Exception e); reflexivity.
Qed.

(** The environment and the command line offer another (valid) key; the
    artifact written is the one of the unconfigured run all the same; the
    literal decrypts it and the configured key does not. *)
Lemma configured_key_is_ignored :
  fs (world (snd (encrypt_file CompiledEncryptor "app.so" None demo.s_configured)))
     !! "app.so.encrypted" = Some demo.A0
  /\ Fernet.decrypt demo.f0 demo.A0 = Ok demo.P0
  /\ Fernet.new (list_byte_of_string demo.other_key) = Ok demo.f_other
  /\ Fernet.decrypt demo.f_other demo.A0 = Raise InvalidToken.
Proof. by_computation. Qed.

(** ** [load_and_run], stage by stage *)

Module load_facts.
Import CythonRuntimeLoader.

(** The [with tempfile.NamedTemporaryFile(...)] block. *)
Definition stage (decrypted_data : bytes) : M string :=
  suffix ← _get_extension_suffix;
  temp_file ← NamedTemporaryFile suffix;
  file_write temp_file decrypted_data;;
  mret temp_file.

(** The [finally] block. *)
Definition cleanup (temp_file_path : string) : M unit :=
  try_except_pass (os_unlink temp_file_path).

(** The state after the handler's [print]. *)
Definition reported (e : exn) (s : Proc) : Proc :=
  mkProc (set_stdout (fun out => out ++ ["Error loading encrypted extension: " +:+ str_exn e])
            (world s))
         (exec_log s).

Lemma cleanup_run temp_file_path s :
  exists s',
    cleanup temp_file_path s = (Ok tt, s')
    /\ exec_log s' = exec_log s
    /\ (fs (world s') !! temp_file_path = None
        \/ temp_file_path ∈ undeletable (world s'))
    /\ sys_modules (world s') = sys_modules (world s)
    /\ heap (world s') = heap (world s)
    /\ stdout (world s') = stdout (world s)
    /\ (temp_file_path ∉ undeletable (world s) -> fs (world s') !! temp_file_path = None).
Proof.
  unfold cleanup, try_except_pass, os_unlink.
  cbv [get_world mbind M_bind mret M_ret raise modify_world].
  destruct (fs (world s) !! temp_file_path) eqn:Hfs.
  - destruct (decide _) as [Hin|Hnin].
    + exists s. repeat apply conj; try reflexivity.
      * now right.
      * intros H. contradiction.
    + eexists. split; [reflexivity|].
      cbn [world exec_log fs set_fs undeletable sys_modules heap stdout].
      repeat apply conj; try reflexivity.
      * left. apply lookup_delete_eq.
      * intros _. apply lookup_delete_eq.
  - exists s. repeat apply conj; try reflexivity.
    + now left.
    + now intros _.
Qed.

Definition extension_suffix (w : World) : string :=
  if decide (sys_platform w = "win32") then ".pyd" else ".so".

Lemma _get_extension_suffix_run s :
  _get_extension_suffix s = (Ok (extension_suffix (world s)), s).
Proof.
  unfold _get_extension_suffix, extension_suffix.
  cbv [get_world mbind M_bind mret M_ret]. now destruct (decide _).
Qed.

Lemma mkstemp_free suffix w : forall candidates name rest,
  mkstemp suffix candidates w = (Some name, rest) -> fs w !! name = None.
Proof.
  induction candidates as [|c cs IH]; intros name rest; cbn [mkstemp].
  - discriminate.
  - destruct (decide _) as [Hsome|Hnone]; [apply IH|].
    intros H. inversion H; subst.
    destruct (fs w !! (c +:+ suffix)) eqn:E; [|reflexivity].
    exfalso. apply Hnone. eauto.
Qed.

Lemma NamedTemporaryFile_run suffix s :
  NamedTemporaryFile suffix s
  = match mkstemp suffix (tmp_candidates (world s)) (world s) with
    | (Some path, rest) =>
        (Ok path,
         mkProc (set_fs (<[path := []]>) (set_tmp_candidates rest (world s))) (exec_log s))
    | (None, rest) =>
        (Raise (FileExistsError "[Errno 17] No usable temporary file name found"),
         mkProc (set_tmp_candidates rest (world s)) (exec_log s))
    end.
Proof.
  unfold NamedTemporaryFile. cbv [get_world mbind M_bind mret M_ret raise modify_world].
  now destruct (mkstemp suffix (tmp_candidates (world s)) (world s)) as [[path|] rest].
Qed.

Lemma file_write_run path data s :
  file_write path data s
  = if decide (length data <= disk_free (world s))
    then (Ok tt,
          mkProc (set_disk_free (disk_free (world s) - length data)
                    (set_fs (<[path := default [] (fs (world s) !! path) ++ data]>) (world s)))
                 (exec_log s))
    else (Raise (OSError "[Errno 28] No space left on device"),
          mkProc (set_disk_free 0
                    (set_fs (<[path := default [] (fs (world s) !! path)
                                        ++ take (disk_free (world s)) data]>) (world s)))
                 (exec_log s)).
Proof.
  unfold file_write. cbv [get_world mbind M_bind mret M_ret raise modify_world].
  now destruct (decide _).
Qed.

Lemma stage_inv decrypted_data s r s2 :
  stage decrypted_data s = (r, s2) ->
  exec_log s2 = exec_log s
  /\ sys_modules (world s2) = sys_modules (world s)
  /\ heap (world s2) = heap (world s)
  /\ match r with
     | Ok temp_file_path =>
         fs (world s) !! temp_file_path = None
         /\ fs (world s2) = <[temp_file_path := decrypted_data]> (fs (world s))
     | Raise e => is_Exception e = true
     end.
Proof.
  unfold stage.
  rewrite (bind_Ok _ _ _ _ _ (_get_extension_suffix_run s)).
  pose proof (NamedTemporaryFile_run (extension_suffix (world s)) s) as Htmp.
  pose proof (mkstemp_free (extension_suffix (world s)) (world s)
                (tmp_candidates (world s))) as Hfree.
  destruct (mkstemp _ _ _) as [[path|] rest].
  - specialize (Hfree path rest eq_refl).
    rewrite (bind_Ok _ _ _ _ _ Htmp).
    match goal with
    | |- context [file_write path decrypted_data] =>
        pose proof (file_write_run path decrypted_data
          (mkProc (set_fs (<[path := []]>) (set_tmp_candidates rest (world s)))
                  (exec_log s))) as Hw
    end.
    cbn [world exec_log fs disk_free set_fs set_tmp_candidates] in Hw.
    rewrite lookup_insert_eq in Hw. cbn [default app] in Hw.
    destruct (decide _).
    + rewrite (bind_Ok _ _ _ _ _ Hw). intros H. inversion H; subst.
      cbn [world exec_log fs sys_modules heap set_fs set_disk_free set_tmp_candidates].
      rewrite insert_insert_eq. auto.
    + rewrite (bind_Raise _ _ _ _ _ Hw). intros H. inversion H; subst.
      cbn [world exec_log fs sys_modules heap set_fs set_disk_free set_tmp_candidates].
      auto.
  - rewrite (bind_Raise _ _ _ _ _ Htmp). intros H. inversion H; subst.
    cbn [world exec_log fs sys_modules heap set_fs set_disk_free set_tmp_candidates].
    auto.
Qed.

Lemma load_and_run_inv host self s r s' :
  load_and_run host self s = (r, s') ->
  (exists e,
      _decrypt_file self s = (Raise e, s)
      /\ r = Raise (SystemExit 1) /\ s' = reported e s)
  \/ (exists decrypted_data e s2,
         _decrypt_file self s = (Ok decrypted_data, s)
         /\ stage decrypted_data s = (Raise e, s2)
         /\ r = Raise (SystemExit 1) /\ s' = reported e s2)
  \/ (exists decrypted_data temp_file_path s2 r3 s3 s4,
         _decrypt_file self s = (Ok decrypted_data, s)
         /\ stage decrypted_data s = (Ok temp_file_path, s2)
         /\ load_staged host self temp_file_path s2 = (r3, s3)
         /\ cleanup temp_file_path s3 = (Ok tt, s4)
         /\ match r3 with
            | Ok module => r = Ok module /\ s' = s4
            | Raise e =>
                if is_Exception e
                then r = Raise (SystemExit 1) /\ s' = reported e s4
                else r = Raise e /\ s' = s4
            end).
Proof.
  unfold load_and_run, try_except_Exception.
  destruct (_decrypt_file self s) as [[decrypted_data|e] s1] eqn:Hdec.
  - destruct (_decrypt_file_inv _ _ _ _ Hdec) as [-> _].
    rewrite (bind_Ok _ _ _ _ _ Hdec).
    rewrite (bind_Ok _ _ _ _ _ (_get_extension_suffix_run s)).
    assert (Hstage_eq :
      stage decrypted_data s
      = (temp_file ← NamedTemporaryFile (extension_suffix (world s));
         file_write temp_file decrypted_data;; mret temp_file) s).
    { unfold stage. now rewrite (bind_Ok _ _ _ _ _ (_get_extension_suffix_run s)). }
    destruct (stage decrypted_data s) as [[temp_file_path|e] s2] eqn:Hstage.
    + symmetry in Hstage_eq. rewrite (bind_Ok _ _ _ _ _ Hstage_eq). unfold try_finally.
      change (try_except_pass (os_unlink temp_file_path)) with (cleanup temp_file_path).
      destruct (load_staged host self temp_file_path s2) as [r3 s3] eqn:Hload.
      destruct (cleanup_run temp_file_path s3) as (s4 & Hclean & _).
      rewrite Hclean. intros H. right. right.
      exists decrypted_data, temp_file_path, s2, r3, s3, s4.
      repeat (split; [reflexivity || assumption|]).
      destruct r3 as [module|e].
      * now inversion H.
      * destruct (is_Exception e); now inversion H.
    + symmetry in Hstage_eq. rewrite (bind_Raise _ _ _ _ _ Hstage_eq).
      destruct (stage_inv _ _ _ _ Hstage) as (_ & _ & _ & ->).
      intros H. right. left. exists decrypted_data, e, s2.
      repeat (split; [reflexivity || assumption|]). now inversion H.
  - destruct (_decrypt_file_inv _ _ _ _ Hdec) as [-> He].
    rewrite (bind_Raise _ _ _ _ _ Hdec), He.
    intros H. left. exists e. repeat (split; [reflexivity|]). now inversion H.
Qed.
(** What the executed code must leave alone for the loader's registration
    to be visible afterwards: the entry of [sys.modules] under [name]. *)
Definition keeps_sys_modules (host : Host) (name : string) : Prop :=
  forall spec module w,
    sys_modules (snd (exec_module_code host spec module w)) !! name
    = sys_modules w !! name.

End load_facts.

(** ** Running the loader *)

Import load_facts.




(** A payload that works at module level, as [app.py] does, is called
    twice as well and runs once, under the module's own name. *)
Example module_level_payload_runs_once :
  fst (load_and_run demo.host0 demo.loader demo.s1) = Ok 0
  /\ exec_log (snd (load_and_run demo.host0 demo.loader demo.s1))
     = [mkExecCall 0 (Some "app.so"); mkExecCall 0 (Some "__main__")]
  /\ stdout (world (snd (load_and_run demo.host0 demo.loader demo.s1)))
     = ["File encrypted successfully: app.so.encrypted"; "running as app.so"].
Proof. by_computation. Qed.

(** ** Exit status *)

(** The exit codes the specification assigns to the outcomes of [run]. *)
Inductive outcome := Success | MissingFile | DecryptFailure | LoadFailure.

Definition specified_exit_code (o : outcome) : Z :=
  match o with
  | Success => 0
  | MissingFile => 1
  | DecryptFailure => 2
  | LoadFailure => 3
  end.

(** How both entry points end once they know the path of the artifact. *)
Definition launch (host : Host) (path : string) (s : Proc) : result unit :=
  match fs (world s) !! path with
  | None => Raise (SystemExit 1)
  | Some _ =>
      match fst (load_and_run host (__init__ CythonRuntimeLoader path None) s) with
      | Ok _ => Ok tt
      | Raise e => Raise e
      end
  end.

Lemma main_launch host s prog path :
  sys_argv (world s) = [prog; path] ->
  fst (main host s) = launch host path s.
Proof.
  intros Hargv. unfold main, launch, os_path_exists.
  cbv [get_world mbind M_bind mret M_ret]. rewrite Hargv. cbn [length nth].
  destruct (decide (2 <> 2)) as [H|_]; [contradiction|].
  destruct (fs (world s) !! path) as [A|] eqn:Hfs.
  - rewrite bool_decide_eq_true_2 by eauto. cbn [negb].
    now destruct (load_and_run _ _ s) as [[m|e] s'].
  - rewrite bool_decide_eq_false_2 by (intros [x Hx]; discriminate Hx).
    reflexivity.
Qed.

Lemma main_usage host s :
  length (sys_argv (world s)) <> 2 -> fst (main host s) = Raise (SystemExit 1).
Proof.
  intros Hargv. unfold main. cbv [get_world mbind M_bind mret M_ret].
  now destruct (decide _).
Qed.

Lemma app_launcher_main_launch host s :
  fst (app_launcher.main host s) = launch host app_launcher.ENCRYPTED_APP_NAME s.
Proof.
  unfold app_launcher.main, launch, os_path_exists.
  cbv [get_world mbind M_bind mret M_ret].
  destruct (fs (world s) !! app_launcher.ENCRYPTED_APP_NAME) as [A|] eqn:Hfs.
  - rewrite bool_decide_eq_true_2 by eauto. cbn [negb].
    now destruct (load_and_run _ _ s) as [[m|e] s'].
  - rewrite bool_decide_eq_false_2 by (intros [x Hx]; discriminate Hx).
    reflexivity.
Qed.

(** The run command on the artifact at [path], ending with result [r]:
    [runtime_loader.py] with the path as its one argument, or
    [app_launcher.py] with the path it has built in. *)
Inductive run_command (host : Host) (s : Proc) : string -> result unit -> Prop :=
  | run_runtime_loader prog path :
      sys_argv (world s) = [prog; path] ->
      run_command host s path (fst (main host s))
  | run_app_launcher :
      run_command host s app_launcher.ENCRYPTED_APP_NAME (fst (app_launcher.main host s)).

Lemma exit_status_launch_missing host path s :
  fs (world s) !! path = None -> exit_status (launch host path s) = 1%Z.
Proof. intros Hfs. unfold launch. now rewrite Hfs. Qed.

Lemma exit_status_launch_found host path s :
  is_Some (fs (world s) !! path) ->
  exit_status (launch host path s)
  = exit_status (fst (load_and_run host (__init__ CythonRuntimeLoader path None) s)).
Proof.
  intros [A HA]. unfold launch. rewrite HA.
  now destruct (fst (load_and_run _ _ s)).
Qed.

Lemma exit_status_load_and_run host self s :
  (forall e, _decrypt_file self s = (Raise e, s) ->
     exit_status (fst (load_and_run host self s)) = 1%Z)
  /\ (forall decrypted_data e s2,
        _decrypt_file self s = (Ok decrypted_data, s) ->
        stage decrypted_data s = (Raise e, s2) ->
        exit_status (fst (load_and_run host self s)) = 1%Z)
  /\ (forall decrypted_data temp_file_path s2 e s3,
        _decrypt_file self s = (Ok decrypted_data, s) ->
        stage decrypted_data s = (Ok temp_file_path, s2) ->
        load_staged host self temp_file_path s2 = (Raise e, s3) ->
        is_Exception e = true ->
        exit_status (fst (load_and_run host self s)) = 1%Z)
  /\ (forall module s',
        load_and_run host self s = (Ok module, s') ->
        exit_status (fst (load_and_run host self s)) = 0%Z).
Proof.
  destruct (load_and_run host self s) as [r s'] eqn:Hrun. cbn [fst].
  pose proof (load_and_run_inv _ _ _ _ _ Hrun)
    as [(e & Hdec & Hr & _) | [(d & e & s2 & Hdec & Hstage & Hr & _)
        | (d & temp & s2 & r3 & s3 & s4 & Hdec & Hstage & Hload & Hclean & Hr)]].
  - subst r. repeat apply conj.
    + reflexivity.
    + intros d e0 s2 Hdec'. congruence.
    + intros d temp s2 e0 s3 Hdec'. congruence.
    + intros m s'' Hrun'. discriminate Hrun'.
  - subst r. repeat apply conj; try reflexivity.
    intros m s'' Hrun'. discriminate Hrun'.
  - repeat apply conj.
    + intros e0 Hdec'. congruence.
    + intros d0 e0 s2' Hdec' Hstage'. congruence.
    + intros d0 temp0 s2' e0 s3' Hdec' Hstage' Hload' He0.
      assert (d0 = d) by congruence. subst d0.
      assert (temp0 = temp /\ s2' = s2) as [-> ->] by (split; congruence).
      rewrite Hload in Hload'. inversion Hload'; subst r3 s3'.
      rewrite He0 in Hr. now destruct Hr as [-> _].
    + intros m s'' Hrun'. now inversion Hrun'.
Qed.

(** C3, as the code has it. [runtime_loader.py] called with an argument
    count other than one exits with status 1. The exit status of the run
    command on an artifact is 0 when [load_and_run] returns, and 1 for a
    missing file, for every failure of [_decrypt_file], for a payload that
    cannot be staged, and for every [Exception] raised while loading or
    executing the payload: the failure classes share one code. *)
Theorem exit_status_of_run (host : Host) (s : Proc) :
  (length (sys_argv (world s)) <> 2 -> exit_status (fst (main host s)) = 1%Z)
  /\ forall (path : string) (r : result unit),
       run_command host s path r ->
       let self := __init__ CythonRuntimeLoader path None in
       (fs (world s) !! path = None -> exit_status r = 1%Z)
       /\ (forall e, is_Some (fs (world s) !! path) ->
             _decrypt_file self s = (Raise e, s) -> exit_status r = 1%Z)
       /\ (forall decrypted_data e s2, is_Some (fs (world s) !! path) ->
             _decrypt_file self s = (Ok decrypted_data, s) ->
             stage decrypted_data s = (Raise e, s2) -> exit_status r = 1%Z)
       /\ (forall decrypted_data temp_file_path s2 e s3, is_Some (fs (world s) !! path) ->
             _decrypt_file self s = (Ok decrypted_data, s) ->
             stage decrypted_data s = (Ok temp_file_path, s2) ->
             load_staged host self temp_file_path s2 = (Raise e, s3) ->
             is_Exception e = true -> exit_status r = 1%Z)
       /\ (forall module s', is_Some (fs (world s) !! path) ->
             load_and_run host self s = (Ok module, s') -> exit_status r = 0%Z).
Proof.
  split; [intros Hargv; now rewrite (main_usage host s Hargv)|].
  intros path r Hcmd self.
  assert (Hr : r = launch host path s).
  { destruct Hcmd as [prog path Hargv|].
    - now apply main_launch with prog.
    - apply app_launcher_main_launch. }
  subst r. clear Hcmd.
  destruct (exit_status_load_and_run host self s) as (H1 & H2 & H3 & H4).
  split; [apply exit_status_launch_missing|].
  split; [|split; [|split]].
  - intros e Hsome Hdec. rewrite exit_status_launch_found by assumption. eauto.
  - intros d e s2 Hsome Hdec Hstage.
    rewrite exit_status_launch_found by assumption. eauto.
  - intros d temp s2 e s3 Hsome Hdec Hstage Hload He.
    rewrite exit_status_launch_found by assumption. eauto.
  - intros m s' Hsome Hrun.
    rewrite exit_status_launch_found by assumption. eauto.
Qed.

Lemma exit_status_of_run_witness :
  exit_status (fst (main demo.host0 demo.s1)) = 0%Z
  /\ exit_status (fst (main demo.host0 (mkProc (set_sys_argv ["runtime_loader.py"] demo.w1) [])))
     = 1%Z.
Proof.
  split.
  - eapply (proj2 (exit_status_of_run demo.host0 demo.s1) "app.so.encrypted").
    + apply (run_runtime_loader demo.host0 demo.s1 "runtime_loader.py"). reflexivity.
    + eexists. vm_compute. reflexivity.
    + vm_compute. reflexivity.
  - apply (proj1 (exit_status_of_run demo.host0
                    (mkProc (set_sys_argv ["runtime_loader.py"] demo.w1) []))).
    cbn. lia.
Defined.

(** A garbage artifact makes [_decrypt_file] fail, and a staged file the
    dynamic loader rejects makes loading fail: the exit status is 1 both
    times, where the specification says 2 and 3. *)
Lemma failure_classes_share_exit_code :
  fst (_decrypt_file demo.loader demo.s_garbage) = Raise decrypt_error
  /\ exit_status (fst (main demo.host0 demo.s_garbage)) = 1%Z
  /\ exit_status (fst (main demo.host0 demo.s_garbage))
     <> specified_exit_code DecryptFailure
  /\ fst (_decrypt_file demo.loader demo.s1) = Ok demo.P0
  /\ exit_status (fst (main demo.host_rejecting demo.s1)) = 1%Z
  /\ exit_status (fst (main demo.host_rejecting demo.s1))
     <> specified_exit_code LoadFailure.
Proof.
  assert (H1 : exit_status (fst (main demo.host0 demo.s_garbage)) = 1%Z)
    by (vm_compute; reflexivity).
  assert (H2 : exit_status (fst (main demo.host_rejecting demo.s1)) = 1%Z)
    by (vm_compute; reflexivity).
  split; [vm_compute; reflexivity|]. split; [exact H1|].
  split; [rewrite H1; discriminate|].
  split; [vm_compute; reflexivity|]. split; [exact H2|].
  rewrite H2. discriminate.
Qed.

(** ** The staged file *)

(** C8, as the code has it. After [load_and_run]: when [_decrypt_file]
    failed, no file was created or changed and no temporary name was used;
    when the payload was staged, then whatever followed (the module loaded
    and ran, or loading or running it raised) the staged file no longer
    exists, unless the OS refused to delete it, which the loader ignores. *)
Theorem staged_file_removed_unless_unlink_refused
    (host : Host) (self : CythonRuntimeLoader.t) (s s' : Proc) (r : result nat) :
  load_and_run host self s = (r, s') ->
  (forall e, _decrypt_file self s = (Raise e, s) ->
     fs (world s') = fs (world s)
     /\ tmp_candidates (world s') = tmp_candidates (world s))
  /\ (forall decrypted_data temp_file_path s2,
        _decrypt_file self s = (Ok decrypted_data, s) ->
        stage decrypted_data s = (Ok temp_file_path, s2) ->
        fs (world s') !! temp_file_path = None
        \/ temp_file_path ∈ undeletable (world s')).
Proof.
  intros Hrun.
  destruct (load_and_run_inv _ _ _ _ _ Hrun)
    as [(e & Hdec & Hr & Hs') | [(d & e & s2 & Hdec & Hstage & Hr & Hs')
        | (d & temp & s2 & r3 & s3 & s4 & Hdec & Hstage & Hload & Hclean & Hr)]].
  - split.
    + intros e0 _. subst s'. now cbn.
    + intros d temp s2 Hdec'. congruence.
  - split.
    + intros e0 Hdec'. congruence.
    + intros d0 temp s2' Hdec' Hstage'.
      assert (d0 = d) by congruence. subst d0. congruence.
  - split.
    + intros e0 Hdec'. congruence.
    + intros d0 temp0 s2' Hdec' Hstage'.
      assert (d0 = d) by congruence. subst d0.
      assert (temp0 = temp) by congruence. subst temp0.
      destruct (cleanup_run temp s3) as (s4' & Hclean' & _ & Hgone & _).
      rewrite Hclean in Hclean'. inversion Hclean'; subst s4'.
      destruct r3 as [m|e]; [destruct Hr as [_ ->]; exact Hgone|].
      destruct (is_Exception e); destruct Hr as [_ ->]; exact Hgone.
Qed.

Lemma staged_file_removed_unless_unlink_refused_witness :
  fs (world (snd (load_and_run demo.host0 demo.loader demo.s1))) !! demo.staged_path = None
  \/ demo.staged_path
     ∈ undeletable (world (snd (load_and_run demo.host0 demo.loader demo.s1))).
Proof.
  eapply (staged_file_removed_unless_unlink_refused demo.host0 demo.loader demo.s1).
  - apply surjective_pairing.
  - vm_compute. reflexivity.
  - vm_compute. reflexivity.
Defined.

(** The demo run with the staged file undeletable: [load_and_run] returns
    the module, and the decrypted payload is still on disk. *)
Lemma staged_file_survives_successful_run :
  fst (load_and_run demo.host0 demo.loader demo.s_locked) = Ok 0
  /\ fs (world (snd (load_and_run demo.host0 demo.loader demo.s_locked)))
       !! demo.staged_path = Some demo.P0.
Proof. by_computation. Qed.

(** The failure path the [finally] block does not cover: when the write of
    the staged file fails, the file already created stays, holding the part
    of the payload that was written. *)
Lemma failed_staging_is_not_cleaned_up :
  fst (load_and_run demo.host0 demo.loader
         (mkProc (set_disk_free 5 demo.w1) [])) = Raise (SystemExit 1)
  /\ fs (world (snd (load_and_run demo.host0 demo.loader
                       (mkProc (set_disk_free 5 demo.w1) []))))
       !! demo.staged_path = Some (take 5 demo.P0).
Proof. by_computation. Qed.

(** When loading or running the payload raises, the staged file is
    deleted before [SystemExit] propagates. *)
Lemma failed_load_is_cleaned_up :
  fst (load_and_run demo.host_raising demo.loader demo.s1) = Raise (SystemExit 1)
  /\ fs (world (snd (load_and_run demo.host_raising demo.loader demo.s1)))
       !! demo.staged_path = None
  /\ fst (load_and_run demo.host_rejecting demo.loader demo.s1) = Raise (SystemExit 1)
  /\ fs (world (snd (load_and_run demo.host_rejecting demo.loader demo.s1)))
       !! demo.staged_path = None.
Proof. by_computation. Qed.

(** ** Strings and paths *)

Lemma append_cons (x : ascii) (a b : string) : String x a +:+ b = String x (a +:+ b).
Proof. reflexivity. Qed.

Lemma append_length (a b : string) :
  String.length (a +:+ b) = String.length a + String.length b.
Proof.
  induction a as [|x a IH]; [reflexivity|].
  rewrite append_cons. cbn [String.length]. now rewrite IH.
Qed.

Lemma append_assoc (a b c : string) : (a +:+ b) +:+ c = a +:+ b +:+ c.
Proof.
  induction a as [|x a IH]; [reflexivity|].
  rewrite !append_cons. now rewrite IH.
Qed.

Lemma list_ascii_of_string_app (a b : string) :
  list_ascii_of_string (a +:+ b) = list_ascii_of_string a ++ list_ascii_of_string b.
Proof.
  induction a as [|x a IH]; [reflexivity|].
  rewrite append_cons. cbn [list_ascii_of_string app]. now rewrite IH.
Qed.

Lemma string_of_list_ascii_app (a b : list ascii) :
  string_of_list_ascii (a ++ b) = string_of_list_ascii a +:+ string_of_list_ascii b.
Proof.
  induction a as [|x a IH]; [reflexivity|].
  cbn [app string_of_list_ascii]. now rewrite append_cons, IH.
Qed.

Lemma ascii_eqb_sym (a b : ascii) : Ascii.eqb a b = Ascii.eqb b a.
Proof.
  destruct (Ascii.eqb_spec a b) as [->|Hne].
  - symmetry. apply Ascii.eqb_refl.
  - symmetry. apply Ascii.eqb_neq. congruence.
Qed.

(** A string without [c]. *)
Definition lacks (c : ascii) (s : string) : Prop :=
  existsb (Ascii.eqb c) (list_ascii_of_string s) = false.

Lemma after_last_lacks sep l :
  existsb (Ascii.eqb sep) l = false -> os_path.after_last sep l = l.
Proof.
  destruct l as [|c l]; [reflexivity|]. cbn [existsb os_path.after_last].
  intros [Hc Hl]%orb_false_iff. now rewrite Hl, ascii_eqb_sym, Hc.
Qed.

Lemma after_last_app sep d t :
  existsb (Ascii.eqb sep) t = false -> os_path.after_last sep (d ++ sep :: t) = t.
Proof.
  intros Ht. induction d as [|c d IH]; cbn [app os_path.after_last].
  - now rewrite Ht, Ascii.eqb_refl.
  - rewrite existsb_app. cbn [existsb]. rewrite Ascii.eqb_refl, orb_true_r.
    exact IH.
Qed.

Lemma rfind_lacks c l : existsb (Ascii.eqb c) l = false -> os_path.rfind c l = None.
Proof.
  induction l as [|x l IH]; [reflexivity|]. cbn [existsb os_path.rfind].
  intros [Hx Hl]%orb_false_iff. now rewrite (IH Hl), ascii_eqb_sym, Hx.
Qed.

Lemma rfind_app c a b i :
  os_path.rfind c b = Some i -> os_path.rfind c (a ++ b) = Some (length a + i).
Proof.
  intros Hb. induction a as [|x a IH]; [exact Hb|].
  cbn [app os_path.rfind length]. now rewrite IH.
Qed.

(** The base name and its root, for a file name that ends in
    [.encrypted]. *)
Lemma basename_file dir file :
  lacks os_path.slash file ->
  os_path.basename (dir +:+ "/" +:+ file) = file /\ os_path.basename file = file.
Proof.
  unfold lacks, os_path.basename. intros Hfile. split.
  - rewrite !list_ascii_of_string_app.
    change (list_ascii_of_string "/") with [os_path.slash]. cbn [app].
    rewrite after_last_app by assumption. apply string_of_list_ascii_of_string.
  - rewrite after_last_lacks by assumption. apply string_of_list_ascii_of_string.
Qed.

Lemma splitext_encrypted stem :
  lacks os_path.slash stem ->
  existsb (fun c => negb (Ascii.eqb c os_path.dot)) (list_ascii_of_string stem) = true ->
  os_path.splitext (stem +:+ ".encrypted") = (stem, ".encrypted").
Proof.
  unfold lacks. intros Hslash Hname. unfold os_path.splitext.
  rewrite list_ascii_of_string_app.
  set (l := list_ascii_of_string stem) in *.
  rewrite (rfind_lacks os_path.slash).
  2:{ rewrite existsb_app, Hslash. reflexivity. }
  rewrite (rfind_app os_path.dot l _ 0) by reflexivity.
  rewrite Nat.add_0_r, Nat.sub_0_r, drop_0.
  rewrite take_app_length, Hname.
  rewrite bool_decide_eq_true_2 by lia. cbn [andb].
  rewrite drop_app_length. subst l.
  now rewrite string_of_list_ascii_of_string.
Qed.

Lemma endswith_append (a suffix : string) : endswith (a +:+ suffix) suffix = true.
Proof.
  unfold endswith. apply bool_decide_eq_true.
  rewrite append_length, list_ascii_of_string_app.
  replace (String.length a + String.length suffix - String.length suffix)
    with (length (list_ascii_of_string a)).
  - apply drop_app_length.
  - assert (H : forall x, length (list_ascii_of_string x) = String.length x)
      by (intros x; induction x as [|c x IH]; cbn; [reflexivity | now rewrite IH]).
    rewrite H. lia.
Qed.





(** ** [sys.modules] *)

(** The name [__init__] derives when none is given. *)
Definition strip_encrypted (name : string) : string :=
  if endswith name ".encrypted" then drop_last 10 name else name.

Definition derived_module_name (encrypted_file_path : string) : string :=
  strip_encrypted (fst (os_path.splitext (os_path.basename encrypted_file_path))).




(** The demo world with another module registered under the name
    already: the loaded module takes its place. *)
Example registration_replaces_earlier_module :
  sys_modules (set_sys_modules <["app.so" := 7]> demo.w1) !! "app.so" = Some 7
  /\ sys_modules
       (world (snd (load_and_run demo.host0 demo.loader
                      (mkProc (set_sys_modules <["app.so" := 7]> demo.w1) []))))
       !! "app.so" = Some 0.
Proof. by_computation. Qed.

Example derived_module_names :
  derived_module_name "dist/app.encrypted" = "app"
  /\ derived_module_name "app.so.encrypted" = "app.so"
  /\ derived_module_name "app.encrypted.encrypted" = "app"
  /\ derived_module_name "app.encrypted.encrypted.encrypted" = "app.encrypted".
Proof. by_computation. Qed.

(** ** Tampering *)

(** C4, as the code has it. [_decrypt_file] run on a file [A'] found in
    place of the artifact [A] of a payload [P].  Under any valid key it
    returns plaintext only if [A'] base64-decodes to bytes whose last 32 are
    the HMAC of the rest under that key, and fails with the one decryption
    [ValueError] otherwise, returning nothing.  Under the producing key:
    an [A'] that decodes to the artifact's signed bytes followed by another
    tag is rejected; so is, in particular, [A] with one character replaced by
    an alphabet character of another value, when the character lies in a
    group of four that encodes bytes of the tag only.  Under any valid key,
    [A] with a character other than the padding replaced by a byte outside
    the alphabet is rejected.  Under the producing key, an [A'] that decodes
    to the same bytes as [A] is accepted and yields the payload. *)
Theorem decrypt_accepts_exactly_verified_tokens
    (K K2 : bytes) (f f2 : Fernet.t) (P : bytes) (current_time : N) (iv : bytes)
    (A' : bytes) (path : string) (name : option string) (s : Proc) :
  Fernet.new K = Ok f ->
  Fernet.new K2 = Ok f2 ->
  length iv = 16 ->
  fs (world s) !! path = Some A' ->
  let A := Fernet._encrypt_from_parts f P current_time iv in
  let body := Fernet.basic_parts f P current_time iv in
  let run key := _decrypt_file (__init__ (CythonRuntimeLoader.Cls key) path name) s in
  (forall data, run K2 = (Ok data, s) ->
     exists token, Base64.urlsafe_b64decode A' = Some token
                   /\ Fernet._verify_signature f2 token = true)
  /\ ((exists data, run K2 = (Ok data, s)) \/ run K2 = (Raise decrypt_error, s))
  /\ (forall tag', Base64.urlsafe_b64decode A' = Some (body ++ tag') ->
        length tag' = 32 ->
        tag' <> SHA256.hmac_sha256 (Fernet._signing_key f) body ->
        run K = (Raise decrypt_error, s))
  /\ (forall g j x v,
        j < 4 -> length body <= 3 * g -> 3 * g + 3 <= length body + 32 ->
        Base64.table_a2b_base64 (Base64.urlsafe_decode_translation x) = Some v ->
        (forall y, A !! (4 * g + j) = Some y ->
           Base64.table_a2b_base64 (Base64.urlsafe_decode_translation y) <> Some v) ->
        A' = <[4 * g + j := x]> A ->
        run K = (Raise decrypt_error, s))
  /\ (forall i x y,
        A !! i = Some y -> y <> Base64.BASE64_PAD ->
        Base64.table_a2b_base64 (Base64.urlsafe_decode_translation x) = None ->
        Base64.urlsafe_decode_translation x <> Base64.BASE64_PAD ->
        A' = <[i := x]> A ->
        run K2 = (Raise decrypt_error, s))
  /\ (Base64.urlsafe_b64decode A' = Base64.urlsafe_b64decode A -> run K = (Ok P, s)).
Proof.
  intros Hf Hf2 Hiv Hfs A body run.
  assert (Hrun : forall key g, Fernet.new key = Ok g -> run key = (decrypt_outcome g A', s)).
  { intros key g Hg. subst run. cbv beta.
    now apply _decrypt_file_run. }
  rewrite (Hrun K2 f2 Hf2), (Hrun K f Hf). unfold decrypt_outcome.
  assert (Htag : forall tag', Base64.urlsafe_b64decode A' = Some (body ++ tag') ->
            length tag' = 32 ->
            tag' <> SHA256.hmac_sha256 (Fernet._signing_key f) body ->
            Fernet.decrypt f A' = Raise InvalidToken).
  { intros tag' Hdecode Htag Hneq.
    unfold Fernet.decrypt, Fernet._get_unverified_token_data. rewrite Hdecode.
    pose proof (Fernet.basic_parts_length f P current_time iv Hiv) as Hlen.
    fold body in Hlen.
    destruct (body ++ tag') as [|first rest] eqn:E.
    { apply (f_equal length) in E. rewrite length_app in E. simpl in E. lia. }
    assert (first = x80) as ->.
    { subst body. unfold Fernet.basic_parts in E. now inversion E. }
    destruct (decide (x80 <> x80)) as [H|_]; [contradiction|].
    destruct (decide _) as [H|_].
    { apply (f_equal length) in E. rewrite length_app in E. lia. }
    rewrite <- E. unfold Fernet._decrypt_data, Fernet._verify_signature.
    rewrite Fernet.take_signed, Fernet.drop_signed by assumption.
    rewrite bool_decide_eq_false_2 by congruence. reflexivity. }
  split; [|split; [|split; [|split; [|split]]]].
  - intros data Hdata.
    unfold Fernet.decrypt, Fernet._get_unverified_token_data in Hdata.
    destruct (Base64.urlsafe_b64decode A') as [[|first rest]|]; try discriminate Hdata.
    destruct (decide _); [discriminate Hdata|].
    destruct (decide _); [discriminate Hdata|].
    exists (first :: rest). split; [reflexivity|].
    unfold Fernet._decrypt_data in Hdata.
    destruct (Fernet._verify_signature f2 (first :: rest)); [reflexivity|].
    discriminate Hdata.
  - destruct (Fernet.decrypt f2 A'); eauto.
  - intros tag' Hdecode Hlen Hneq. now rewrite (Htag tag').
  - intros g j x v Hj Hlo Hhi Hx Hne ->.
    pose proof (SHA256.hmac_sha256_length (Fernet._signing_key f) body) as Hmac.
    destruct (Base64.urlsafe_b64decode_replaced
                (body ++ SHA256.hmac_sha256 (Fernet._signing_key f) body) g j x v)
      as (group' & Hdecode & Hgroup & Hdiff); try assumption.
    { rewrite length_app, Hmac. lia. }
    destruct (Fernet.replaced_in_tag body _ group' g Hmac Hlo Hhi Hgroup Hdiff)
      as (tag' & Heq & Hlen' & Hneq).
    rewrite Heq in Hdecode.
    now rewrite (Htag tag').
  - intros i x y Hy Hypad Hx Hxpad ->.
    pose proof (Base64.urlsafe_b64decode_invalid
                  (body ++ SHA256.hmac_sha256 (Fernet._signing_key f) body)
                  i x y Hy Hypad Hx Hxpad) as Hdecode.
    change (Base64.urlsafe_b64decode (<[i := x]> A) = None) in Hdecode.
    unfold Fernet.decrypt, Fernet._get_unverified_token_data.
    now rewrite Hdecode.
  - intros Hsame.
    enough (Fernet.decrypt f A' = Ok P) as -> by reflexivity.
    transitivity (Fernet.decrypt f A).
    + unfold Fernet.decrypt, Fernet._get_unverified_token_data. now rewrite Hsame.
    + now apply Fernet.decrypt_encrypt.
Qed.

Lemma decrypt_accepts_exactly_verified_tokens_witness :
  _decrypt_file (__init__ (CythonRuntimeLoader.Cls demo.K0) "app.so.encrypted" None)
    demo.s_tampered
  = (Ok demo.P0, demo.s_tampered).
Proof.
  eapply (decrypt_accepts_exactly_verified_tokens demo.K0 demo.K0 demo.f0 demo.f0
            demo.P0 (next_time demo.w0) (next_iv demo.w0) demo.A0_tampered
            "app.so.encrypted" None demo.s_tampered).
  - vm_compute. reflexivity.
  - vm_compute. reflexivity.
  - reflexivity.
  - reflexivity.
  - vm_compute. reflexivity.
Defined.

(** The artifact of the demo world is 100 characters long; its last four,
    [BQ==], encode the last byte of the tag, and the low four bits of [Q] are
    not part of it. With [Q] replaced by [R] the file differs from the
    artifact in that one byte, and [_decrypt_file] under the producing key
    returns the payload. *)
Lemma tampered_tag_byte_is_accepted :
  artifact demo.f0 demo.P0 demo.w0 = demo.A0
  /\ length demo.A0 = 100
  /\ demo.A0 !! 97 = Some "Q"%byte
  /\ demo.A0_tampered !! 97 = Some "R"%byte
  /\ take 97 demo.A0_tampered = take 97 demo.A0
  /\ drop 98 demo.A0_tampered = drop 98 demo.A0
  /\ drop 96 demo.A0
     = Base64.urlsafe_b64encode
         (drop 31 (SHA256.hmac_sha256 (Fernet._signing_key demo.f0)
                     (Fernet.basic_parts demo.f0 demo.P0 (next_time demo.w0)
                        (next_iv demo.w0))))
  /\ fst (_decrypt_file demo.loader demo.s_tampered) = Ok demo.P0.
Proof.
  split; [vm_compute; reflexivity|].
  split; [reflexivity|].
  split; [reflexivity|].
  split; [reflexivity|].
  split; [reflexivity|].
  split; [reflexivity|].
  split; vm_compute; reflexivity.
Qed.

(** Other one-character changes of the same artifact are refused: another
    alphabet character inside the tag (position 60), a byte outside the
    alphabet in the header (position 5), and a change of [Q] that reaches
    the bits of the tag ([Q] to [g], position 97). *)
Example tampered_characters_are_rejected :
  let run A' := fst (_decrypt_file demo.loader (mkProc (demo.w1_with A' ∅) [])) in
  run (<[60 := "A"%byte]> demo.A0) = Raise decrypt_error
  /\ run (<[5 := "!"%byte]> demo.A0) = Raise decrypt_error
  /\ run (<[97 := "g"%byte]> demo.A0) = Raise decrypt_error.
Proof.
  cbv zeta. split; [vm_compute; reflexivity|].
  split; vm_compute; reflexivity.
Qed.

(** * Further properties of the code *)

(** ** [encrypt_file]: errors and effects *)

(** X1. [encrypt_file] opens its input first: when [file_path] does not
    exist the call raises [FileNotFoundError], whatever the key of the class
    and the output path, and leaves the process as it was (no output file is
    created, no timestamp or IV is drawn, nothing is printed). *)
Theorem encrypt_file_missing_input
    (c : CompiledEncryptor.cls) (file_path : string) (output_path : option string)
    (s : Proc) :
  fs (world s) !! file_path = None ->
  exists msg,
    encrypt_file c file_path output_path s = (Raise (FileNotFoundError msg), s).
Proof.
  intros Hfs. unfold encrypt_file.
  destruct (read_file_None _ _ Hfs) as [msg Hmsg].
  exists msg. now rewrite (bind_Raise _ _ _ _ _ Hmsg).
Qed.

Lemma encrypt_file_missing_input_witness :
  exists msg,
    encrypt_file (CompiledEncryptor.Cls []) "missing.so" None demo.s0
    = (Raise (FileNotFoundError msg), demo.s0).
Proof.
  apply (encrypt_file_missing_input (CompiledEncryptor.Cls []) "missing.so" None demo.s0).
  reflexivity.
Defined.

(** The default output path is never the input path. *)
Lemma default_output_differs (file_path : string) : file_path +:+ ".encrypted" <> file_path.
Proof.
  intros H. apply (f_equal String.length) in H.
  rewrite append_length in H. cbn in H. lia.
Qed.

(** X2. Called without an output path, [encrypt_file] leaves the file it
    encrypts as it is. It writes to the input path with [.encrypted]
    appended, which is another name in the same directory, whatever the
    input path: after the call, complete or cut short, the input path still
    holds the payload, and the other name holds what was written of the
    artifact. (Nothing is said of a call that is given an output path: that
    path may name the input file in another spelling.) *)
Theorem encrypt_file_keeps_input
    (K P : bytes) (f : Fernet.t) (file_path : string) (s : Proc) :
  Fernet.new K = Ok f ->
  fs (world s) !! file_path = Some P ->
  let s' := snd (encrypt_file (CompiledEncryptor.Cls K) file_path None s) in
  fs (world s') !! file_path = Some P
  /\ fs (world s') !! (file_path +:+ ".encrypted")
     = Some (take (disk_free (world s)) (artifact f P (world s))).
Proof.
  intros Hf Hfs s'.
  destruct (encrypt_file_run (CompiledEncryptor.Cls K) file_path None s P f Hfs Hf)
    as (s1 & Hrun & Hfs' & _).
  assert (s' = s1) as -> by (subst s'; now rewrite Hrun).
  rewrite Hfs'. cbn [output_of]. split.
  - rewrite lookup_insert_ne; [exact Hfs|]. apply default_output_differs.
  - apply lookup_insert_eq.
Qed.

Lemma encrypt_file_keeps_input_witness :
  fs (world (snd (encrypt_file (CompiledEncryptor.Cls demo.K0) "app.so" None demo.s0)))
    !! "app.so" = Some demo.P0
  /\ fs (world (snd (encrypt_file (CompiledEncryptor.Cls demo.K0) "app.so" None demo.s0)))
       !! ("app.so" +:+ ".encrypted")
     = Some (take (disk_free (world demo.s0)) (artifact demo.f0 demo.P0 (world demo.s0))).
Proof.
  apply (encrypt_file_keeps_input demo.K0 demo.P0 demo.f0 "app.so" demo.s0).
  - vm_compute. reflexivity.
  - reflexivity.
Defined.

(** X3. The success line is printed exactly when the artifact has been
    written in full: a call that returns has appended the one line
    [File encrypted successfully: <output path>] to the output and the output
    path holds the whole artifact; a call the volume cuts short raises
    [OSError] and prints nothing. *)
Theorem encrypt_file_reports_complete_artifacts_only
    (K P : bytes) (f : Fernet.t) (file_path : string) (output_path : option string)
    (s : Proc) :
  Fernet.new K = Ok f ->
  fs (world s) !! file_path = Some P ->
  let out := output_of file_path output_path in
  let r := encrypt_file (CompiledEncryptor.Cls K) file_path output_path s in
  (fst r = Ok out
   /\ stdout (world (snd r))
      = stdout (world s) ++ ["File encrypted successfully: " +:+ out]
   /\ fs (world (snd r)) !! out = Some (artifact f P (world s)))
  \/ (fst r = Raise (OSError "[Errno 28] No space left on device")
      /\ stdout (world (snd r)) = stdout (world s)
      /\ disk_free (world s) < Fernet.token_length (length P)).
Proof.
  intros Hf Hfs out r. subst r.
  rewrite (encrypt_file_final (CompiledEncryptor.Cls K) file_path output_path s P f Hfs Hf).
  fold out. rewrite artifact_length.
  destruct (decide _) as [Hfit|Hfit]; [left | right]; cbn [fst snd world].
  - split; [reflexivity|]. split; [reflexivity|]. apply lookup_insert_eq.
  - split; [reflexivity|]. split; [reflexivity|]. lia.
Qed.

Lemma encrypt_file_reports_complete_artifacts_only_witness :
  let r := encrypt_file (CompiledEncryptor.Cls demo.K0) "app.so" None demo.s_small in
  (fst r = Ok "app.so.encrypted"
   /\ stdout (world (snd r))
      = stdout (world demo.s_small) ++ ["File encrypted successfully: app.so.encrypted"]
   /\ fs (world (snd r)) !! "app.so.encrypted"
      = Some (artifact demo.f0 demo.P0 (world demo.s_small)))
  \/ (fst r = Raise (OSError "[Errno 28] No space left on device")
      /\ stdout (world (snd r)) = stdout (world demo.s_small)
      /\ disk_free (world demo.s_small) < Fernet.token_length (length demo.P0)).
Proof.
  apply (encrypt_file_reports_complete_artifacts_only demo.K0 demo.P0 demo.f0 "app.so" None
           demo.s_small).
  - vm_compute. reflexivity.
  - reflexivity.
Defined.

(** The size of a token, between bounds that are linear in the size of the
    payload. *)
Lemma token_length_bounds (n : nat) :
  4 * (n + 58) <= 3 * Fernet.token_length n <= 4 * n + 300
  /\ 100 <= Fernet.token_length n
  /\ Fernet.token_length n mod 4 = 0.
Proof.
  unfold Fernet.token_length.
  pose proof (Nat.div_mod_eq n 16) as Hn.
  pose proof (Nat.mod_upper_bound n 16 ltac:(lia)) as Hn'.
  set (q := n / 16) in *.
  pose proof (Nat.div_mod_eq (57 + 16 * (q + 1) + 2) 3) as Hd.
  pose proof (Nat.mod_upper_bound (57 + 16 * (q + 1) + 2) 3 ltac:(lia)) as Hd'.
  set (d := (57 + 16 * (q + 1) + 2) / 3) in *.
  split; [lia|]. split; [lia|].
  rewrite Nat.mul_comm. apply Nat.Div0.mod_mul.
Qed.

(** X4. The size of the artifact depends on the size of the payload only:
    for a payload of [n] bytes, a complete artifact is
    [4 * ((57 + 16 * (n / 16 + 1) + 2) / 3)] bytes long, a multiple of four
    that is at least 100 and lies between [4 (n + 58) / 3] and
    [(4 n + 300) / 3]. *)
Theorem artifact_size
    (K P : bytes) (f : Fernet.t) (file_path out : string) (output_path : option string)
    (s s' : Proc) :
  Fernet.new K = Ok f ->
  fs (world s) !! file_path = Some P ->
  encrypt_file (CompiledEncryptor.Cls K) file_path output_path s = (Ok out, s') ->
  exists A,
    fs (world s') !! out = Some A
    /\ length A = 4 * ((57 + 16 * (length P / 16 + 1) + 2) / 3)
    /\ length A mod 4 = 0
    /\ 100 <= length A
    /\ 4 * (length P + 58) <= 3 * length A <= 4 * length P + 300.
Proof.
  intros Hf Hfs Hrun.
  rewrite (encrypt_file_final (CompiledEncryptor.Cls K) file_path output_path s P f Hfs Hf)
    in Hrun.
  destruct (decide _) as [Hfit|Hfit]; [|discriminate Hrun].
  injection Hrun as <- <-. cbn [world fs set_stdout set_disk_free set_fs].
  exists (artifact f P (world s)). rewrite lookup_insert_eq, artifact_length.
  pose proof (token_length_bounds (length P)) as (Hb & Hmin & Hm).
  split; [reflexivity|]. split; [reflexivity|]. split; [exact Hm|].
  split; [exact Hmin | exact Hb].
Qed.

Lemma artifact_size_witness :
  exists A,
    fs (world demo.s1) !! "app.so.encrypted" = Some A
    /\ length A = 4 * ((57 + 16 * (length demo.P0 / 16 + 1) + 2) / 3)
    /\ length A mod 4 = 0
    /\ 100 <= length A
    /\ 4 * (length demo.P0 + 58) <= 3 * length A <= 4 * length demo.P0 + 300.
Proof.
  apply (artifact_size demo.K0 demo.P0 demo.f0 "app.so" "app.so.encrypted" None
           demo.s0 demo.s1).
  - vm_compute. reflexivity.
  - reflexivity.
  - vm_compute. reflexivity.
Defined.

(** X5. The artifact is text: whatever [encrypt_file] has written to the
    output path, in full or in part, consists of letters, digits, [-] and
    [_], and [=] as padding; [+], [/], blanks and line ends never occur. *)
Theorem artifact_is_urlsafe_text
    (K P : bytes) (f : Fernet.t) (file_path : string) (output_path : option string)
    (s : Proc) :
  Fernet.new K = Ok f ->
  fs (world s) !! file_path = Some P ->
  let s' := snd (encrypt_file (CompiledEncryptor.Cls K) file_path output_path s) in
  exists A,
    fs (world s') !! output_of file_path output_path = Some A
    /\ Forall (fun c => Base64.in_urlsafe_alphabet c = true \/ c = "="%byte) A.
Proof.
  intros Hf Hfs s'.
  destruct (encrypt_file_run (CompiledEncryptor.Cls K) file_path output_path s P f Hfs Hf)
    as (s1 & Hrun & Hfs' & _).
  assert (s' = s1) as -> by (subst s'; now rewrite Hrun).
  exists (take (disk_free (world s)) (artifact f P (world s))).
  split; [rewrite Hfs'; apply lookup_insert_eq|].
  apply Forall_take. unfold artifact. rewrite Fernet._encrypt_from_parts_eq.
  apply Base64.urlsafe_b64encode_alphabet.
Qed.

Lemma artifact_is_urlsafe_text_witness :
  exists A,
    fs (world (snd (encrypt_file (CompiledEncryptor.Cls demo.K0) "app.so" None demo.s_small)))
      !! "app.so.encrypted" = Some A
    /\ Forall (fun c => Base64.in_urlsafe_alphabet c = true \/ c = "="%byte) A.
Proof.
  apply (artifact_is_urlsafe_text demo.K0 demo.P0 demo.f0 "app.so" None demo.s_small).
  - vm_compute. reflexivity.
  - reflexivity.
Defined.

Lemma to_bytes_be_app (a b : nat) : forall n,
  to_bytes_be (a + b) n = to_bytes_be a (n / 256 ^ N.of_nat b)%N ++ to_bytes_be b n.
Proof.
  induction b as [|b IH]; intros n.
  - rewrite Nat.add_0_r. cbn [to_bytes_be N.of_nat]. rewrite N.pow_0_r, N.div_1_r.
    now rewrite app_nil_r.
  - rewrite Nat.add_succ_r. cbn [to_bytes_be]. rewrite IH, app_assoc.
    rewrite Nat2N.inj_succ, N.pow_succ_r', N.Div0.div_div.
    reflexivity.
Qed.

(** The first six characters of a token made before the year 2106. *)
Lemma token_prefix f data current_time iv :
  (current_time < 2 ^ 32)%N ->
  take 6 (Fernet._encrypt_from_parts f data current_time iv)
  = list_byte_of_string "gAAAAA".
Proof.
  intros Ht. rewrite Fernet._encrypt_from_parts_eq. unfold Fernet.basic_parts.
  rewrite (to_bytes_be_app 4 4).
  assert (current_time / 256 ^ N.of_nat 4 = 0)%N as ->.
  { apply N.div_small. exact Ht. }
  change (to_bytes_be 4 0) with [x00; x00; x00; x00].
  destruct (to_bytes_be 4 current_time) as [|b0 rest] eqn:E.
  { apply (f_equal length) in E. rewrite to_bytes_be_length in E. discriminate E. }
  unfold Base64.urlsafe_b64encode. cbn [app Base64.b64encode map take].
  reflexivity.
Qed.

(** X6. Every artifact written while the clock reads less than [2^32]
    seconds (until the year 2106) begins with the six characters [gAAAAA]:
    the version byte [0x80] and the four leading zero bytes of the 64-bit
    timestamp. *)
Theorem artifact_begins_with_gAAAAA
    (K P : bytes) (f : Fernet.t) (file_path : string) (output_path : option string)
    (s : Proc) :
  Fernet.new K = Ok f ->
  fs (world s) !! file_path = Some P ->
  (time_now (world s) < 2 ^ 32)%N ->
  6 <= disk_free (world s) ->
  let s' := snd (encrypt_file (CompiledEncryptor.Cls K) file_path output_path s) in
  exists A,
    fs (world s') !! output_of file_path output_path = Some A
    /\ take 6 A = list_byte_of_string "gAAAAA".
Proof.
  intros Hf Hfs Htime Hroom s'.
  destruct (encrypt_file_run (CompiledEncryptor.Cls K) file_path output_path s P f Hfs Hf)
    as (s1 & Hrun & Hfs' & _).
  assert (s' = s1) as -> by (subst s'; now rewrite Hrun).
  exists (take (disk_free (world s)) (artifact f P (world s))).
  split; [rewrite Hfs'; apply lookup_insert_eq|].
  rewrite take_take, Nat.min_l by assumption.
  now apply token_prefix.
Qed.

Lemma artifact_begins_with_gAAAAA_witness :
  exists A,
    fs (world (snd (encrypt_file (CompiledEncryptor.Cls demo.K0) "app.so" None demo.s_small)))
      !! "app.so.encrypted" = Some A
    /\ take 6 A = list_byte_of_string "gAAAAA".
Proof.
  apply (artifact_begins_with_gAAAAA demo.K0 demo.P0 demo.f0 "app.so" None demo.s_small).
  - vm_compute. reflexivity.
  - reflexivity.
  - reflexivity.
  - apply Nat.leb_le. reflexivity.
Defined.

(** ** [_decrypt_file]: what it raises, and what it tolerates *)

(** X7. What [_decrypt_file] does with an artifact file it has read. It
    leaves the process as it found it. When the key of the class is not a
    valid one it raises the [ValueError] of [Fernet(key)], which is outside
    the [try]. With a valid key it returns what [Fernet.decrypt] returns,
    and replaces whatever [Fernet.decrypt] raises ([InvalidToken], for every
    kind of damage) by the one [ValueError] with the text
    [Failed to decrypt file. Invalid encryption key.]. *)
Theorem _decrypt_file_outcomes
    (self : CythonRuntimeLoader.t) (s : Proc) (encrypted_data : bytes) :
  fs (world s) !! encrypted_file_path self = Some encrypted_data ->
  let r := fst (_decrypt_file self s) in
  snd (_decrypt_file self s) = s
  /\ (~ Fernet.valid_key (DECRYPTION_KEY (class self)) -> r = Raise Fernet.key_error)
  /\ (forall fernet, Fernet.new (DECRYPTION_KEY (class self)) = Ok fernet ->
        (forall data, Fernet.decrypt fernet encrypted_data = Ok data -> r = Ok data)
        /\ (forall e, Fernet.decrypt fernet encrypted_data = Raise e ->
              r = Raise decrypt_error)).
Proof.
  intros Hfs r. subst r.
  destruct (Fernet.new (DECRYPTION_KEY (class self))) as [f|e] eqn:Hnew.
  - pose proof (Fernet.new_Ok_valid _ _ Hnew) as Hvalid.
    rewrite (_decrypt_file_run _ _ _ _ Hfs Hnew). cbn [fst snd].
    split; [reflexivity|]. split; [intros H; contradiction|].
    intros fernet Hf. injection Hf as <-. unfold decrypt_outcome.
    split; [intros data -> | intros e ->]; reflexivity.
  - assert (~ Fernet.valid_key (DECRYPTION_KEY (class self))) as Hkey.
    { intros [f Hf]%Fernet.new_valid. congruence. }
    rewrite (_decrypt_file_bad_key _ _ _ Hfs Hkey). cbn [fst snd].
    split; [reflexivity|]. split; [reflexivity|]. discriminate.
Qed.

Lemma _decrypt_file_outcomes_witness :
  snd (_decrypt_file demo.loader demo.s_tampered) = demo.s_tampered
  /\ (~ Fernet.valid_key (DECRYPTION_KEY (class demo.loader)) ->
      fst (_decrypt_file demo.loader demo.s_tampered) = Raise Fernet.key_error)
  /\ (forall fernet, Fernet.new (DECRYPTION_KEY (class demo.loader)) = Ok fernet ->
        (forall data, Fernet.decrypt fernet demo.A0_tampered = Ok data ->
           fst (_decrypt_file demo.loader demo.s_tampered) = Ok data)
        /\ (forall e, Fernet.decrypt fernet demo.A0_tampered = Raise e ->
              fst (_decrypt_file demo.loader demo.s_tampered) = Raise decrypt_error)).
Proof.
  apply (_decrypt_file_outcomes demo.loader demo.s_tampered demo.A0_tampered).
  reflexivity.
Defined.

(** A token that decodes to fewer than 73 bytes (a version byte, a
    timestamp, an IV, one block and a tag) is refused, whatever its tag. *)
Lemma decrypt_short f token :
  (forall data, Base64.urlsafe_b64decode token = Some data -> length data < 73) ->
  exists e, Fernet.decrypt f token = Raise e.
Proof.
  intros Hshort. unfold Fernet.decrypt, Fernet._get_unverified_token_data.
  destruct (Base64.urlsafe_b64decode token) as [[|first rest]|]; [eauto| |eauto].
  specialize (Hshort _ eq_refl).
  set (data := first :: rest) in *.
  destruct (decide _); [eauto|]. destruct (decide _) as [|Hlong]; [eauto|].
  unfold Fernet._decrypt_data.
  destruct (negb _); [eauto|]. destruct (decide _); [eauto|].
  unfold CBC.aes_cbc_decrypt.
  set (ciphertext := drop 25 (take (length data - 32) data)).
  assert (Hct : length ciphertext < 16).
  { subst ciphertext. rewrite length_drop, length_take. lia. }
  destruct (decide _) as [[_ Hmod]|]; [|eauto].
  assert (ciphertext = []) as ->.
  { apply length_zero_iff_nil. rewrite Nat.mod_small in Hmod; assumption. }
  cbn. eauto.
Qed.

(** X8. A file of fewer than 98 bytes, the empty file among them, is no
    artifact for any key: [_decrypt_file] refuses it with the decryption
    [ValueError]. (The shortest artifact, the one of a payload of fewer
    than 16 bytes, has 100.) *)
Theorem short_file_is_rejected
    (K : bytes) (path : string) (name : option string) (s : Proc) (A' : bytes) :
  Fernet.valid_key K ->
  fs (world s) !! path = Some A' ->
  length A' < 98 ->
  _decrypt_file (__init__ (CythonRuntimeLoader.Cls K) path name) s
  = (Raise decrypt_error, s).
Proof.
  intros [f Hf]%Fernet.new_valid Hfs Hlen.
  rewrite (_decrypt_file_run (__init__ (CythonRuntimeLoader.Cls K) path name) s A' f Hfs Hf).
  unfold decrypt_outcome.
  destruct (decrypt_short f A') as [e ->]; [|reflexivity].
  intros data Hdata%Base64.urlsafe_b64decode_length. lia.
Qed.

Lemma short_file_is_rejected_witness :
  _decrypt_file (__init__ (CythonRuntimeLoader.Cls demo.K0) "app.so.encrypted" None)
    (mkProc (demo.w1_with [] ∅) [])
  = (Raise decrypt_error, mkProc (demo.w1_with [] ∅) []).
Proof.
  apply (short_file_is_rejected demo.K0 "app.so.encrypted" None
           (mkProc (demo.w1_with [] ∅) []) []).
  - eexists. split; [vm_compute; reflexivity | reflexivity].
  - reflexivity.
  - apply Nat.ltb_lt. reflexivity.
Defined.

(** The file at [path] replaced by [content]. *)
Definition with_file (path : string) (content : bytes) (s : Proc) : Proc :=
  mkProc (set_fs (<[path := content]>) (world s)) (exec_log s).

(** X9. Bytes that are neither letters, digits, [+], [/], [-], [_] nor [=]
    (line ends, blanks, NUL bytes, ...) do not count: inserted anywhere into
    a file, any number of them, they change nothing in what [_decrypt_file]
    returns or raises for it. An artifact that went through a tool that
    wraps lines or appends a newline still decrypts to its payload. *)
Theorem _decrypt_file_ignores_inserted_bytes
    (self : CythonRuntimeLoader.t) (s : Proc) (before junk after : bytes) :
  Forall (fun c => Base64.skipped (Base64.urlsafe_decode_translation c)) junk ->
  fst (_decrypt_file self
         (with_file (encrypted_file_path self) (before ++ junk ++ after) s))
  = fst (_decrypt_file self
           (with_file (encrypted_file_path self) (before ++ after) s)).
Proof.
  intros Hjunk.
  set (path := encrypted_file_path self).
  assert (Hfs : forall content,
            fs (world (with_file path content s)) !! path = Some content)
    by (intros content; apply lookup_insert_eq).
  destruct (Fernet.new (DECRYPTION_KEY (class self))) as [f|e] eqn:Hnew.
  - rewrite !(_decrypt_file_run self _ _ f (Hfs _) Hnew). cbn [fst].
    unfold decrypt_outcome, Fernet.decrypt, Fernet._get_unverified_token_data.
    now rewrite Base64.urlsafe_b64decode_insert_skipped.
  - assert (~ Fernet.valid_key (DECRYPTION_KEY (class self))) as Hkey.
    { intros [f Hf]%Fernet.new_valid. congruence. }
    now rewrite !(_decrypt_file_bad_key self _ _ (Hfs _) Hkey).
Qed.

Lemma _decrypt_file_ignores_inserted_bytes_witness :
  fst (_decrypt_file demo.loader
         (with_file "app.so.encrypted"
            (take 50 demo.A0 ++ list_byte_of_string (String "010" " ") ++ drop 50 demo.A0)
            demo.s1))
  = fst (_decrypt_file demo.loader
           (with_file "app.so.encrypted" (take 50 demo.A0 ++ drop 50 demo.A0) demo.s1)).
Proof.
  apply (_decrypt_file_ignores_inserted_bytes demo.loader demo.s1).
  repeat constructor; discriminate.
Defined.

(** The artifact of the demo world, broken into two lines and ended with a
    newline, decrypts to the payload. *)
Example wrapped_artifact_decrypts :
  fst (_decrypt_file demo.loader
         (with_file "app.so.encrypted"
            (take 50 demo.A0 ++ [x0a] ++ drop 50 demo.A0 ++ [x0a]) demo.s1))
  = Ok demo.P0.
Proof. vm_compute. reflexivity. Qed.

(** ** The module name [__init__] derives *)

(** X10. On a POSIX host, for an artifact named [<stem>.encrypted], in
    the working directory or under any directory: the loader built from its
    path alone takes [<stem>] for the module name, less one trailing
    [.encrypted] if the stem has one. [stem] is any file name that has a
    character other than a dot. *)
Theorem module_name_of_artifact_path
    (c : CythonRuntimeLoader.cls) (dir stem : string) :
  lacks os_path.slash stem ->
  existsb (fun c => negb (Ascii.eqb c os_path.dot)) (list_ascii_of_string stem) = true ->
  module_name (__init__ c (stem +:+ ".encrypted") None) = strip_encrypted stem
  /\ module_name (__init__ c (dir +:+ "/" +:+ stem +:+ ".encrypted") None)
     = strip_encrypted stem.
Proof.
  intros Hslash Hname.
  assert (Hfile : lacks os_path.slash (stem +:+ ".encrypted")).
  { unfold lacks in *. rewrite list_ascii_of_string_app, existsb_app, Hslash. reflexivity. }
  destruct (basename_file dir _ Hfile) as [Hdir Hbase].
  unfold __init__. cbn [module_name].
  rewrite Hdir, Hbase, (splitext_encrypted stem Hslash Hname). cbn [fst].
  split; reflexivity.
Qed.

Lemma module_name_of_artifact_path_witness :
  module_name (__init__ CythonRuntimeLoader ("app" +:+ ".encrypted") None)
  = strip_encrypted "app"
  /\ module_name (__init__ CythonRuntimeLoader ("dist/out" +:+ "/" +:+ "app" +:+ ".encrypted") None)
     = strip_encrypted "app".
Proof.
  apply (module_name_of_artifact_path CythonRuntimeLoader "dist/out" "app");
    reflexivity.
Defined.

(** ** [load_and_run]: failures *)

(** X11. [load_and_run] lets no [Exception] out: whatever the artifact,
    the host and the payload do, a call that does not return raises
    [SystemExit(1)], or else an exception that is no [Exception]
    ([SystemExit], [KeyboardInterrupt]) raised while the staged module was
    loaded or executed, which passes through unchanged. So a payload that
    calls [sys.exit(3)] ends the process with status 3. *)
Theorem load_and_run_raises_no_Exception
    (host : Host) (self : CythonRuntimeLoader.t) (s s' : Proc) (e : exn) :
  load_and_run host self s = (Raise e, s') ->
  is_Exception e = false
  /\ (e = SystemExit 1
      \/ exists temp_file_path s2 s3,
           load_staged host self temp_file_path s2 = (Raise e, s3)).
Proof.
  intros Hrun.
  destruct (load_and_run_inv _ _ _ _ _ Hrun)
    as [(e0 & _ & Hr & _) | [(d & e0 & s2 & _ & _ & Hr & _)
        | (d & temp & s2 & r3 & s3 & s4 & Hdec & Hstage & Hload & Hclean & Hr)]].
  - injection Hr as ->. auto.
  - injection Hr as ->. auto.
  - destruct r3 as [m|e0]; [destruct Hr as [Hr _]; discriminate Hr|].
    destruct (is_Exception e0) eqn:He0; destruct Hr as [Hr _]; injection Hr as ->.
    + auto.
    + split; [exact He0|]. right. eauto.
Qed.

(** A payload whose code calls [sys.exit(3)]. *)
Definition host_exiting : Host :=
  mkHost
    (fun name location => Some (mkSpec name location))
    (fun spec w => (Ok (mkModule (Some (spec_name spec)) (spec_origin spec)), w))
    (fun spec module w => (Raise (SystemExit 3), w)).

Lemma load_and_run_raises_no_Exception_witness :
  is_Exception (SystemExit 3) = false
  /\ (SystemExit 3 = SystemExit 1
      \/ exists temp_file_path s2 s3,
           load_staged host_exiting demo.loader temp_file_path s2
           = (Raise (SystemExit 3), s3)).
Proof.
  apply (load_and_run_raises_no_Exception host_exiting demo.loader demo.s1
           (snd (load_and_run host_exiting demo.loader demo.s1))).
  vm_compute. reflexivity.
Defined.

(** X12. Nothing is staged, loaded or executed unless the artifact
    decrypted: when [_decrypt_file] raises [e], [load_and_run] prints the one
    line [Error loading encrypted extension: <e>], raises [SystemExit(1)],
    and has changed nothing else: no file, no temporary name used, no entry of
    [sys.modules], no call of [exec_module]. *)
Theorem nothing_is_loaded_unless_decrypted
    (host : Host) (self : CythonRuntimeLoader.t) (s : Proc) (e : exn) :
  fst (_decrypt_file self s) = Raise e ->
  load_and_run host self s
  = (Raise (SystemExit 1),
     mkProc (set_stdout
               (fun out => out ++ ["Error loading encrypted extension: " +:+ str_exn e])
               (world s))
            (exec_log s)).
Proof.
  intros Hdec.
  destruct (_decrypt_file self s) as [r s1] eqn:Hrun. cbn [fst] in Hdec. subst r.
  destruct (_decrypt_file_inv _ _ _ _ Hrun) as [-> He].
  unfold load_and_run, try_except_Exception.
  rewrite (bind_Raise _ _ _ _ _ Hrun), He. reflexivity.
Qed.

Lemma nothing_is_loaded_unless_decrypted_witness :
  load_and_run demo.host0 demo.loader demo.s_garbage
  = (Raise (SystemExit 1),
     mkProc (set_stdout
               (fun out => out ++ ["Error loading encrypted extension: "
                                   +:+ str_exn decrypt_error])
               (world demo.s_garbage))
            (exec_log demo.s_garbage)).
Proof.
  apply (nothing_is_loaded_unless_decrypted demo.host0 demo.loader demo.s_garbage).
  vm_compute. reflexivity.
Defined.

(** The run of [load_and_run] once the payload is staged. *)
Lemma load_and_run_staged host self s decrypted_data temp_file_path s2 r3 s3 s4 :
  _decrypt_file self s = (Ok decrypted_data, s) ->
  stage decrypted_data s = (Ok temp_file_path, s2) ->
  load_staged host self temp_file_path s2 = (r3, s3) ->
  cleanup temp_file_path s3 = (Ok tt, s4) ->
  load_and_run host self s
  = match r3 with
    | Ok module => (Ok module, s4)
    | Raise e =>
        if is_Exception e then (Raise (SystemExit 1), reported e s4) else (Raise e, s4)
    end.
Proof.
  intros Hdec Hstage Hload Hclean.
  destruct (load_and_run host self s) as [r s'] eqn:Hrun.
  destruct (load_and_run_inv _ _ _ _ _ Hrun)
    as [(e & Hdec' & _) | [(d & e & s2' & Hdec' & Hstage' & _)
        | (d & temp & s2' & r3' & s3' & s4' & Hdec' & Hstage' & Hload' & Hclean' & Hr)]].
  - congruence.
  - assert (d = decrypted_data) by congruence. subst d. congruence.
  - assert (d = decrypted_data) by congruence. subst d.
    assert (temp = temp_file_path /\ s2' = s2) as [-> ->] by (split; congruence).
    assert (r3' = r3 /\ s3' = s3) as [-> ->] by (split; congruence).
    assert (s4' = s4) as -> by congruence.
    destruct r3 as [m|e]; [now destruct Hr as [-> ->]|].
    destruct (is_Exception e); now destruct Hr as [-> ->].
Qed.

(** Staging prints nothing and locks nothing. *)
Lemma stage_frame decrypted_data s r s2 :
  stage decrypted_data s = (r, s2) ->
  stdout (world s2) = stdout (world s) /\ undeletable (world s2) = undeletable (world s).
Proof.
  unfold stage.
  rewrite (bind_Ok _ _ _ _ _ (_get_extension_suffix_run s)).
  pose proof (NamedTemporaryFile_run (extension_suffix (world s)) s) as Htmp.
  destruct (mkstemp _ _ _) as [[path|] rest].
  - rewrite (bind_Ok _ _ _ _ _ Htmp).
    match goal with
    | |- context [file_write path decrypted_data] =>
        pose proof (file_write_run path decrypted_data
          (mkProc (set_fs (<[path := []]>) (set_tmp_candidates rest (world s)))
                  (exec_log s))) as Hw
    end.
    destruct (decide _).
    + rewrite (bind_Ok _ _ _ _ _ Hw). intros H. inversion H; subst. now cbn.
    + rewrite (bind_Raise _ _ _ _ _ Hw). intros H. inversion H; subst. now cbn.
  - rewrite (bind_Raise _ _ _ _ _ Htmp). intros H. inversion H; subst. now cbn.
Qed.

(** X13. When the import system has no loader for the staged file
    ([spec_from_file_location] returns [None]), [load_and_run] reports
    [Could not load spec for <staged file>] and raises [SystemExit(1)];
    nothing was registered in [sys.modules], nothing was executed, and
    (the staged file being deletable) the files are as they were before the
    call. *)
Theorem load_and_run_without_spec
    (host : Host) (self : CythonRuntimeLoader.t) (s s2 : Proc)
    (decrypted_data : bytes) (temp_file_path : string) :
  _decrypt_file self s = (Ok decrypted_data, s) ->
  stage decrypted_data s = (Ok temp_file_path, s2) ->
  spec_from_file_location host (module_name self) temp_file_path = None ->
  temp_file_path ∉ undeletable (world s) ->
  exists s',
    load_and_run host self s = (Raise (SystemExit 1), s')
    /\ stdout (world s')
       = stdout (world s)
         ++ ["Error loading encrypted extension: Could not load spec for "
             +:+ temp_file_path]
    /\ fs (world s') = fs (world s)
    /\ sys_modules (world s') = sys_modules (world s)
    /\ exec_log s' = exec_log s.
Proof.
  intros Hdec Hstage Hspec Hdel.
  destruct (stage_inv _ _ _ _ Hstage) as (Hlog & Hmods & _ & Hfree & Hfs2).
  destruct (stage_frame _ _ _ _ Hstage) as [Hout Hund].
  assert (Hload : load_staged host self temp_file_path s2
                  = (Raise (ImportError ("Could not load spec for " +:+ temp_file_path)), s2)).
  { unfold load_staged. now rewrite Hspec. }
  assert (Hclean : cleanup temp_file_path s2
                   = (Ok tt, mkProc (set_fs (delete temp_file_path) (world s2)) (exec_log s2))).
  { unfold cleanup, try_except_pass, os_unlink.
    cbv [get_world mbind M_bind mret M_ret raise modify_world].
    rewrite Hfs2, lookup_insert_eq.
    destruct (decide _) as [Hin|_]; [|reflexivity].
    rewrite Hund in Hin. contradiction. }
  rewrite (load_and_run_staged _ _ _ _ _ _ _ _ _ Hdec Hstage Hload Hclean).
  cbn [is_Exception]. eexists. split; [reflexivity|].
  cbn [reported world exec_log stdout fs sys_modules set_stdout set_fs str_exn].
  rewrite Hout, Hfs2, Hmods, Hlog.
  split; [reflexivity|]. split; [|split; reflexivity].
  rewrite delete_insert_eq. now apply delete_id.
Qed.

(** An import system with no loader for any file name. *)
Definition host_without_loader : Host :=
  mkHost
    (fun name location => None)
    (fun spec w => (Ok (mkModule (Some (spec_name spec)) (spec_origin spec)), w))
    (fun spec module w => (Ok tt, w)).

Lemma load_and_run_without_spec_witness :
  exists s',
    load_and_run host_without_loader demo.loader demo.s1 = (Raise (SystemExit 1), s')
    /\ stdout (world s')
       = stdout (world demo.s1)
         ++ ["Error loading encrypted extension: Could not load spec for "
             +:+ demo.staged_path]
    /\ fs (world s') = fs (world demo.s1)
    /\ sys_modules (world s') = sys_modules (world demo.s1)
    /\ exec_log s' = exec_log demo.s1.
Proof.
  eapply (load_and_run_without_spec host_without_loader demo.loader demo.s1).
  - vm_compute. reflexivity.
  - vm_compute. reflexivity.
  - reflexivity.
  - vm_compute. set_solver.
Defined.

(** Once [load_staged] has called [exec_module], the module it executed is
    the one registered under the loader's module name, whether or not the
    execution succeeded. *)
Lemma load_staged_executed host self temp_file_path s r s' :
  load_staged host self temp_file_path s = (r, s') ->
  exec_log s' <> exec_log s ->
  keeps_sys_modules host (module_name self) ->
  exists module,
    sys_modules (world s') !! module_name self = Some module
    /\ Forall (fun c => call_module c = module) (drop (length (exec_log s)) (exec_log s')).
Proof.
  unfold load_staged.
  destruct (spec_from_file_location host (module_name self) temp_file_path) as [spec|].
  2:{ intros H. inversion H; subst. contradiction. }
  unfold module_from_spec, exec_module, hasattr___name__, setattr___name__, lift_world.
  cbv [mbind M_bind mret M_ret get_world modify_world raise].
  cbn [world exec_log].
  destruct (create_module host spec (world s)) as [[obj|e] w1].
  2:{ intros H. inversion H; subst. contradiction. }
  cbn [world exec_log heap sys_modules set_heap set_sys_modules].
  set (m := fresh (dom (heap w1))).
  set (name := match mod___name__ obj with Some n => Some n | None => Some (spec_name spec) end).
  set (w2 := set_sys_modules (<[module_name self := m]>)
               (set_heap (<[m := mkModule name (mod___file__ obj)]>) w1)).
  intros Hrun _ Hkeeps. exists m.
  pose proof (Hkeeps spec m w2) as H1.
  destruct (exec_module_code host spec m w2) as [[[]|e] w3] eqn:Hexec1; cbn [snd] in H1.
  2:{ inversion Hrun; subst. cbn [world exec_log]. split.
      - rewrite H1. subst w2. cbn [sys_modules set_sys_modules]. apply lookup_insert_eq.
      - rewrite drop_app_length. now repeat constructor. }
  cbn [world exec_log heap sys_modules] in Hrun.
  assert (Hreg : sys_modules w3 !! module_name self = Some m).
  { rewrite H1. subst w2. cbn [sys_modules set_sys_modules]. apply lookup_insert_eq. }
  destruct (bool_decide _).
  - cbn [world exec_log heap sys_modules set_heap] in Hrun.
    match type of Hrun with
    | context [exec_module_code host spec m ?w] =>
        pose proof (Hkeeps spec m w) as H2;
        destruct (exec_module_code host spec m w) as [[[]|e] w5]
    end; cbn [snd sys_modules set_heap] in H2;
      inversion Hrun; subst; cbn [world exec_log]; (split; [congruence|]);
      rewrite <- app_assoc, drop_app_length; now repeat constructor.
  - inversion Hrun; subst. cbn [world exec_log]. split; [exact Hreg|].
    rewrite drop_app_length. now repeat constructor.
Qed.

(** X14. The loader registers before it executes and never unregisters:
    whenever [load_and_run] has called [exec_module], the module it executed
    is in [sys.modules] under the loader's module name when [load_and_run]
    ends, also when the execution raised and the call ends in
    [SystemExit(1)]. (As for a successful load, the payload's own code must
    not rebind that entry.) *)
Theorem executed_module_stays_registered
    (host : Host) (self : CythonRuntimeLoader.t) (s s' : Proc) (r : result nat) :
  load_and_run host self s = (r, s') ->
  exec_log s' <> exec_log s ->
  keeps_sys_modules host (module_name self) ->
  exists module,
    sys_modules (world s') !! module_name self = Some module
    /\ Forall (fun c => call_module c = module) (drop (length (exec_log s)) (exec_log s')).
Proof.
  intros Hrun Hlog Hkeeps.
  destruct (load_and_run_inv _ _ _ _ _ Hrun)
    as [(e & _ & _ & ->) | [(d & e & s2 & _ & Hstage & _ & ->)
        | (d & temp & s2 & r3 & s3 & s4 & Hdec & Hstage & Hload & Hclean & Hr)]].
  - now contradiction Hlog.
  - destruct (stage_inv _ _ _ _ Hstage) as (Hlog2 & _). now contradiction Hlog.
  - destruct (stage_inv _ _ _ _ Hstage) as (Hlog2 & _).
    destruct (cleanup_run temp s3) as (s4' & Hclean' & Hlog4 & _ & Hmods4 & _).
    rewrite Hclean in Hclean'. inversion Hclean'; subst s4'.
    assert (Hs' : exec_log s' = exec_log s3
                  /\ sys_modules (world s') = sys_modules (world s3)).
    { destruct r3 as [m|e]; [destruct Hr as [_ ->]; auto|].
      destruct (is_Exception e); destruct Hr as [_ ->]; auto. }
    destruct Hs' as [Hlog' Hmods'].
    rewrite Hlog', Hmods', <- Hlog2.
    apply (load_staged_executed _ _ _ _ _ _ Hload); [congruence | exact Hkeeps].
Qed.

Lemma executed_module_stays_registered_witness :
  exists module,
    sys_modules (world (snd (load_and_run demo.host_raising demo.loader demo.s1)))
      !! module_name demo.loader = Some module
    /\ Forall (fun c => call_module c = module)
         (drop (length (exec_log demo.s1))
            (exec_log (snd (load_and_run demo.host_raising demo.loader demo.s1)))).
Proof.
  apply (executed_module_stays_registered demo.host_raising demo.loader demo.s1
           (snd (load_and_run demo.host_raising demo.loader demo.s1))
           (fst (load_and_run demo.host_raising demo.loader demo.s1))).
  - apply surjective_pairing.
  - vm_compute. discriminate.
  - intros spec module w. reflexivity.
Defined.

(** ** The staged file and the module that comes of it *)

Lemma mkstemp_suffix suffix w : forall candidates name rest,
  mkstemp suffix candidates w = (Some name, rest) -> endswith name suffix = true.
Proof.
  induction candidates as [|c cs IH]; intros name rest; cbn [mkstemp].
  - discriminate.
  - destruct (decide _); [apply IH|].
    intros H. inversion H; subst. apply endswith_append.
Qed.

(** X15. The file the loader stages the payload in: its name ends in
    [.pyd] when [sys.platform] is [win32] and in [.so] on every other
    platform, no file of that name existed before (staging never overwrites
    a file, the artifact least of all), and once staged it holds exactly the
    decrypted payload, every other file being as it was. *)
Theorem staged_file_is_fresh_and_holds_payload
    (decrypted_data : bytes) (s s2 : Proc) (temp_file_path : string) :
  stage decrypted_data s = (Ok temp_file_path, s2) ->
  endswith temp_file_path
    (if decide (sys_platform (world s) = "win32") then ".pyd" else ".so") = true
  /\ fs (world s) !! temp_file_path = None
  /\ fs (world s2) = <[temp_file_path := decrypted_data]> (fs (world s)).
Proof.
  intros Hstage.
  destruct (stage_inv _ _ _ _ Hstage) as (_ & _ & _ & Hfree & Hfs).
  split; [|split; assumption].
  unfold stage in Hstage.
  rewrite (bind_Ok _ _ _ _ _ (_get_extension_suffix_run s)) in Hstage.
  pose proof (NamedTemporaryFile_run (extension_suffix (world s)) s) as Htmp.
  pose proof (mkstemp_suffix (extension_suffix (world s)) (world s)
                (tmp_candidates (world s))) as Hsuffix.
  destruct (mkstemp _ _ _) as [[path|] rest].
  - specialize (Hsuffix path rest eq_refl).
    rewrite (bind_Ok _ _ _ _ _ Htmp) in Hstage.
    assert (temp_file_path = path) as ->.
    { unfold mbind, M_bind in Hstage.
      destruct (file_write path decrypted_data _) as [[[]|e] s3];
        inversion Hstage; reflexivity. }
    exact Hsuffix.
  - rewrite (bind_Raise _ _ _ _ _ Htmp) in Hstage. discriminate Hstage.
Qed.

Lemma staged_file_is_fresh_and_holds_payload_witness :
  endswith demo.staged_path
    (if decide (sys_platform (world demo.s1) = "win32") then ".pyd" else ".so") = true
  /\ fs (world demo.s1) !! demo.staged_path = None
  /\ fs (world (snd (stage demo.P0 demo.s1)))
     = <[demo.staged_path := demo.P0]> (fs (world demo.s1)).
Proof.
  apply (staged_file_is_fresh_and_holds_payload demo.P0 demo.s1).
  vm_compute. reflexivity.
Defined.

(** Code that leaves the [__name__] of the module it runs in alone. *)
Definition keeps___name__ (host : Host) : Prop :=
  forall spec module w,
    heap (snd (exec_module_code host spec module w)) !! module ≫= mod___name__
    = heap w !! module ≫= mod___name__.

Lemma cython_host_keeps___name__ body : keeps___name__ (demo.cython_host body).
Proof.
  intros spec module w. cbn [exec_module_code demo.cython_host].
  unfold demo.cython_exec.
  destruct (native w !! spec_origin spec); [destruct (bool_decide _)|]; reflexivity.
Qed.

Lemma load_staged_renames host self temp_file_path s module s' :
  load_staged host self temp_file_path s = (Ok module, s') ->
  keeps___name__ host ->
  heap (world s') !! module ≫= mod___name__ = Some "__main__"
  /\ exists name,
       exec_log s'
       = exec_log s ++ [mkExecCall module (Some name); mkExecCall module (Some "__main__")].
Proof.
  unfold load_staged.
  destruct (spec_from_file_location host (module_name self) temp_file_path) as [spec|];
    [|discriminate].
  unfold module_from_spec, exec_module, hasattr___name__, setattr___name__, lift_world.
  cbv [mbind M_bind mret M_ret get_world modify_world raise].
  cbn [world exec_log].
  destruct (create_module host spec (world s)) as [[obj|e] w1]; [|discriminate].
  cbn [world exec_log heap sys_modules set_heap set_sys_modules].
  set (m := fresh (dom (heap w1))).
  set (name := match mod___name__ obj with Some n => Some n | None => Some (spec_name spec) end).
  rewrite lookup_insert_eq. cbn [mbind option_bind mod___name__].
  assert (exists n, name = Some n) as [n Hn]
    by (subst name; destruct (mod___name__ obj); eauto).
  rewrite Hn.
  set (w2 := set_sys_modules _ (set_heap _ w1)).
  intros Hrun Hkeeps.
  pose proof (Hkeeps spec m w2) as H1.
  destruct (exec_module_code host spec m w2) as [[[]|e] w3] eqn:Hexec1; [|discriminate].
  cbn [snd] in H1. cbn [world exec_log heap sys_modules] in Hrun.
  assert (Hname3 : heap w3 !! m ≫= mod___name__ = Some n).
  { rewrite H1. subst w2. cbn [heap set_sys_modules set_heap].
    now rewrite lookup_insert_eq. }
  assert (Hsome : is_Some (heap w3 !! m ≫= mod___name__)) by (rewrite Hname3; eauto).
  rewrite bool_decide_eq_true_2 in Hrun by exact Hsome.
  cbn [world exec_log heap sys_modules set_heap] in Hrun.
  rewrite lookup_alter_eq in Hrun.
  destruct (heap w3 !! m) as [o|] eqn:Hm; [|discriminate Hname3].
  cbn [fmap option_fmap option_map mbind option_bind mod___name__] in Hrun.
  match type of Hrun with
  | context [exec_module_code host spec m ?w] =>
      pose proof (Hkeeps spec m w) as H2;
      destruct (exec_module_code host spec m w) as [[[]|e] w5]
  end; [|discriminate Hrun].
  cbn [snd heap set_heap] in H2. rewrite lookup_alter_eq, Hm in H2.
  inversion Hrun; subst. cbn [world exec_log]. split; [exact H2|].
  exists n. now rewrite <- app_assoc.
Qed.

(** X16. The module a successful [load_and_run] returns is named
    [__main__]: for a payload whose code does not itself change the
    [__name__] of its module, the loader has called [exec_module] on the
    module twice, the second time after renaming it (what that second call
    runs is up to the extension: a Cython-built module runs nothing more),
    and the module object it returns (the one it registered in
    [sys.modules] under the loader's module name) has
    [__name__ == '__main__'], not the name it was imported under. *)
Theorem loaded_module_is_named___main__
    (host : Host) (self : CythonRuntimeLoader.t) (s s' : Proc) (module : nat) :
  load_and_run host self s = (Ok module, s') ->
  keeps___name__ host ->
  heap (world s') !! module ≫= mod___name__ = Some "__main__"
  /\ exists name,
       exec_log s'
       = exec_log s ++ [mkExecCall module (Some name); mkExecCall module (Some "__main__")].
Proof.
  intros Hrun Hkeeps.
  destruct (load_and_run_inv _ _ _ _ _ Hrun)
    as [(e & _ & Hr & _) | [(d & e & s2 & _ & _ & Hr & _)
        | (d & temp & s2 & r3 & s3 & s4 & Hdec & Hstage & Hload & Hclean & Hr)]];
    try discriminate Hr.
  destruct r3 as [m|e].
  - destruct Hr as [Hm ->]. inversion Hm; subst m.
    destruct (load_staged_renames _ _ _ _ _ _ Hload Hkeeps) as [Hname [name Hlog]].
    destruct (stage_inv _ _ _ _ Hstage) as (Hlog2 & _).
    destruct (cleanup_run temp s3) as (s4' & Hclean' & Hlog4 & _ & _ & Hheap & _).
    rewrite Hclean in Hclean'. inversion Hclean'; subst s4'.
    rewrite Hheap, Hlog4, <- Hlog2. split; [exact Hname | now exists name].
  - destruct (is_Exception e); destruct Hr as [Hr _]; discriminate Hr.
Qed.

Lemma loaded_module_is_named___main___witness :
  heap (world (snd (load_and_run demo.host0 demo.loader demo.s1))) !! 0 ≫= mod___name__
  = Some "__main__"
  /\ exists name,
       exec_log (snd (load_and_run demo.host0 demo.loader demo.s1))
       = exec_log demo.s1 ++ [mkExecCall 0 (Some name); mkExecCall 0 (Some "__main__")].
Proof.
  apply (loaded_module_is_named___main__ demo.host0 demo.loader demo.s1).
  - vm_compute. reflexivity.
  - apply cython_host_keeps___name__.
Defined.

(** ** The entry points *)

(** X17. [main] of [runtime_loader.py] checks its command line before it
    loads anything. With an argument count other than one it prints the
    usage line, and with one argument that names no file it prints
    [Encrypted file not found: <path>]; both times it raises [SystemExit(1)]
    having done nothing else: no file is read or written and the import
    system is not consulted. *)
Theorem main_refuses_before_loading (host : Host) (s : Proc) :
  (length (sys_argv (world s)) <> 2 ->
   main host s
   = (Raise (SystemExit 1),
      mkProc (set_stdout
                (fun out => out ++ ["Usage: python runtime_loader.py <encrypted_compiled_file>"])
                (world s))
             (exec_log s)))
  /\ (forall prog path,
        sys_argv (world s) = [prog; path] ->
        fs (world s) !! path = None ->
        main host s
        = (Raise (SystemExit 1),
           mkProc (set_stdout (fun out => out ++ ["Encrypted file not found: " +:+ path])
                     (world s))
                  (exec_log s))).
Proof.
  split.
  - intros Hargv. unfold main. cbv [get_world mbind M_bind mret M_ret].
    now destruct (decide _).
  - intros prog path Hargv Hfs. unfold main, os_path_exists.
    cbv [get_world mbind M_bind mret M_ret]. rewrite Hargv. cbn [length nth].
    destruct (decide (2 <> 2)) as [H|_]; [contradiction|].
    rewrite Hfs, bool_decide_eq_false_2 by (intros [x Hx]; discriminate Hx).
    reflexivity.
Qed.

(** X18. [app_launcher.py] is [runtime_loader.py] with the path
    [app.encrypted] built in: in a process whose command line is
    [<prog> app.encrypted] and that has this file, the two [main] functions
    return or raise the same and leave the same state. *)
Theorem app_launcher_is_runtime_loader_on_app_encrypted
    (host : Host) (s : Proc) (prog : string) :
  sys_argv (world s) = [prog; app_launcher.ENCRYPTED_APP_NAME] ->
  is_Some (fs (world s) !! app_launcher.ENCRYPTED_APP_NAME) ->
  app_launcher.main host s = main host s.
Proof.
  intros Hargv Hfs. unfold app_launcher.main, main, os_path_exists.
  cbv [get_world mbind M_bind mret M_ret]. rewrite Hargv. cbn [length nth].
  destruct (decide (2 <> 2)) as [H|_]; [contradiction|].
  rewrite bool_decide_eq_true_2 by assumption. reflexivity.
Qed.

(** The demo world with the artifact under the launcher's name. *)
Definition s_launcher : Proc :=
  mkProc (set_sys_argv ["app_launcher.py"; "app.encrypted"]
            (set_fs (<["app.encrypted" := demo.A0]>) demo.w1)) [].

Lemma app_launcher_is_runtime_loader_on_app_encrypted_witness :
  app_launcher.main demo.host0 s_launcher = main demo.host0 s_launcher.
Proof.
  apply (app_launcher_is_runtime_loader_on_app_encrypted demo.host0 s_launcher
           "app_launcher.py").
  - reflexivity.
  - eexists. vm_compute. reflexivity.
Defined.

Example app_launcher_demo :
  fst (app_launcher.main demo.host0 s_launcher) = Ok tt
  /\ exec_log (snd (app_launcher.main demo.host0 s_launcher))
     = [mkExecCall 0 (Some "app"); mkExecCall 0 (Some "__main__")].
Proof. by_computation. Qed.

(** ** [generate_key] *)

(** The bytes of a URL-safe base64 text print as themselves. *)
Lemma repr_byte_urlsafe c :
  Base64.in_urlsafe_alphabet c = true \/ c = "="%byte ->
  c <> "'"%byte /\ repr_byte "'" c = String (ascii_of_byte c) "".
Proof.
  intros Hc.
  assert (Hin : In c (Base64.urlsafe_alphabet ++ ["="%byte])).
  { apply in_or_app. destruct Hc as [Hc| ->]; [left | right; now left].
    unfold Base64.in_urlsafe_alphabet in Hc. apply existsb_exists in Hc as (x & Hx & Heq).
    apply bool_decide_eq_true in Heq. now subst x. }
  assert (Hall : forallb (fun c => negb (bool_decide (c = "'"%byte))
                                   && bool_decide (repr_byte "'" c = String (ascii_of_byte c) ""))
                   (Base64.urlsafe_alphabet ++ ["="%byte]) = true)
    by (vm_compute; reflexivity).
  rewrite forallb_forall in Hall. specialize (Hall c Hin).
  apply andb_true_iff in Hall as [H1 H2].
  apply negb_true_iff, bool_decide_eq_false in H1. apply bool_decide_eq_true in H2.
  auto.
Qed.

Lemma string_of_list_byte_cons c s :
  string_of_list_byte (c :: s) = String (ascii_of_byte c) (string_of_list_byte s).
Proof. reflexivity. Qed.

Lemma repr_bytes_urlsafe s :
  Forall (fun c => Base64.in_urlsafe_alphabet c = true \/ c = "="%byte) s ->
  repr_bytes s = "b'" +:+ string_of_list_byte s +:+ "'".
Proof.
  intros Hs. unfold repr_bytes.
  assert (Hq : bool_decide ("'"%byte ∈ s) = false).
  { apply bool_decide_eq_false. intros Hin.
    rewrite Forall_forall in Hs. destruct (repr_byte_urlsafe _ (Hs _ Hin)) as [Hne _].
    now apply Hne. }
  rewrite Hq. cbn [andb].
  change ("b'" +:+ string_of_list_byte s +:+ "'")
    with ("b" +:+ String "'" (string_of_list_byte s +:+ "'")).
  do 2 f_equal. clear Hq.
  induction Hs as [|c s Hc _ IH]; [reflexivity|].
  cbn [fold_right]. destruct (repr_byte_urlsafe c Hc) as [_ ->].
  rewrite string_of_list_byte_cons, !append_cons. f_equal. exact IH.
Qed.

(** X19. [generate_key] always returns a key [Fernet(key)] accepts: the
    44 characters that encode the next 32 bytes of [os.urandom]. It prints
    the key as the bytes literal [b'<key>'], followed by the reminder to
    update the two source files, and changes no file. *)
Theorem generate_key_returns_valid_key (c : CompiledEncryptor.cls) (s : Proc) :
  exists key s',
    generate_key c s = (Ok key, s')
    /\ Fernet.valid_key key
    /\ Base64.urlsafe_b64decode key
       = Some (map (urandom (world s)) (seq (urandom_pos (world s)) 32))
    /\ length key = 44
    /\ stdout (world s')
       = stdout (world s)
         ++ ["Generated encryption key: b'" +:+ string_of_list_byte key +:+ "'";
             "Update ENCRYPTION_KEY in both encrypt_compiled.py and runtime_loader.py"]
    /\ fs (world s') = fs (world s).
Proof.
  set (r := map (urandom (world s)) (seq (urandom_pos (world s)) 32)).
  assert (Hr : length r = 32) by (subst r; now rewrite length_map, length_seq).
  exists (Base64.urlsafe_b64encode r).
  exists (mkProc
            (set_stdout
               (fun out => out ++ ["Update ENCRYPTION_KEY in both encrypt_compiled.py and runtime_loader.py"])
               (set_stdout
                  (fun out => out ++ ["Generated encryption key: "
                                      +:+ repr_bytes (Base64.urlsafe_b64encode r)])
                  (set_urandom_pos (urandom_pos (world s) + 32) (world s))))
            (exec_log s)).
  split; [reflexivity|].
  split; [|split; [|split; [|split]]].
  - exists r. split; [apply Base64.urlsafe_b64decode_encode | exact Hr].
  - apply Base64.urlsafe_b64decode_encode.
  - now rewrite Base64.urlsafe_b64encode_length, Hr.
  - cbn [world stdout set_stdout set_urandom_pos].
    rewrite (repr_bytes_urlsafe _ (Base64.urlsafe_b64encode_alphabet r)).
    now rewrite <- app_assoc.
  - reflexivity.
Qed.

Example generate_key_demo :
  fst (generate_key CompiledEncryptor demo.s0)
  = Ok (list_byte_of_string "AAECAwQFBgcICQoLDA0ODxAREhMUFRYXGBkaGxwdHh8=").
Proof. vm_compute. reflexivity. Qed.

(** ** The script part of [encrypt_compiled.py] *)

(** The process after [lines] have been printed. *)
Definition printed (lines : list string) (s : Proc) : Proc :=
  mkProc (set_stdout (fun out => out ++ lines) (world s)) (exec_log s).

Lemma print_run line s : print line s = (Ok tt, printed [line] s).
Proof. reflexivity. Qed.

(** X20. Run with a path that names no file, [encrypt_compiled.py]
    prints [File not found!] and ends normally, with exit status 0 and no
    other effect; run with two or more arguments it ends normally without
    doing anything at all. (The loader's [main] exits with status 1 in both
    cases.) *)
Theorem encrypt_compiled_script_reports_no_failure
    (input : string -> M string) (s : Proc) :
  (forall prog path,
     sys_argv (world s) = [prog; path] ->
     fs (world s) !! path = None ->
     encrypt_compiled.__main__ input s = (Ok tt, printed ["File not found!"] s)
     /\ exit_status (fst (encrypt_compiled.__main__ input s)) = 0%Z)
  /\ (2 < length (sys_argv (world s)) ->
      encrypt_compiled.__main__ input s = (Ok tt, s)).
Proof.
  split.
  - intros prog path Hargv Hfs.
    assert (H : encrypt_compiled.__main__ input s = (Ok tt, printed ["File not found!"] s)).
    { unfold encrypt_compiled.__main__, os_path_exists.
      cbv [get_world mbind M_bind mret M_ret]. rewrite Hargv. cbn [length nth].
      destruct (decide (2 = 1)) as [H|_]; [discriminate H|].
      destruct (decide (2 = 2)) as [_|H]; [|contradiction].
      rewrite Hfs, bool_decide_eq_false_2 by (intros [x Hx]; discriminate Hx).
      reflexivity. }
    now rewrite H.
  - intros Hargv. unfold encrypt_compiled.__main__.
    cbv [get_world mbind M_bind mret M_ret].
    destruct (decide _) as [H|_]; [lia|].
    destruct (decide _) as [H|_]; [lia|]. reflexivity.
Qed.

(** ** [compile_to_cython] *)

Import cythonize_app.

Lemma compile_to_cython_missing host source_file output_dir s :
  fs (world s) !! source_file = None ->
  compile_to_cython host source_file output_dir s
  = (Raise (FileNotFoundError ("Source file not found: " +:+ source_file)), s).
Proof.
  intros Hfs. unfold compile_to_cython, os_path_exists.
  cbv [get_world mbind M_bind mret M_ret].
  rewrite Hfs, bool_decide_eq_false_2 by (intros [x Hx]; discriminate Hx).
  reflexivity.
Qed.

(** Build tools that do nothing and a compiler that fails. *)
Definition host_failing_compiler : BuildHost :=
  mkBuildHost "/usr/bin/python3"
    (fun w => (Ok "/home/user/project", w))
    (fun path w => (Ok tt, w))
    (fun path text w => (Ok tt, w))
    (fun src dst w => (Ok tt, w))
    (fun args cwd w => (Ok (mkCompletedProcess 1 "" "error: command 'gcc' failed"), w))
    (fun path w => (Ok [], w))
    (fun path w => (Ok tt, w)).

Lemma append_not_empty (a b : string) : b <> "" -> a +:+ b <> "".
Proof.
  intros Hb H. apply (f_equal String.length) in H. rewrite append_length in H.
  destruct b; [contradiction | cbn in H; lia].
Qed.

Lemma join_not_empty (a b : string) : b <> "" -> os_path.join a b <> "".
Proof.
  intros Hb. unfold os_path.join. destruct b as [|c b]; [contradiction|].
  destruct (Ascii.eqb c os_path.slash); [discriminate|].
  destruct (_ || _); repeat apply append_not_empty; discriminate.
Qed.

Lemma is_compiled_extension_spec base_name file :
  is_compiled_extension base_name file = true ->
  startswith file base_name = true
  /\ (endswith file ".pyd" = true \/ endswith file ".so" = true)
  /\ file <> "".
Proof.
  unfold is_compiled_extension. intros [Hstart Hend]%andb_true_iff.
  apply orb_true_iff in Hend. repeat split; try assumption.
  intros ->. destruct Hend as [H|H]; discriminate H.
Qed.

(** What the [try] block gives: the path of a listed file that passes for
    the extension, or [None]; an [Exception] never leaves it. *)
Lemma run_setup_inv host output_dir base_name setup_file s r s' :
  run_setup host output_dir base_name setup_file s = (r, s') ->
  match r with
  | Ok (Some compiled_file) =>
      exists file,
        compiled_file = os_path.join output_dir file
        /\ is_compiled_extension base_name file = true
  | Ok None => True
  | Raise e => is_Exception e = false
  end.
Proof.
  unfold run_setup, try_except_Exception, lift_world.
  cbv [print modify_world mbind M_bind mret M_ret]. cbn [world exec_log].
  destruct (subprocess_run host _ output_dir _) as [[result|e] w1].
  2:{ destruct (is_Exception e) eqn:He; intros H; inversion H; subst; auto. }
  destruct (decide _).
  { intros H. inversion H; subst. exact I. }
  cbn [world exec_log].
  destruct (os_listdir host output_dir _) as [[files|e] w2].
  2:{ destruct (is_Exception e) eqn:He; intros H; inversion H; subst; auto. }
  destruct (find (is_compiled_extension base_name) files) as [file|] eqn:Hfind.
  - intros H. inversion H; subst. exists file. split; [reflexivity|].
    now apply find_some in Hfind.
  - intros H. inversion H; subst. exact I.
Qed.

Lemma remove_temporary_files_Ok setup_file source_copy s :
  fst (remove_temporary_files setup_file source_copy s) = Ok tt.
Proof.
  unfold remove_temporary_files, try_except_pass.
  destruct ((os_unlink setup_file;; os_unlink source_copy) s) as [[[]|e] s']; reflexivity.
Qed.

(** [compile_to_cython] from the first of its preparations on. *)
Lemma compile_to_cython_inv host source_file output_dir s r s' :
  compile_to_cython host source_file output_dir s = (r, s') ->
  let dir := default "../build" output_dir in
  let base_name := fst (os_path.splitext (os_path.basename source_file)) in
  let setup_file := os_path.join dir "setup_temp.py" in
  let source_copy := os_path.join dir (os_path.basename source_file) in
  (fs (world s) !! source_file = None
   /\ r = Raise (FileNotFoundError ("Source file not found: " +:+ source_file))
   /\ s' = s)
  \/ (exists e w, r = Raise e /\ fst (os_makedirs host dir w) = Raise e)
  \/ (exists e w text, r = Raise e /\ fst (write_text host setup_file text w) = Raise e)
  \/ (exists e w, r = Raise e /\ fst (shutil_copy2 host source_file source_copy w) = Raise e)
  \/ (exists s3 s4,
        run_setup host dir base_name setup_file s3 = (r, s4)
        /\ s' = snd (remove_temporary_files setup_file source_copy s4)).
Proof.
  intros Hrun dir base_name setup_file source_copy.
  unfold compile_to_cython, os_path_exists in Hrun. fold dir base_name setup_file source_copy in Hrun.
  cbv [get_world mbind M_bind mret M_ret raise lift_world] in Hrun.
  destruct (fs (world s) !! source_file) as [src|] eqn:Hfs.
  2:{ rewrite bool_decide_eq_false_2 in Hrun by (intros [x Hx]; discriminate Hx).
      cbn [negb] in Hrun. inversion Hrun; subst. left. auto. }
  rewrite bool_decide_eq_true_2 in Hrun by eauto. cbn [negb world exec_log] in Hrun.
  destruct (os_makedirs host dir (world s)) as [[[]|e] w1] eqn:Hmk.
  2:{ inversion Hrun; subst. right. left. exists e, (world s). rewrite Hmk. auto. }
  cbn [world exec_log] in Hrun.
  destruct (write_text host setup_file _ w1) as [[[]|e] w2] eqn:Hwr.
  2:{ inversion Hrun; subst. right. right. left. eexists e, w1, _. rewrite Hwr. auto. }
  cbn [world exec_log] in Hrun.
  destruct (shutil_copy2 host source_file source_copy w2) as [[[]|e] w3] eqn:Hcp.
  2:{ inversion Hrun; subst. right. right. right. left. exists e, w2. rewrite Hcp. auto. }
  unfold try_finally in Hrun.
  destruct (run_setup host dir base_name setup_file _) as [r4 s4] eqn:Hsetup.
  pose proof (remove_temporary_files_Ok setup_file source_copy s4) as Hclean.
  destruct (remove_temporary_files setup_file source_copy s4) as [[[]|e] s5] eqn:Hrm;
    [|discriminate Hclean].
  inversion Hrun; subst. right. right. right. right.
  eexists _, s4. split; [exact Hsetup | now rewrite Hrm].
Qed.

(** Build tools on a flat file system, with a compiler that succeeds: it
    leaves the C file and the extension next to the setup script. *)
Definition host_building : BuildHost :=
  mkBuildHost "/usr/bin/python3"
    (fun w => (Ok "/home/user/project", w))
    (fun path w => (Ok tt, w))
    (fun path text w => (Ok tt, set_fs (<[path := list_byte_of_string text]>) w))
    (fun src dst w =>
       match fs w !! src with
       | Some data => (Ok tt, set_fs (<[dst := data]>) w)
       | None => (Raise (FileNotFoundError "[Errno 2] No such file or directory"), w)
       end)
    (fun args cwd w =>
       (Ok (mkCompletedProcess 0 "" ""),
        set_fs (<[cwd +:+ "/app.cpython-311-x86_64-linux-gnu.so" := demo.P0]>) w))
    (fun path w =>
       (Ok ["setup_temp.py"; "app.py"; "app.c"; "app.cpython-311-x86_64-linux-gnu.so"], w))
    (fun path w => (Ok tt, w)).

(** A project directory with the source [app.py]. *)
Definition s_project : Proc :=
  mkProc
    (mkWorld {[ "app.py" := list_byte_of_string "print('hello')" ]} 4096 ∅ 499162800
       (fun n => byte_of_N (N.of_nat n)) 0 [] "linux" ["build_encrypted_app.py"; "app.py"]
       ∅ ∅ ∅ [] ∅)
    [].

(** X21. What [compile_to_cython] returns, when it returns a path: the
    output directory joined with the name of a file that begins with the
    base name of the source file and ends in [.pyd] or [.so]. The path is
    never empty, so a caller that tests the result for truth tells a path
    from [None]. *)
Theorem compile_to_cython_returns_extension_path
    (host : BuildHost) (source_file compiled_file : string) (output_dir : option string)
    (s s' : Proc) :
  compile_to_cython host source_file output_dir s = (Ok (Some compiled_file), s') ->
  exists file,
    compiled_file = os_path.join (default "../build" output_dir) file
    /\ startswith file (fst (os_path.splitext (os_path.basename source_file))) = true
    /\ (endswith file ".pyd" = true \/ endswith file ".so" = true)
    /\ truthy (Some compiled_file) = true.
Proof.
  intros Hrun.
  destruct (compile_to_cython_inv _ _ _ _ _ _ Hrun)
    as [(_ & Hr & _) | [(e & w & Hr & _) | [(e & w & text & Hr & _)
        | [(e & w & Hr & _) | (s3 & s4 & Hsetup & _)]]]]; try discriminate Hr.
  apply run_setup_inv in Hsetup as (file & -> & Hfile).
  apply is_compiled_extension_spec in Hfile as (Hstart & Hend & Hne).
  exists file. repeat split; try assumption.
  pose proof (join_not_empty (default "../build" output_dir) file Hne) as Hjoin.
  now destruct (os_path.join _ file).
Qed.

Lemma compile_to_cython_returns_extension_path_witness :
  exists file,
    "../build/app.cpython-311-x86_64-linux-gnu.so"
    = os_path.join (default "../build" None) file
    /\ startswith file (fst (os_path.splitext (os_path.basename "app.py"))) = true
    /\ (endswith file ".pyd" = true \/ endswith file ".so" = true)
    /\ truthy (Some "../build/app.cpython-311-x86_64-linux-gnu.so") = true.
Proof.
  eapply (compile_to_cython_returns_extension_path host_building "app.py" _ None s_project).
  vm_compute. reflexivity.
Defined.

(** [compile_to_cython] once its preparations have gone through: the
    [try] block runs in the world the copy of the source has left, the
    [finally] block runs in the state the [try] block ends in, and what the
    [try] block returns or raises is what the function returns or raises. *)
Lemma compile_to_cython_prepared host source_file output_dir s w1 w2 w3 :
  is_Some (fs (world s) !! source_file) ->
  os_makedirs host (default "../build" output_dir) (world s) = (Ok tt, w1) ->
  write_text host (os_path.join (default "../build" output_dir) "setup_temp.py")
    (setup_content (fst (os_path.splitext (os_path.basename source_file))) source_file) w1
  = (Ok tt, w2) ->
  shutil_copy2 host source_file
    (os_path.join (default "../build" output_dir) (os_path.basename source_file)) w2
  = (Ok tt, w3) ->
  compile_to_cython host source_file output_dir s
  = (fst (run_setup host (default "../build" output_dir)
            (fst (os_path.splitext (os_path.basename source_file)))
            (os_path.join (default "../build" output_dir) "setup_temp.py")
            (mkProc w3 (exec_log s))),
     snd (remove_temporary_files
            (os_path.join (default "../build" output_dir) "setup_temp.py")
            (os_path.join (default "../build" output_dir) (os_path.basename source_file))
            (snd (run_setup host (default "../build" output_dir)
                    (fst (os_path.splitext (os_path.basename source_file)))
                    (os_path.join (default "../build" output_dir) "setup_temp.py")
                    (mkProc w3 (exec_log s)))))).
Proof.
  intros Hsome Hmk Hwr Hcp.
  unfold compile_to_cython, os_path_exists.
  cbv [get_world mbind M_bind mret M_ret raise lift_world].
  rewrite bool_decide_eq_true_2 by exact Hsome. cbn [negb world exec_log].
  rewrite Hmk. cbn [world exec_log]. rewrite Hwr. cbn [world exec_log]. rewrite Hcp.
  unfold try_finally.
  destruct (run_setup host _ _ _ _) as [r4 s4]. cbn [fst snd].
  pose proof (remove_temporary_files_Ok
                (os_path.join (default "../build" output_dir) "setup_temp.py")
                (os_path.join (default "../build" output_dir) (os_path.basename source_file))
                s4) as Hclean.
  destruct (remove_temporary_files _ _ s4) as [[[]|e] s5]; [reflexivity|discriminate Hclean].
Qed.

(** The [try] block when [subprocess.run] raises, and when [os.listdir]
    raises after a compiler run that ended with status 0. *)
Lemma run_setup_compiler_raises host output_dir base_name setup_file s e w4 :
  subprocess_run host [sys_executable host; setup_file; "build_ext"; "--inplace"] output_dir
    (set_stdout (fun out => out ++ ["Compiling with Cython..."]) (world s))
  = (Raise e, w4) ->
  is_Exception e = true ->
  run_setup host output_dir base_name setup_file s
  = (Ok None, printed ["Compilation error: " +:+ str_exn e] (mkProc w4 (exec_log s))).
Proof.
  intros Hsub He. unfold run_setup, try_except_Exception, lift_world.
  cbv [print modify_world mbind M_bind mret M_ret]. cbn [world exec_log].
  rewrite Hsub, He. reflexivity.
Qed.

Lemma run_setup_listing_raises host output_dir base_name setup_file s result w4 e w5 :
  subprocess_run host [sys_executable host; setup_file; "build_ext"; "--inplace"] output_dir
    (set_stdout (fun out => out ++ ["Compiling with Cython..."]) (world s))
  = (Ok result, w4) ->
  returncode result = 0%Z ->
  os_listdir host output_dir (set_stdout (fun out => out ++ ["Compilation successful!"]) w4)
  = (Raise e, w5) ->
  is_Exception e = true ->
  run_setup host output_dir base_name setup_file s
  = (Ok None, printed ["Compilation error: " +:+ str_exn e] (mkProc w5 (exec_log s))).
Proof.
  intros Hsub Hcode Hls He. unfold run_setup, try_except_Exception, lift_world.
  cbv [print modify_world mbind M_bind mret M_ret]. cbn [world exec_log].
  rewrite Hsub. cbn [world exec_log].
  destruct (decide _) as [Hne|_]; [contradiction|].
  cbn [world exec_log]. rewrite Hls, He. reflexivity.
Qed.

(** X22. A failure of the compiler run never leaves [compile_to_cython]
    as an [Exception]. Once the source file has been found and the output
    directory, the setup script and the copy of the source have been made:
    when [subprocess.run] raises an [Exception], and when [os.listdir]
    raises one after a compiler run that ended with status 0, the function
    prints [Compilation error: ...] with the text of the exception, runs its
    [finally] block and returns [None]; and whatever it does raise from
    there on is no [Exception]. *)
Theorem compile_to_cython_contains_compiler_failures
    (host : BuildHost) (source_file : string) (output_dir : option string)
    (s : Proc) (w1 w2 w3 : World) :
  let dir := default "../build" output_dir in
  let base_name := fst (os_path.splitext (os_path.basename source_file)) in
  let setup_file := os_path.join dir "setup_temp.py" in
  let source_copy := os_path.join dir (os_path.basename source_file) in
  let command := [sys_executable host; setup_file; "build_ext"; "--inplace"] in
  let reported e w :=
    snd (remove_temporary_files setup_file source_copy
           (printed ["Compilation error: " +:+ str_exn e] (mkProc w (exec_log s)))) in
  is_Some (fs (world s) !! source_file) ->
  os_makedirs host dir (world s) = (Ok tt, w1) ->
  write_text host setup_file (setup_content base_name source_file) w1 = (Ok tt, w2) ->
  shutil_copy2 host source_file source_copy w2 = (Ok tt, w3) ->
  (forall e w4,
     subprocess_run host command dir
       (set_stdout (fun out => out ++ ["Compiling with Cython..."]) w3) = (Raise e, w4) ->
     is_Exception e = true ->
     compile_to_cython host source_file output_dir s = (Ok None, reported e w4))
  /\ (forall result w4 e w5,
        subprocess_run host command dir
          (set_stdout (fun out => out ++ ["Compiling with Cython..."]) w3) = (Ok result, w4) ->
        returncode result = 0%Z ->
        os_listdir host dir (set_stdout (fun out => out ++ ["Compilation successful!"]) w4)
        = (Raise e, w5) ->
        is_Exception e = true ->
        compile_to_cython host source_file output_dir s = (Ok None, reported e w5))
  /\ (forall e s',
        compile_to_cython host source_file output_dir s = (Raise e, s') ->
        is_Exception e = false).
Proof.
  intros dir base_name setup_file source_copy command reported Hsome Hmk Hwr Hcp.
  pose proof (compile_to_cython_prepared host source_file output_dir s w1 w2 w3
                Hsome Hmk Hwr Hcp) as Hrun.
  fold dir base_name setup_file source_copy in Hrun.
  split; [|split].
  - intros e w4 Hsub He. rewrite Hrun.
    now rewrite (run_setup_compiler_raises host dir base_name setup_file
                   (mkProc w3 (exec_log s)) e w4 Hsub He).
  - intros result w4 e w5 Hsub Hcode Hls He. rewrite Hrun.
    now rewrite (run_setup_listing_raises host dir base_name setup_file
                   (mkProc w3 (exec_log s)) result w4 e w5 Hsub Hcode Hls He).
  - intros e s' Hraise. rewrite Hrun in Hraise.
    destruct (run_setup host dir base_name setup_file (mkProc w3 (exec_log s)))
      as [r4 s4] eqn:Hsetup.
    apply run_setup_inv in Hsetup. cbn [fst] in Hraise.
    injection Hraise as -> _. exact Hsetup.
Qed.

(** Build tools that do nothing and a compiler that cannot be started. *)
Definition host_without_compiler : BuildHost :=
  mkBuildHost "/usr/bin/python3"
    (fun w => (Ok "/home/user/project", w))
    (fun path w => (Ok tt, w))
    (fun path text w => (Ok tt, w))
    (fun src dst w => (Ok tt, w))
    (fun args cwd w => (Raise (OSError "[Errno 8] Exec format error"), w))
    (fun path w => (Ok [], w))
    (fun path w => (Ok tt, w)).

Lemma compile_to_cython_contains_compiler_failures_witness :
  fst (compile_to_cython host_without_compiler "app.py" None s_project) = Ok None
  /\ stdout (world (snd (compile_to_cython host_without_compiler "app.py" None s_project)))
     = ["Compiling with Cython..."; "Compilation error: [Errno 8] Exec format error"].
Proof.
  destruct (compile_to_cython_contains_compiler_failures host_without_compiler "app.py" None
              s_project (world s_project) (world s_project) (world s_project))
    as [Hraises _].
  - eexists. reflexivity.
  - reflexivity.
  - reflexivity.
  - reflexivity.
  - rewrite (Hraises (OSError "[Errno 8] Exec format error")
               (set_stdout (fun out => out ++ ["Compiling with Cython..."])
                  (world s_project)));
      [split; vm_compute; reflexivity | reflexivity | reflexivity].
Defined.

(** The [finally] block removes the setup script and then the copy of the
    source, and gives up, silently, at the first file it cannot remove. *)
Lemma remove_temporary_files_run setup_file source_copy s :
  let s' := snd (remove_temporary_files setup_file source_copy s) in
  (fs (world s) !! setup_file = None \/ setup_file ∈ undeletable (world s) -> s' = s)
  /\ (is_Some (fs (world s) !! setup_file) -> setup_file ∉ undeletable (world s) ->
      fs (world s') !! setup_file = None
      /\ (source_copy ∉ undeletable (world s) -> fs (world s') !! source_copy = None)).
Proof.
  unfold remove_temporary_files, try_except_pass, os_unlink.
  cbv [get_world mbind M_bind mret M_ret raise modify_world]. cbn [world exec_log].
  destruct (fs (world s) !! setup_file) as [d|] eqn:Hsetup.
  - destruct (decide (setup_file ∈ undeletable (world s))) as [Hin|Hnin].
    + cbn [snd]. split; [reflexivity|]. intros _ H. contradiction.
    + cbn [world exec_log fs undeletable set_fs].
      split; [intros [H|H]; [discriminate H | contradiction]|].
      intros _ _.
      destruct (delete setup_file (fs (world s)) !! source_copy) as [d'|] eqn:Hcopy.
      * destruct (decide (source_copy ∈ undeletable (world s))) as [Hin'|Hnin'];
          cbn [snd world fs set_fs].
        -- split; [apply lookup_delete_eq | intros H; contradiction].
        -- split; [|intros _; apply lookup_delete_eq].
           rewrite lookup_delete_ne; [apply lookup_delete_eq|].
           intros ->. rewrite lookup_delete_eq in Hcopy. discriminate Hcopy.
      * cbn [snd world fs set_fs]. split; [apply lookup_delete_eq | intros _; exact Hcopy].
  - cbn [snd]. split; [reflexivity|]. intros [x Hx]. discriminate Hx.
Qed.

(** X23. The [finally] block of [compile_to_cython]. Once the source
    file has been found and the output directory, the setup script and the
    copy of the source have been made, the function ends the way its [try]
    block ends (the same value returned, the same exception raised), after
    one attempt to remove the setup script and then the copy of the source
    whose failure is ignored. With [s4] the process at the end of the [try]
    block: if the setup script is there and can be removed, it is gone when
    the function ends, and so is the copy of the source unless the OS
    refuses to delete it; if the setup script is not there any more or
    cannot be removed, nothing is removed, and the copy of the source stays
    in the output directory. *)
Theorem compile_to_cython_removes_temporary_files
    (host : BuildHost) (source_file : string) (output_dir : option string)
    (s : Proc) (w1 w2 w3 : World) :
  let dir := default "../build" output_dir in
  let base_name := fst (os_path.splitext (os_path.basename source_file)) in
  let setup_file := os_path.join dir "setup_temp.py" in
  let source_copy := os_path.join dir (os_path.basename source_file) in
  is_Some (fs (world s) !! source_file) ->
  os_makedirs host dir (world s) = (Ok tt, w1) ->
  write_text host setup_file (setup_content base_name source_file) w1 = (Ok tt, w2) ->
  shutil_copy2 host source_file source_copy w2 = (Ok tt, w3) ->
  let r4 := fst (run_setup host dir base_name setup_file (mkProc w3 (exec_log s))) in
  let s4 := snd (run_setup host dir base_name setup_file (mkProc w3 (exec_log s))) in
  let s' := snd (compile_to_cython host source_file output_dir s) in
  fst (compile_to_cython host source_file output_dir s) = r4
  /\ (fs (world s4) !! setup_file = None \/ setup_file ∈ undeletable (world s4) -> s' = s4)
  /\ (is_Some (fs (world s4) !! setup_file) -> setup_file ∉ undeletable (world s4) ->
      fs (world s') !! setup_file = None
      /\ (source_copy ∉ undeletable (world s4) -> fs (world s') !! source_copy = None)).
Proof.
  intros dir base_name setup_file source_copy Hsome Hmk Hwr Hcp r4 s4 s'.
  pose proof (compile_to_cython_prepared host source_file output_dir s w1 w2 w3
                Hsome Hmk Hwr Hcp) as Hrun.
  fold dir base_name setup_file source_copy in Hrun. fold r4 s4 in Hrun.
  subst s'. rewrite Hrun. cbn [fst snd].
  split; [reflexivity|]. apply remove_temporary_files_run.
Qed.

Lemma compile_to_cython_removes_temporary_files_witness :
  fst (compile_to_cython host_building "app.py" None s_project)
  = Ok (Some "../build/app.cpython-311-x86_64-linux-gnu.so")
  /\ fs (world (snd (compile_to_cython host_building "app.py" None s_project)))
       !! "../build/setup_temp.py" = None
  /\ fs (world (snd (compile_to_cython host_building "app.py" None s_project)))
       !! "../build/app.py" = None.
Proof.
  destruct (compile_to_cython_removes_temporary_files host_building "app.py" None s_project
              (world s_project)
              (snd (write_text host_building "../build/setup_temp.py"
                      (setup_content "app" "app.py") (world s_project)))
              (snd (shutil_copy2 host_building "app.py" "../build/app.py"
                      (snd (write_text host_building "../build/setup_temp.py"
                              (setup_content "app" "app.py") (world s_project))))))
    as (Hr & _ & Hremoved).
  - eexists. reflexivity.
  - reflexivity.
  - reflexivity.
  - reflexivity.
  - split; [rewrite Hr; vm_compute; reflexivity|].
    destruct Hremoved as [Hsetup Hcopy].
    + eexists. vm_compute. reflexivity.
    + vm_compute. intros H. discriminate H.
    + split; [exact Hsetup|]. apply Hcopy.
      vm_compute. intros H. discriminate H.
Defined.

(** The build of the demo project: the extension is found, and the setup
    script and the copy of the source are gone. *)
Example compile_to_cython_demo :
  fst (compile_to_cython host_building "app.py" None s_project)
  = Ok (Some "../build/app.cpython-311-x86_64-linux-gnu.so")
  /\ fs (world (snd (compile_to_cython host_building "app.py" None s_project)))
     = {[ "app.py" := list_byte_of_string "print('hello')";
          "../build/app.cpython-311-x86_64-linux-gnu.so" := demo.P0 ]}.
Proof. by_computation. Qed.

(** ** [build_encrypted_application] *)

Import build_encrypted_app.

(** X24. When the compilation gives no file, [build_encrypted_application]
    prints [Failed to compile with Cython!] and returns [False], and that is
    all it does after [compile_to_cython] has returned: nothing is encrypted,
    copied or cleaned up. [s2] is the process as [compile_to_cython] left
    it. *)
Theorem build_stops_when_compilation_fails
    (host : BuildHost) (source_file : string) (cleanup : bool) (s s2 : Proc)
    (compiled_file : option string) :
  compile_to_cython host source_file None
    (printed [newline +:+ "=== Step 1: Compiling with Cython ==="]
       (printed ["Building encrypted application from: " +:+ source_file] s))
  = (Ok compiled_file, s2) ->
  truthy compiled_file = false ->
  build_encrypted_application host source_file cleanup s
  = (Ok false, printed ["Failed to compile with Cython!"] s2).
Proof.
  intros Hcompile Hfalse. unfold build_encrypted_application.
  rewrite (bind_Ok _ _ _ _ _ (print_run _ s)).
  rewrite (bind_Ok _ _ _ _ _ (print_run _ _)).
  rewrite (bind_Ok _ _ _ _ _ Hcompile), Hfalse. reflexivity.
Qed.

Lemma build_stops_when_compilation_fails_witness :
  build_encrypted_application host_failing_compiler "app.py" true s_project
  = (Ok false,
     printed ["Failed to compile with Cython!"]
       (snd (compile_to_cython host_failing_compiler "app.py" None
               (printed [newline +:+ "=== Step 1: Compiling with Cython ==="]
                  (printed ["Building encrypted application from: " +:+ "app.py"]
                     s_project))))).
Proof.
  eapply (build_stops_when_compilation_fails host_failing_compiler "app.py" true s_project).
  - vm_compute. reflexivity.
  - reflexivity.
Defined.

(** The key in [encrypt_compiled.py] is a valid one. *)
Lemma ENCRYPTION_KEY_valid :
  Fernet.new (ENCRYPTION_KEY CompiledEncryptor) = Ok demo.f0
  /\ Fernet.new (DECRYPTION_KEY CythonRuntimeLoader) = Ok demo.f0.
Proof. split; vm_compute; reflexivity. Qed.

(** X25. The build and the loader fit together. Suppose the compilation
    returns the path of a file holding [P], the volume has room for the
    artifact, [os.getcwd] gives [cwd], [shutil.copy2] copies, and removing
    the directory [build] leaves the final path alone. Then
    [build_encrypted_application] returns [True], and in the process it
    leaves behind, a loader for the final path
    [<cwd>/<base name of the source>.encrypted] decrypts exactly [P] with the
    key built into [runtime_loader.py]. This holds whether or not the removal
    of [build] succeeded. *)
Theorem built_artifact_decrypts_to_compiled_extension
    (host : BuildHost) (source_file compiled_file cwd : string) (s s2 : Proc) (P : bytes) :
  let final_path :=
    os_path.join cwd (fst (os_path.splitext (os_path.basename source_file)) +:+ ".encrypted") in
  compile_to_cython host source_file None
    (printed [newline +:+ "=== Step 1: Compiling with Cython ==="]
       (printed ["Building encrypted application from: " +:+ source_file] s))
  = (Ok (Some compiled_file), s2) ->
  truthy (Some compiled_file) = true ->
  fs (world s2) !! compiled_file = Some P ->
  Fernet.token_length (length P) <= disk_free (world s2) ->
  (forall w, os_getcwd host w = (Ok cwd, w)) ->
  (forall src dst w data,
     fs w !! src = Some data ->
     exists w', shutil_copy2 host src dst w = (Ok tt, w') /\ fs w' !! dst = Some data) ->
  (forall w, fs (snd (shutil_rmtree host "build" w)) !! final_path = fs w !! final_path) ->
  exists s',
    build_encrypted_application host source_file true s = (Ok true, s')
    /\ _decrypt_file (__init__ CythonRuntimeLoader final_path None) s' = (Ok P, s').
Proof.
  intros final_path Hcompile Htruthy HP Hroom Hcwd Hcopy Hrm.
  destruct ENCRYPTION_KEY_valid as [Hkey Hkey'].
  unfold build_encrypted_application.
  rewrite (bind_Ok _ _ _ _ _ (print_run _ s)).
  rewrite (bind_Ok _ _ _ _ _ (print_run _ _)).
  rewrite (bind_Ok _ _ _ _ _ Hcompile), Htruthy. cbn [negb default].
  rewrite (bind_Ok _ _ _ _ _ (print_run _ _)).
  set (s3 := printed _ s2).
  pose proof (encrypt_file_final CompiledEncryptor compiled_file None s3 P demo.f0 HP Hkey)
    as Henc. cbv zeta in Henc.
  rewrite artifact_length in Henc.
  destruct (decide _) as [_|Hno]; [|subst s3; cbn [printed world disk_free set_stdout] in Hno; contradiction].
  rewrite (bind_Ok _ _ _ _ _ Henc). clear Henc.
  set (A := artifact demo.f0 P (world s3)).
  set (enc := output_of compiled_file None).
  match goal with
  | |- context [(lift_world (os_getcwd host) ≫= _) ?st] => set (s4 := st)
  end.
  assert (Hfs4 : fs (world s4) !! enc = Some A) by apply lookup_insert_eq.
  assert (Hgetcwd : lift_world (os_getcwd host) s4 = (Ok cwd, s4)).
  { unfold lift_world. rewrite Hcwd. now destruct s4. }
  rewrite (bind_Ok _ _ _ _ _ Hgetcwd). fold final_path.
  destruct (Hcopy enc final_path (world s4) A Hfs4) as (w5 & Hcp & Hfs5).
  assert (Hcopy2 : lift_world (shutil_copy2 host enc final_path) s4
                   = (Ok tt, mkProc w5 (exec_log s4))).
  { unfold lift_world. now rewrite Hcp. }
  rewrite (bind_Ok _ _ _ _ _ Hcopy2).
  rewrite (bind_Ok _ _ _ _ _ (print_run _ _)).
  rewrite (bind_Ok _ _ _ _ _ (print_run _ _)).
  rewrite (bind_Ok _ _ _ _ _ (print_run _ _)).
  set (s6 := printed _ (printed _ (printed _ _))).
  assert (Hfs6 : fs (world s6) !! final_path = Some A) by exact Hfs5.
  assert (Hclean : exists s7,
            try_except_pass
              (lift_world (shutil_rmtree host "build");; print "Build directory cleaned up.") s6
            = (Ok tt, s7)
            /\ fs (world s7) !! final_path = Some A).
  { unfold try_except_pass, lift_world. cbv [mbind M_bind].
    specialize (Hrm (world s6)).
    destruct (shutil_rmtree host "build" (world s6)) as [[[]|e] w7]; cbn [snd] in Hrm.
    - eexists. split; [reflexivity|]. cbn [world fs set_stdout]. now rewrite Hrm.
    - eexists. split; [reflexivity|]. cbn [world]. now rewrite Hrm. }
  destruct Hclean as (s7 & Hclean & Hfs7).
  rewrite (bind_Ok _ _ _ _ _ Hclean).
  exists s7. split; [reflexivity|].
  rewrite (_decrypt_file_run (__init__ CythonRuntimeLoader final_path None) s7 A demo.f0 Hfs7 Hkey').
  unfold decrypt_outcome. subst A. unfold artifact.
  now rewrite Fernet.decrypt_encrypt by apply next_iv_length.
Qed.

Lemma built_artifact_decrypts_to_compiled_extension_witness :
  exists s',
    build_encrypted_application host_building "app.py" true s_project = (Ok true, s')
    /\ _decrypt_file
         (__init__ CythonRuntimeLoader
            (os_path.join "/home/user/project"
               (fst (os_path.splitext (os_path.basename "app.py")) +:+ ".encrypted"))
            None) s'
       = (Ok demo.P0, s').
Proof.
  eapply (built_artifact_decrypts_to_compiled_extension host_building "app.py"
            "../build/app.cpython-311-x86_64-linux-gnu.so" "/home/user/project" s_project).
  - vm_compute. reflexivity.
  - reflexivity.
  - vm_compute. reflexivity.
  - apply Nat.leb_le. vm_compute. reflexivity.
  - intros w. reflexivity.
  - intros src dst w data Hsrc. cbn [shutil_copy2 host_building]. rewrite Hsrc.
    eexists. split; [reflexivity | apply lookup_insert_eq].
  - intros w. reflexivity.
Defined.

(** The run of the build in the demo project: the artifact is copied to
    the working directory, and the compiled extension stays, in the clear, in
    the output directory [../build] (the directory the cleanup removes is
    [build]). *)
Example build_demo :
  let s' := snd (build_encrypted_application host_building "app.py" true s_project) in
  (fs (world s') !! "/home/user/project/app.encrypted",
   fs (world s') !! "../build/app.cpython-311-x86_64-linux-gnu.so")
  = (Some demo.A0, Some demo.P0).
Proof. vm_compute. reflexivity. Qed.

Lemma after_last_lacks_sep sep l :
  existsb (Ascii.eqb sep) (os_path.after_last sep l) = false.
Proof.
  induction l as [|c l IH]; [reflexivity|]. cbn [os_path.after_last].
  destruct (existsb (Ascii.eqb sep) l) eqn:Hl; [exact IH|].
  destruct (Ascii.eqb c sep) eqn:Hc; [exact Hl|].
  cbn [existsb]. now rewrite ascii_eqb_sym, Hc, Hl.
Qed.

Lemma basename_lacks_slash p : lacks os_path.slash (os_path.basename p).
Proof.
  unfold lacks, os_path.basename. rewrite list_ascii_of_string_of_list_ascii.
  apply after_last_lacks_sep.
Qed.

Lemma existsb_take {A} (f : A -> bool) n l :
  existsb f l = false -> existsb f (take n l) = false.
Proof.
  revert n. induction l as [|x l IH]; intros [|n] H; try reflexivity.
  cbn [existsb] in H. apply orb_false_iff in H as [Hx Hl].
  cbn [take firstn existsb]. now rewrite Hx, IH.
Qed.

Lemma splitext_root_lacks c p : lacks c p -> lacks c (fst (os_path.splitext p)).
Proof.
  unfold lacks, os_path.splitext. intros Hp.
  destruct (os_path.rfind os_path.dot _) as [dotIndex|]; [|exact Hp].
  destruct (_ && _); [|exact Hp].
  cbn [fst]. rewrite list_ascii_of_string_of_list_ascii. now apply existsb_take.
Qed.

(** The path [os.path.join] makes of a directory and a relative file
    name. *)
Lemma join_relative cwd file :
  file <> "" -> lacks os_path.slash file ->
  os_path.join cwd file = file \/ exists dir, os_path.join cwd file = dir +:+ "/" +:+ file.
Proof.
  intros Hne Hslash. unfold os_path.join.
  destruct file as [|c file]; [contradiction|].
  assert (Hc : Ascii.eqb c os_path.slash = false).
  { unfold lacks in Hslash. cbn [list_ascii_of_string existsb] in Hslash.
    apply orb_false_iff in Hslash as [Hc _]. now rewrite ascii_eqb_sym. }
  rewrite Hc.
  destruct (bool_decide (cwd = "")) eqn:Hempty; cbn [orb].
  - apply bool_decide_eq_true in Hempty. subst cwd. now left.
  - destruct (Ascii.eqb (List.last (list_ascii_of_string cwd) os_path.dot) os_path.slash)
      eqn:Hlast; [|right; now exists cwd].
    right. apply bool_decide_eq_false in Hempty.
    destruct (exists_last (l := list_ascii_of_string cwd)) as (l' & x & Hl).
    { intros H. apply Hempty. rewrite <- (string_of_list_ascii_of_string cwd), H.
      reflexivity. }
    rewrite Hl, last_last in Hlast. apply Ascii.eqb_eq in Hlast. subst x.
    exists (string_of_list_ascii l').
    rewrite <- (string_of_list_ascii_of_string cwd) at 1.
    rewrite Hl, string_of_list_ascii_app, append_assoc. reflexivity.
Qed.

(** X26. The name under which the loader imports what the build made is
    the name it was compiled under. For a source file whose base name
    without extension, [base_name], has a character other than a dot and
    does not end in [.encrypted]: [compile_to_cython] names the extension
    module [base_name], [build_encrypted_application] names the artifact
    [<base_name>.encrypted] and puts it into the working directory, and a
    loader built from that file name, or from that path, takes [base_name]
    for the module name (POSIX paths). *)
Theorem built_artifact_is_loaded_under_compiled_name
    (c : CythonRuntimeLoader.cls) (cwd source_file : string) :
  let base_name := fst (os_path.splitext (os_path.basename source_file)) in
  let final_name := base_name +:+ ".encrypted" in
  existsb (fun c => negb (Ascii.eqb c os_path.dot)) (list_ascii_of_string base_name) = true ->
  endswith base_name ".encrypted" = false ->
  module_name (__init__ c final_name None) = base_name
  /\ module_name (__init__ c (os_path.join cwd final_name) None) = base_name.
Proof.
  intros base_name final_name Hname Hend.
  assert (Hslash : lacks os_path.slash base_name)
    by apply splitext_root_lacks, basename_lacks_slash.
  assert (Hfile : lacks os_path.slash final_name).
  { unfold lacks, final_name in *.
    rewrite list_ascii_of_string_app, existsb_app, Hslash. reflexivity. }
  assert (Hderived : forall path,
            os_path.basename path = final_name ->
            module_name (__init__ c path None) = base_name).
  { intros path Hbase. unfold __init__. cbn [module_name].
    rewrite Hbase. unfold final_name.
    rewrite (splitext_encrypted base_name Hslash Hname). cbn [fst]. now rewrite Hend. }
  split.
  - apply Hderived. now apply (basename_file "" final_name).
  - apply Hderived.
    destruct (join_relative cwd final_name) as [-> | [dir ->]].
    + unfold final_name. apply append_not_empty. discriminate.
    + exact Hfile.
    + now apply (basename_file "" final_name).
    + now apply (basename_file dir final_name).
Qed.

Lemma built_artifact_is_loaded_under_compiled_name_witness :
  module_name
    (__init__ CythonRuntimeLoader
       (fst (os_path.splitext (os_path.basename "src/app.py")) +:+ ".encrypted") None)
  = fst (os_path.splitext (os_path.basename "src/app.py"))
  /\ module_name
       (__init__ CythonRuntimeLoader
          (os_path.join "/home/user/project"
             (fst (os_path.splitext (os_path.basename "src/app.py")) +:+ ".encrypted"))
          None)
     = fst (os_path.splitext (os_path.basename "src/app.py")).
Proof.
  apply (built_artifact_is_loaded_under_compiled_name CythonRuntimeLoader
           "/home/user/project" "src/app.py"); reflexivity.
Defined.

(** A source file whose base name ends in [.encrypted]: the loader looks
    for a module of another name than the one that was compiled. *)
Example module_name_mismatch :
  let base_name := fst (os_path.splitext (os_path.basename "tool.encrypted.py")) in
  base_name = "tool.encrypted"
  /\ module_name (__init__ CythonRuntimeLoader (base_name +:+ ".encrypted") None) = "tool".
Proof. cbv zeta. split; reflexivity. Qed.

(** ** The build scripts *)

Lemma os_path_exists_run path s :
  os_path_exists path s = (Ok (bool_decide (is_Some (fs (world s) !! path))), s).
Proof. reflexivity. Qed.

(** X27. The exit status of [build_encrypted_app.py]: 1, after the two
    usage lines, for an argument count other than one; 1, after
    [Source file not found: <path>], for a source file that does not exist
    (nothing is compiled then); 1, after [Build failed!], when
    [build_encrypted_application] returns [False]; and 0 when it returns
    [True]. *)
Theorem build_script_exit_status (host : BuildHost) (s : Proc) :
  (length (sys_argv (world s)) <> 2 ->
   build_encrypted_app.__main__ host s
   = (Raise (SystemExit 1),
      printed ["This will compile your Python file with Cython and encrypt it."]
        (printed ["Usage: python build_encrypted_app.py <python_file>"] s)))
  /\ (forall prog source_file,
        sys_argv (world s) = [prog; source_file] ->
        (fs (world s) !! source_file = None ->
         build_encrypted_app.__main__ host s
         = (Raise (SystemExit 1), printed ["Source file not found: " +:+ source_file] s))
        /\ (forall s',
              is_Some (fs (world s) !! source_file) ->
              build_encrypted_application host source_file true s = (Ok false, s') ->
              build_encrypted_app.__main__ host s
              = (Raise (SystemExit 1), printed ["Build failed!"] s'))
        /\ (forall s',
              is_Some (fs (world s) !! source_file) ->
              build_encrypted_application host source_file true s = (Ok true, s') ->
              build_encrypted_app.__main__ host s = (Ok tt, s'))).
Proof.
  split.
  - intros Hargv. unfold build_encrypted_app.__main__.
    cbv [get_world mbind M_bind mret M_ret]. now destruct (decide _).
  - intros prog source_file Hargv.
    assert (Hmain : build_encrypted_app.__main__ host s
                    = (found ← os_path_exists source_file;
                       if negb found then
                         print ("Source file not found: " +:+ source_file);; sys_exit 1
                       else
                         success ← build_encrypted_application host source_file true;
                         if negb success then print "Build failed!";; sys_exit 1
                         else mret tt) s).
    { unfold build_encrypted_app.__main__. cbv [get_world]. unfold mbind at 1, M_bind at 1.
      rewrite Hargv. cbn [length nth].
      destruct (decide (2 <> 2)) as [H|_]; [contradiction | reflexivity]. }
    rewrite Hmain. rewrite (bind_Ok _ _ _ _ _ (os_path_exists_run source_file s)).
    split; [|split].
    + intros Hfs. rewrite Hfs, bool_decide_eq_false_2 by (intros [x Hx]; discriminate Hx).
      reflexivity.
    + intros s' Hfs Hbuild. rewrite bool_decide_eq_true_2 by assumption. cbn [negb].
      now rewrite (bind_Ok _ _ _ _ _ Hbuild).
    + intros s' Hfs Hbuild. rewrite bool_decide_eq_true_2 by assumption. cbn [negb].
      now rewrite (bind_Ok _ _ _ _ _ Hbuild).
Qed.

(** X28. [cythonize_app.py] does not check that its argument exists:
    for a missing source file the [FileNotFoundError] of [compile_to_cython]
    leaves the script uncaught (a traceback, exit status 1), where
    [build_encrypted_app.py] prints a message. When [compile_to_cython]
    returns [None] the script prints [Compilation failed!] and exits with
    status 1, and when it returns a path, with status 0 after
    [Successfully compiled: <path>]. *)
Theorem cythonize_script_exit_status
    (host : BuildHost) (s : Proc) (prog source_file : string) :
  sys_argv (world s) = [prog; source_file] ->
  (fs (world s) !! source_file = None ->
   cythonize_app.__main__ host s
   = (Raise (FileNotFoundError ("Source file not found: " +:+ source_file)), s)
   /\ exit_status (fst (cythonize_app.__main__ host s)) = 1%Z)
  /\ (forall s',
        compile_to_cython host source_file None s = (Ok None, s') ->
        cythonize_app.__main__ host s
        = (Raise (SystemExit 1), printed ["Compilation failed!"] s'))
  /\ (forall compiled_file s',
        compile_to_cython host source_file None s = (Ok (Some compiled_file), s') ->
        cythonize_app.__main__ host s
        = (Ok tt, printed ["Successfully compiled: " +:+ compiled_file] s')).
Proof.
  intros Hargv.
  assert (Hmain : cythonize_app.__main__ host s
                  = (compiled_file ← compile_to_cython host source_file None;
                     if truthy compiled_file then
                       print ("Successfully compiled: " +:+ default "" compiled_file)
                     else print "Compilation failed!";; sys_exit 1) s).
  { unfold cythonize_app.__main__. cbv [get_world]. unfold mbind at 1, M_bind at 1.
    rewrite Hargv. cbn [length nth].
    destruct (decide (2 <> 2)) as [H|_]; [contradiction | reflexivity]. }
  rewrite Hmain. split; [|split].
  - intros Hfs.
    rewrite (bind_Raise _ _ _ _ _
               (compile_to_cython_missing host source_file None s Hfs)).
    split; reflexivity.
  - intros s' Hcompile. now rewrite (bind_Ok _ _ _ _ _ Hcompile).
  - intros compiled_file s' Hcompile. rewrite (bind_Ok _ _ _ _ _ Hcompile).
    destruct (compile_to_cython_inv _ _ _ _ _ _ Hcompile)
      as [(_ & Hr & _) | [(e & w & Hr & _) | [(e & w & text & Hr & _)
          | [(e & w & Hr & _) | (s3 & s4 & Hsetup & _)]]]]; try discriminate Hr.
    apply run_setup_inv in Hsetup as (file & -> & Hfile).
    apply is_compiled_extension_spec in Hfile as (_ & _ & Hne).
    pose proof (join_not_empty (default "../build" None) file Hne) as Hjoin.
    cbn [default] in *. now destruct (os_path.join "../build" file).
Qed.

Lemma cythonize_script_exit_status_witness :
  (fs (world s_project) !! "app.py" = None ->
   cythonize_app.__main__ host_building s_project
   = (Raise (FileNotFoundError ("Source file not found: " +:+ "app.py")), s_project)
   /\ exit_status (fst (cythonize_app.__main__ host_building s_project)) = 1%Z)
  /\ (forall s',
        compile_to_cython host_building "app.py" None s_project = (Ok None, s') ->
        cythonize_app.__main__ host_building s_project
        = (Raise (SystemExit 1), printed ["Compilation failed!"] s'))
  /\ (forall compiled_file s',
        compile_to_cython host_building "app.py" None s_project
        = (Ok (Some compiled_file), s') ->
        cythonize_app.__main__ host_building s_project
        = (Ok tt, printed ["Successfully compiled: " +:+ compiled_file] s')).
Proof.
  apply (cythonize_script_exit_status host_building s_project "build_encrypted_app.py" "app.py").
  reflexivity.
Defined.
